(** * The hash-NB detector and its evaluation harness

    A shallow embedding of [scripts/test_detector_on_dataset.py]: the text
    normalizer, the trigram hasher, the two scoring models, the language
    router, the three-way classifier, and the evaluation engine with its
    accumulator, followed by the properties the specification states
    about them.

    Conventions.
    - A Python [str] is the list of its Unicode code points ([pystr]);
      string constants of the source that only serve as labels and
      dictionary keys ("AI", "Human", "Unknown") are Rocq strings.
    - A Python [int] is a [Z]; a Python [float] is a binary64 [float].
    - A Python call that can raise returns an [option] (or an [error]
      where the message matters); [None] stands for the exception.
    - [str.lower] and [math.exp] belong to the Python runtime, not to the
      repository; they are the two fields of [PyRuntime]. *)

From Stdlib Require Import ZArith Lia List Floats Bool.
From stdpp Require Import base option list gmap strings.

Local Open Scope Z_scope.

(** ** Python values *)

Abbreviation pystr := (list Z).

(** The code points of an ASCII literal of the source. *)
Definition lit (s : string) : pystr :=
  map (fun a => Z.of_N (Ascii.N_of_ascii a)) (String.list_ascii_of_string s).

Definition str_eqb (a b : pystr) : bool := bool_decide (a = b).

(** [len(l)] *)
Abbreviation len l := (Z.of_nat (length l)).

(** [l[i]] with Python's negative indices; [None] is IndexError. *)
Definition py_getitem {A} (l : list A) (i : Z) : option A :=
  if 0 <=? i then l !! Z.to_nat i
  else if - len l <=? i then l !! Z.to_nat (len l + i)
  else None.

(** [range(n)] *)
Definition py_range (n : Z) : list Z := map Z.of_nat (seq 0 (Z.to_nat n)).

(** A [for] loop whose body can raise. *)
Fixpoint for_each {A S} (body : S -> A -> option S) (l : list A) (s : S) : option S :=
  match l with
  | [] => Some s
  | x :: l' => s' ← body s x; for_each body l' s'
  end.

(** [float(n)] for an int below 2^63 (exact below 2^53). *)
Definition float_of_int (n : Z) : float := PrimFloat.of_uint63 (Uint63.of_Z n).

(** [x or default] on an optional float: None, 0.0 and -0.0 are falsy. *)
Definition float_or (x : option float) (d : float) : float :=
  match x with
  | Some v => if (v =? 0)%float then d else v
  | None => d
  end.

(** [x or default] on an optional int: None and 0 are falsy. *)
Definition int_or (x : option Z) (d : Z) : Z :=
  match x with
  | Some v => if v =? 0 then d else v
  | None => d
  end.

(** [x or default] on an optional str or list: None and the empty one are falsy. *)
Definition seq_or {A} (x : option (list A)) (d : list A) : list A :=
  match x with
  | Some (c :: v) => c :: v
  | _ => d
  end.

(** Python's [min(a, b)] and [max(a, b)] on floats: the first argument
    is kept unless the second is strictly smaller (larger). *)
Definition py_min (a b : float) : float := if (b <? a)%float then b else a.
Definition py_max (a b : float) : float := if (a <? b)%float then b else a.

(** The runtime functions the script calls: [str.lower] (the Unicode
    lower-casing of a whole string) and [math.exp]. *)
Class PyRuntime := {
  str_lower : pystr -> pystr;
  math_exp : float -> float
}.

(** [str.isspace] on one code point; [str.strip] removes these. *)
Definition py_isspace (c : Z) : bool :=
  ((9 <=? c) && (c <=? 13)) || ((28 <=? c) && (c <=? 32)) ||
  (c =? 133) || (c =? 160) || (c =? 5760) ||
  ((8192 <=? c) && (c <=? 8202)) || (c =? 8232) || (c =? 8233) ||
  (c =? 8239) || (c =? 8287) || (c =? 12288).

Fixpoint str_lstrip (s : pystr) : pystr :=
  match s with
  | [] => []
  | c :: s' => if py_isspace c then str_lstrip s' else s
  end.

(** Trailing whitespace goes: a character stays unless it is
    whitespace and nothing stays after it. *)
Fixpoint str_rstrip (s : pystr) : pystr :=
  match s with
  | [] => []
  | c :: s' =>
      match str_rstrip s' with
      | [] => if py_isspace c then [] else [c]
      | kept => c :: kept
      end
  end.

Definition str_strip (s : pystr) : pystr := str_rstrip (str_lstrip s).

(** ** Text normalizer *)

(** [.replace(NBSP, " ")], NBSP being U+00A0. *)
Definition replace_nbsp (s : pystr) : pystr :=
  map (fun c => if c =? 160 then 32 else c) s.

(** The character class [[ \t\f\v]]. *)
Definition re_hspace (c : Z) : bool :=
  (c =? 32) || (c =? 9) || (c =? 12) || (c =? 11).

(** [re.sub(r"[ \t\f\v]+", " ", s)]: each maximal run of the class is
    replaced by one space. [in_match] tells that the previous character
    belongs to a run whose replacement has been emitted already. *)
Fixpoint re_sub_hspace (in_match : bool) (s : pystr) : pystr :=
  match s with
  | [] => []
  | c :: s' =>
      if re_hspace c then
        if in_match then re_sub_hspace true s' else 32 :: re_sub_hspace true s'
      else c :: re_sub_hspace false s'
  end.

Definition normalize_text `{PyRuntime} (value : option pystr) : pystr :=
  str_lower (str_strip (re_sub_hspace false (replace_nbsp (seq_or value [])))).

(** ** Scoring *)

Definition clamp (value min_value max_value : float) : float :=
  if PrimFloat.is_nan value then min_value
  else py_max min_value (py_min max_value value).

Definition sigmoid `{PyRuntime} (x : float) : float :=
  if (0 <=? x)%float then
    let z := math_exp (- x)%float in (1 / (1 + z))%float
  else
    let z := math_exp x in (z / (1 + z))%float.

(** [None] is IndexError (a character of the window is missing) or
    ZeroDivisionError ([dim = 0]). *)
Definition hash_trigram (text : pystr) (start dim : Z) : option Z :=
  h ← for_each
        (fun h i =>
           c ← py_getitem text (start + i);
           Some (Z.land (Z.lxor h c * 16777619) 0xFFFFFFFF))
        (py_range 3) 2166136261;
  if dim =? 0 then None else Some (h mod dim).

(** The "thresholds" object of a model file. An entry is absent
    ([None]), present with the JSON value null ([Some None]), or a
    number. *)
Record Thresholds := {
  human_max : option (option float);
  ai_min : option (option float)
}.

(** The parameters a loaded model carries: [Logistic] when its "type" is
    "logistic_hash3", [NaiveBayes] for every other type string. *)
Inductive ModelParams :=
  | NaiveBayes (prior_logit : float) (delta : list float)
  | Logistic (bias : float) (weights : list float).

(** The dict returned by [load_model]. *)
Record Model := {
  m_name : pystr;
  m_dim : Z;
  m_max_chars : Z;
  m_thresholds : Thresholds;
  m_params : ModelParams
}.

(** [bucket_counts[idx] = bucket_counts.get(idx, 0) + 1] on a dict kept
    in insertion order. *)
Fixpoint bucket_incr (counts : list (Z * Z)) (idx : Z) : list (Z * Z) :=
  match counts with
  | [] => [(idx, 1)]
  | (k, n) :: rest =>
      if k =? idx then (k, n + 1) :: rest else (k, n) :: bucket_incr rest idx
  end.

Definition compute_score `{PyRuntime} (text : pystr) (model : Model) : option float :=
  let dim := Z.max 1 (m_dim model) in
  let max_chars := Z.max 200 (m_max_chars model) in
  let normalized := normalize_text (Some text) in
  if len normalized <? 3 then Some 0.5%float
  else
    let limit := Z.min (len normalized) max_chars in
    match m_params model with
    | Logistic bias weights =>
        let trigram_count := Z.max 1 (limit - 2) in
        bucket_counts ← for_each
          (fun counts i =>
             idx ← hash_trigram normalized i dim;
             Some (bucket_incr counts idx))
          (py_range (limit - 2)) [];
        logit ← for_each
          (fun logit '(idx, count) =>
             w ← py_getitem weights idx;
             Some (logit + w * (float_of_int count / float_of_int trigram_count))%float)
          bucket_counts bias;
        Some (sigmoid logit)
    | NaiveBayes prior delta =>
        logit ← for_each
          (fun logit i =>
             idx ← hash_trigram normalized i dim;
             d ← py_getitem delta idx;
             Some (logit + d)%float)
          (py_range (limit - 2)) prior;
        Some (sigmoid logit)
    end.

(** ** Language router *)

(** [JP_CHAR_RE]: Hiragana/Katakana U+3040..U+30FF, CJK U+4E00..U+9FFF. *)
Definition jp_char (c : Z) : bool :=
  ((0x3040 <=? c) && (c <=? 0x30ff)) || ((0x4e00 <=? c) && (c <=? 0x9fff)).

(** The float literal [0.03]. *)
Definition ratio_003 : float := 0x1.eb851eb851eb8p-6%float.

Definition is_likely_japanese_text (text : pystr) : bool :=
  let sample := take 2400 text in
  match sample with
  | [] => false
  | _ =>
      let jp_count := len (filter (fun c => jp_char c = true) sample) in
      if 40 <=? jp_count then true
      else (8 <=? jp_count) &&
           (ratio_003 <=? float_of_int jp_count / float_of_int (Z.max 1 (len sample)))%float
  end.

(** ** Three-way classifier *)

Definition predict_judge (score human_threshold ai_threshold : float) : string :=
  if (score <? human_threshold)%float then "Human"
  else if (score <? ai_threshold)%float then "Unknown"
  else "AI".

(** ** Model files *)

Inductive error :=
  | ValueError (msg : string)
  | TypeError
  | OSError
  | WorkerError.

(** The JSON object of a model file; [None] is an absent (or null) key. *)
Record RawModel := {
  r_name : option pystr;
  r_type : option pystr;
  r_dim : option Z;
  r_max_chars : option Z;
  r_thresholds : option Thresholds;
  r_prior_logit : option float;
  r_delta : option (list float);
  r_bias : option float;
  r_weights : option (list float)
}.

(** [read_json path] is [json.loads(path.read_text())]; [None] when the
    file cannot be read or parsed. *)
Definition load_model (read_json : string -> option RawModel) (path : string)
  : error + Model :=
  match read_json path with
  | None => inl OSError
  | Some raw =>
      let dim := int_or (r_dim raw) 0 in
      if dim <=? 0 then inl (ValueError "Invalid model: dim must be > 0")
      else
        let model_type := seq_or (r_type raw) (lit "naive_bayes_hash3") in
        let base := fun params =>
          {| m_name := seq_or (r_name raw) (lit "hash_model");
             m_dim := dim;
             m_max_chars := int_or (r_max_chars raw) 1200;
             m_thresholds :=
               default {| human_max := None; ai_min := None |} (r_thresholds raw);
             m_params := params |} in
        if str_eqb model_type (lit "logistic_hash3") then
          let weights := seq_or (r_weights raw) [] in
          if negb (len weights =? dim) then
            inl (ValueError "Invalid logistic model: weights length mismatch")
          else inr (base (Logistic (float_or (r_bias raw) 0) weights))
        else
          let delta := seq_or (r_delta raw) [] in
          if negb (len delta =? dim) then
            inl (ValueError "Invalid NB model: delta length mismatch")
          else inr (base (NaiveBayes (float_or (r_prior_logit raw) 0) delta))
  end.

(** ** Evaluation engine *)

(** [Counter]: a missing key reads as 0. *)
Definition counter_get `{Countable K} (c : gmap K Z) (k : K) : Z :=
  default 0 (c !! k).

(** [c[k] += v] *)
Definition counter_add `{Countable K} (c : gmap K Z) (k : K) (v : Z) : gmap K Z :=
  <[k := counter_get c k + v]> c.

Record EvalState := {
  st_total : Z;
  st_skipped : Z;
  st_strict_correct : Z;
  st_decided_rows : Z;
  st_decided_correct : Z;
  st_gt_counts : gmap string Z;
  st_pred_counts : gmap string Z;
  st_conf : gmap (string * string) Z;
  st_score_sum : float;
  st_jp_rows : Z;
  st_jp_strict_correct : Z;
  st_non_jp_rows : Z;
  st_non_jp_strict_correct : Z
}.

(** [EvalState(gt_counts=Counter(), pred_counts=Counter(), conf=Counter())] *)
Definition new_state : EvalState :=
  {| st_total := 0; st_skipped := 0; st_strict_correct := 0;
     st_decided_rows := 0; st_decided_correct := 0;
     st_gt_counts := ∅; st_pred_counts := ∅; st_conf := ∅;
     st_score_sum := 0%float;
     st_jp_rows := 0; st_jp_strict_correct := 0;
     st_non_jp_rows := 0; st_non_jp_strict_correct := 0 |}.

(** The dict returned by [evaluate_valid_rows]. *)
Record PartialResult := {
  p_total : Z;
  p_strict_correct : Z;
  p_decided_rows : Z;
  p_decided_correct : Z;
  p_score_sum : float;
  p_gt_ai : Z;
  p_gt_human : Z;
  p_pred_ai : Z;
  p_pred_human : Z;
  p_pred_unknown : Z;
  p_ai_ai : Z;
  p_ai_human : Z;
  p_ai_unknown : Z;
  p_human_ai : Z;
  p_human_human : Z;
  p_human_unknown : Z;
  p_jp_rows : Z;
  p_jp_strict_correct : Z;
  p_non_jp_rows : Z;
  p_non_jp_strict_correct : Z
}.

(** The module globals set by [init_worker]. *)
Record WorkerGlobals := {
  WORKER_MODEL : option Model;
  WORKER_MODEL_JA : option Model
}.

Definition no_globals : WorkerGlobals :=
  {| WORKER_MODEL := None; WORKER_MODEL_JA := None |}.

Definition init_worker (model : Model) (model_ja : option Model) : WorkerGlobals :=
  {| WORKER_MODEL := Some model; WORKER_MODEL_JA := model_ja |}.

(** [if cond: n += 1] *)
Definition incr_if (cond : bool) (n : Z) : Z := if cond then n + 1 else n.

(** The local counters of [evaluate_valid_rows] before its loop. *)
Definition zero_result : PartialResult :=
  {| p_total := 0; p_strict_correct := 0; p_decided_rows := 0;
     p_decided_correct := 0; p_score_sum := 0%float;
     p_gt_ai := 0; p_gt_human := 0;
     p_pred_ai := 0; p_pred_human := 0; p_pred_unknown := 0;
     p_ai_ai := 0; p_ai_human := 0; p_ai_unknown := 0;
     p_human_ai := 0; p_human_human := 0; p_human_unknown := 0;
     p_jp_rows := 0; p_jp_strict_correct := 0;
     p_non_jp_rows := 0; p_non_jp_strict_correct := 0 |}.

(** The counters after a row that is [is_japanese], has ground truth
    [gt], was scored [score] and classified [pred]. *)
Definition count_row (acc : PartialResult) (gt : string) (is_japanese : bool)
    (score : float) (pred : string) : PartialResult :=
  let hit := bool_decide (pred = gt) in
  let decided := negb (bool_decide (pred = "Unknown")) in
  let gt_ai := bool_decide (gt = "AI") in
  let is_ai := bool_decide (pred = "AI") in
  let is_human := negb is_ai && bool_decide (pred = "Human") in
  let is_unknown := negb is_ai && negb is_human in
  {| p_total := p_total acc + 1;
     p_strict_correct := incr_if hit (p_strict_correct acc);
     p_decided_rows := incr_if decided (p_decided_rows acc);
     p_decided_correct := incr_if (decided && hit) (p_decided_correct acc);
     p_score_sum := (p_score_sum acc + score)%float;
     p_gt_ai := incr_if gt_ai (p_gt_ai acc);
     p_gt_human := incr_if (negb gt_ai) (p_gt_human acc);
     p_pred_ai := incr_if is_ai (p_pred_ai acc);
     p_pred_human := incr_if is_human (p_pred_human acc);
     p_pred_unknown := incr_if is_unknown (p_pred_unknown acc);
     p_ai_ai := incr_if (gt_ai && is_ai) (p_ai_ai acc);
     p_ai_human := incr_if (gt_ai && is_human) (p_ai_human acc);
     p_ai_unknown := incr_if (gt_ai && is_unknown) (p_ai_unknown acc);
     p_human_ai := incr_if (negb gt_ai && is_ai) (p_human_ai acc);
     p_human_human := incr_if (negb gt_ai && is_human) (p_human_human acc);
     p_human_unknown := incr_if (negb gt_ai && is_unknown) (p_human_unknown acc);
     p_jp_rows := incr_if is_japanese (p_jp_rows acc);
     p_jp_strict_correct := incr_if (is_japanese && hit) (p_jp_strict_correct acc);
     p_non_jp_rows := incr_if (negb is_japanese) (p_non_jp_rows acc);
     p_non_jp_strict_correct :=
       incr_if (negb is_japanese && hit) (p_non_jp_strict_correct acc) |}.

(** One iteration of the loop of [evaluate_valid_rows]. *)
Definition eval_row `{PyRuntime} (actual_model : Model) (actual_model_ja : option Model)
    (human_threshold ai_threshold : float)
    (human_threshold_ja ai_threshold_ja : option float)
    (acc : PartialResult) (row : string * pystr) : option PartialResult :=
  let '(gt, text) := row in
  let is_japanese := is_likely_japanese_text text in
  let '(row_model, row_human_threshold, row_ai_threshold) :=
    match actual_model_ja with
    | Some ja =>
        if is_japanese then
          (ja, default human_threshold human_threshold_ja,
               default ai_threshold ai_threshold_ja)
        else (actual_model, human_threshold, ai_threshold)
    | None => (actual_model, human_threshold, ai_threshold)
    end in
  score ← compute_score text row_model;
  let pred := predict_judge score row_human_threshold row_ai_threshold in
  Some (count_row acc gt is_japanese score pred).

(** [None] is the RuntimeError of a missing model or an exception of
    [compute_score]. *)
Definition evaluate_valid_rows `{PyRuntime} (globals : WorkerGlobals)
    (rows : list (string * pystr))
    (human_threshold ai_threshold : float)
    (model model_ja : option Model)
    (human_threshold_ja ai_threshold_ja : option float) : option PartialResult :=
  let actual_model :=
    match model with Some m => Some m | None => WORKER_MODEL globals end in
  let actual_model_ja :=
    match model_ja with Some m => Some m | None => WORKER_MODEL_JA globals end in
  match actual_model with
  | None => None
  | Some actual =>
      for_each
        (eval_row actual actual_model_ja human_threshold ai_threshold
                  human_threshold_ja ai_threshold_ja)
        rows zero_result
  end.

Definition merge_partial_result (state : EvalState) (part : PartialResult) : EvalState :=
  {| st_total := st_total state + p_total part;
     st_skipped := st_skipped state;
     st_strict_correct := st_strict_correct state + p_strict_correct part;
     st_decided_rows := st_decided_rows state + p_decided_rows part;
     st_decided_correct := st_decided_correct state + p_decided_correct part;
     st_gt_counts :=
       counter_add (counter_add (st_gt_counts state) "AI" (p_gt_ai part))
                   "Human" (p_gt_human part);
     st_pred_counts :=
       counter_add
         (counter_add (counter_add (st_pred_counts state) "AI" (p_pred_ai part))
                      "Human" (p_pred_human part))
         "Unknown" (p_pred_unknown part);
     st_conf :=
       counter_add
         (counter_add
            (counter_add
               (counter_add
                  (counter_add
                     (counter_add (st_conf state) ("AI", "AI") (p_ai_ai part))
                     ("AI", "Human") (p_ai_human part))
                  ("AI", "Unknown") (p_ai_unknown part))
               ("Human", "AI") (p_human_ai part))
            ("Human", "Human") (p_human_human part))
         ("Human", "Unknown") (p_human_unknown part);
     st_score_sum := (st_score_sum state + p_score_sum part)%float;
     st_jp_rows := st_jp_rows state + p_jp_rows part;
     st_jp_strict_correct := st_jp_strict_correct state + p_jp_strict_correct part;
     st_non_jp_rows := st_non_jp_rows state + p_non_jp_rows part;
     st_non_jp_strict_correct :=
       st_non_jp_strict_correct state + p_non_jp_strict_correct part |}.

(** A dataset row as [batch.to_pylist()] yields it; [None] is a null. *)
Record Row := {
  row_text : option pystr;
  row_label : option pystr
}.

(** The loop of [select_valid_rows], with its three locals; the boolean
    of the result is [stop]. *)
Fixpoint select_loop `{PyRuntime} (rows : list Row) (max_rows : Z)
    (valid_rows : list (string * pystr)) (accepted_rows skipped : Z)
  : list (string * pystr) * Z * Z * bool :=
  match rows with
  | [] => (valid_rows, accepted_rows, skipped, false)
  | row :: rest =>
      let gt_raw := str_lower (str_strip (seq_or (row_label row) [])) in
      if negb (str_eqb gt_raw (lit "ai") || str_eqb gt_raw (lit "human")) then
        select_loop rest max_rows valid_rows accepted_rows (skipped + 1)
      else
        let gt := if str_eqb gt_raw (lit "ai") then "AI" else "Human" in
        let text := seq_or (row_text row) [] in
        match normalize_text (Some text) with
        | [] => select_loop rest max_rows valid_rows accepted_rows (skipped + 1)
        | _ =>
            let valid_rows := valid_rows ++ [(gt, text)] in
            let accepted_rows := accepted_rows + 1 in
            if (0 <? max_rows) && (max_rows <=? accepted_rows) then
              (valid_rows, accepted_rows, skipped, true)
            else select_loop rest max_rows valid_rows accepted_rows skipped
        end
  end.

Definition select_valid_rows `{PyRuntime} (rows : list Row) (max_rows accepted_rows : Z)
  : list (string * pystr) * Z * Z * bool :=
  select_loop rows max_rows [] accepted_rows 0.

(** ** The two execution modes of [run_evaluation] *)

Section Evaluation.
Context `{PyRuntime}.
Variables (model : Model) (model_ja : option Model).
Variables (human_threshold ai_threshold : float).
Variables (human_threshold_ja ai_threshold_ja : float).
Variable max_rows : Z.

(** [state.skipped += skipped] *)
Definition add_skipped (state : EvalState) (skipped : Z) : EvalState :=
  {| st_total := st_total state;
     st_skipped := st_skipped state + skipped;
     st_strict_correct := st_strict_correct state;
     st_decided_rows := st_decided_rows state;
     st_decided_correct := st_decided_correct state;
     st_gt_counts := st_gt_counts state;
     st_pred_counts := st_pred_counts state;
     st_conf := st_conf state;
     st_score_sum := st_score_sum state;
     st_jp_rows := st_jp_rows state;
     st_jp_strict_correct := st_jp_strict_correct state;
     st_non_jp_rows := st_non_jp_rows state;
     st_non_jp_strict_correct := st_non_jp_strict_correct state |}.

(** The loop of the branch [worker_count == 1]: every batch is
    filtered, scored and merged before the next one is read. *)
Fixpoint run_sequential (batches : list (list Row)) (state : EvalState)
    (accepted_rows : Z) : option EvalState :=
  match batches with
  | [] => Some state
  | rows :: rest =>
      let '(valid_rows, accepted_rows, skipped, should_stop) :=
        select_valid_rows rows max_rows accepted_rows in
      let state := add_skipped state skipped in
      state ← match valid_rows with
              | [] => Some state
              | _ =>
                  part ← evaluate_valid_rows no_globals valid_rows
                         human_threshold ai_threshold (Some model) model_ja
                         (Some human_threshold_ja) (Some ai_threshold_ja);
                  Some (merge_partial_result state part)
              end;
      if should_stop then Some state
      else run_sequential rest state accepted_rows
  end.

(** The order in which the tasks of the pool complete is not fixed by
    the program. A [Schedule] resolves it: at the [n]-th call of
    [concurrent.futures.wait] the futures at positions
    [wait_first n] of the pending list (reduced modulo its length,
    each taken out before the next is looked up) are the completed
    ones, in the order the loop over [done] visits them; and
    [completion k] is the position of the [k]-th future that
    [as_completed] yields. *)
Record Schedule := {
  wait_first : nat -> nat * list nat;
  completion : nat -> nat
}.

Definition extract {A} (i : nat) (pending : list A) : option (A * list A) :=
  let j := (i `mod` length pending)%nat in
  x ← pending !! j; Some (x, delete j pending).

Fixpoint take_done {A} (positions : list nat) (pending : list A) : list A * list A :=
  match positions with
  | [] => ([], pending)
  | i :: positions' =>
      match extract i pending with
      | None => ([], pending)
      | Some (x, rest) =>
          let '(done, not_done) := take_done positions' rest in
          (x :: done, not_done)
      end
  end.

Fixpoint as_completed_from {A} (order : nat -> nat) (k fuel : nat) (pending : list A)
  : list A :=
  match fuel with
  | O => []
  | S fuel' =>
      match extract (order k) pending with
      | None => []
      | Some (x, rest) => x :: as_completed_from order (S k) fuel' rest
      end
  end.

Definition as_completed {A} (sched : Schedule) (pending : list A) : list A :=
  as_completed_from (completion sched) 0 (length pending) pending.

(** [for fut in futures: merge_partial_result(state, fut.result())];
    a future holds the result of its task, [None] if the task raised. *)
Definition merge_results (state : EvalState) (futures : list (option PartialResult))
  : option EvalState :=
  for_each (fun st fut => part ← fut; Some (merge_partial_result st part))
           futures state.

(** The loop of the branch with a process pool; [waits] counts the
    calls of [wait] so far. *)
Fixpoint run_parallel (sched : Schedule) (max_inflight : Z)
    (batches : list (list Row)) (state : EvalState) (accepted_rows : Z)
    (pending : list (option PartialResult)) (waits : nat) : option EvalState :=
  match batches with
  | [] => merge_results state (as_completed sched pending)
  | rows :: rest =>
      let '(valid_rows, accepted_rows, skipped, should_stop) :=
        select_valid_rows rows max_rows accepted_rows in
      let state := add_skipped state skipped in
      let pending :=
        match valid_rows with
        | [] => pending
        | _ =>
            pending ++
            [evaluate_valid_rows (init_worker model model_ja) valid_rows
               human_threshold ai_threshold None None
               (Some human_threshold_ja) (Some ai_threshold_ja)]
        end in
      '(state, pending, waits) ←
        (if max_inflight <=? len pending then
           let '(i, more) := wait_first sched waits in
           let '(done, not_done) := take_done (i :: more) pending in
           state ← merge_results state done;
           Some (state, not_done, S waits)
         else Some (state, pending, waits));
      if should_stop then merge_results state (as_completed sched pending)
      else run_parallel sched max_inflight rest state accepted_rows pending waits
  end.

(** The accumulator [state] of [run_evaluation] when its loops are
    over; [batches] is what [pf.iter_batches] yields. *)
Definition evaluation_state (sched : Schedule) (batches : list (list Row))
    (workers : Z) : option EvalState :=
  let worker_count := Z.max 1 workers in
  if worker_count =? 1 then run_sequential batches new_state 0
  else
    let max_inflight := Z.max 2 (worker_count * 3) in
    run_parallel sched max_inflight batches new_state 0 [] 0.
End Evaluation.

(** The integer entries of the summary dict; its ratios (accuracy,
    coverage, precision, recall, F1, average score) are quotients of
    these, rounded for display, and the remaining entries echo the
    arguments. *)
Record Summary := {
  s_max_rows : Z;
  s_processed_rows : Z;
  s_skipped_rows : Z;
  s_jp_rows : Z;
  s_non_jp_rows : Z;
  s_ground_truth_counts : gmap string Z;
  s_prediction_counts : gmap string Z;
  s_confusion_matrix : list (string * Z)
}.

Definition summary_of (max_rows : Z) (state : EvalState) : Summary :=
  {| s_max_rows := max_rows;
     s_processed_rows := st_total state;
     s_skipped_rows := st_skipped state;
     s_jp_rows := st_jp_rows state;
     s_non_jp_rows := st_non_jp_rows state;
     s_ground_truth_counts := st_gt_counts state;
     s_prediction_counts := st_pred_counts state;
     s_confusion_matrix :=
       [("AI->AI", counter_get (st_conf state) ("AI", "AI"));
        ("AI->Human", counter_get (st_conf state) ("AI", "Human"));
        ("AI->Unknown", counter_get (st_conf state) ("AI", "Unknown"));
        ("Human->AI", counter_get (st_conf state) ("Human", "AI"));
        ("Human->Human", counter_get (st_conf state) ("Human", "Human"));
        ("Human->Unknown", counter_get (st_conf state) ("Human", "Unknown"))] |}.

Definition run_evaluation `{PyRuntime} (sched : Schedule) (batches : list (list Row))
    (model : Model) (model_ja : option Model)
    (human_threshold ai_threshold human_threshold_ja ai_threshold_ja : float)
    (max_rows workers : Z) : option Summary :=
  state ← evaluation_state model model_ja human_threshold ai_threshold
            human_threshold_ja ai_threshold_ja max_rows sched batches workers;
  Some (summary_of max_rows state).

(** ** The command line *)

Record Args := {
  a_input : string;
  a_model : string;
  a_model_ja : string;
  a_human_threshold : float;
  a_ai_threshold : float;
  a_human_threshold_ja : float;
  a_ai_threshold_ja : float;
  a_max_rows : Z;
  a_output : string;
  a_workers : Z
}.

(** What a run finds outside the process: the JSON files, the batches
    of the parquet files, the completion order of the pool, and whether
    the directory of an output path can be made, the file at a path
    written, and the [n]-th line printed. *)
Record Env := {
  read_json : string -> option RawModel;
  read_parquet : string -> option (list (list Row));
  pool_schedule : Schedule;
  mkdir_ok : string -> bool;
  write_ok : string -> bool;
  print_ok : nat -> bool
}.

(** The calls a run makes to the outside, in order: reading a model
    file, opening the dataset, [Path(path).parent.mkdir(parents=True,
    exist_ok=True)], [Path(path).write_text] of the summary, [print] of
    the summary, and [print] of the line [summary=<path>]. A call is
    logged when it is made, whether it returns or raises. *)
Inductive event :=
  | ReadModel (path : string)
  | ReadDataset (path : string)
  | MakeParentDirs (path : string)
  | WriteSummary (path : string) (summary : Summary)
  | PrintSummary (summary : Summary)
  | PrintPath (path : string).

(** A computation that logs events and returns or raises. *)
Definition IO (A : Type) : Type := list event * (error + A).

Definition io_raise {A} (e : error) : IO A := ([], inl e).
Definition io_emit (ev : event) : IO unit := ([ev], inr tt).

(** A call that raises OSError unless the outside lets it through. *)
Definition io_call (ev : event) (ok : bool) : IO unit :=
  ([ev], if ok then inr tt else inl OSError).
Definition io_lift {A} (r : error + A) : IO A := ([], r).

#[global] Instance io_ret : MRet IO := fun A x => ([], inr x).
#[global] Instance io_bind : MBind IO := fun A B k m =>
  match m with
  | (log, inl e) => (log, inl e)
  | (log, inr x) => let '(log', r) := k x in (log ++ log', r)
  end.

Definition DEFAULT_HUMAN_THRESHOLD : float := 0x1.ccccccccccccdp-2%float.
Definition DEFAULT_AI_THRESHOLD : float := 0x1.199999999999ap-1%float.

Definition load_model_io (env : Env) (path : string) : IO Model :=
  io_emit (ReadModel path);; io_lift (load_model (read_json env) path).

(** [float(thresholds.get(key, default))]: the default for an absent
    key, TypeError for a null. *)
Definition threshold_or (entry : option (option float)) (d : float) : error + float :=
  match entry with
  | None => inr d
  | Some None => inl TypeError
  | Some (Some x) => inr x
  end.

(** The two thresholds in force for [model]: the command-line value
    when it is not negative, the model's own (or the default) otherwise,
    each clamped to [0, 1]. The model's two entries are converted
    first, whatever the command line says, so a null entry raises. *)
Definition effective_thresholds (model : Model) (arg_human arg_ai : float)
  : error + (float * float) :=
  match threshold_or (human_max (m_thresholds model)) DEFAULT_HUMAN_THRESHOLD with
  | inl e => inl e
  | inr model_human =>
      match threshold_or (ai_min (m_thresholds model)) DEFAULT_AI_THRESHOLD with
      | inl e => inl e
      | inr model_ai =>
          inr (if (arg_human <? 0)%float then clamp model_human 0 1
               else clamp arg_human 0 1,
               if (arg_ai <? 0)%float then clamp model_ai 0 1
               else clamp arg_ai 0 1)
      end
  end.

Definition read_dataset (env : Env) (path : string) : IO (list (list Row)) :=
  io_emit (ReadDataset path);;
  io_lift (match read_parquet env path with
           | Some batches => inr batches
           | None => inl OSError
           end).

Definition main `{PyRuntime} (env : Env) (args : Args) : IO Summary :=
  model ← load_model_io env (a_model args);
  model_ja ← (if String.eqb (a_model_ja args) ""
              then mret None
              else m ← load_model_io env (a_model_ja args); mret (Some m));
  '(human_threshold, ai_threshold) ←
    io_lift (effective_thresholds model (a_human_threshold args) (a_ai_threshold args));
  if (ai_threshold <=? human_threshold)%float then
    io_raise (ValueError "--ai-threshold must be greater than --human-threshold")
  else
    '(human_threshold_ja, ai_threshold_ja) ←
      match model_ja with
      | None => mret (human_threshold, ai_threshold)
      | Some ja =>
          '(human_threshold_ja, ai_threshold_ja) ←
            io_lift (effective_thresholds ja (a_human_threshold_ja args)
                                          (a_ai_threshold_ja args));
          if (ai_threshold_ja <=? human_threshold_ja)%float then
            io_raise
              (ValueError "--ai-threshold-ja must be greater than --human-threshold-ja")
          else mret (human_threshold_ja, ai_threshold_ja)
      end;
    batches ← read_dataset env (a_input args);
    result ← io_lift
      (match run_evaluation (pool_schedule env) batches model model_ja
               human_threshold ai_threshold human_threshold_ja ai_threshold_ja
               (Z.max 0 (a_max_rows args)) (Z.max 1 (a_workers args)) with
       | Some r => inr r
       | None => inl WorkerError
       end);
    io_call (MakeParentDirs (a_output args)) (mkdir_ok env (a_output args));;
    io_call (WriteSummary (a_output args) result) (write_ok env (a_output args));;
    io_call (PrintSummary result) (print_ok env 0);;
    io_call (PrintPath (a_output args)) (print_ok env 1);;
    mret result.

(** ** Reference definitions, in the words of the specification *)

(** The 32-bit FNV-1a hash of a sequence of characters: start from the
    offset basis; for each character, XOR it in, then multiply by the
    FNV prime and keep the low 32 bits. *)
Definition fnv1a32 (chars : list Z) : Z :=
  fold_left (fun h c => (Z.lxor h c * 16777619) mod 2 ^ 32) chars 2166136261.

(** [s] without the run of the class [ws] it starts with. *)
Fixpoint drop_run (ws : Z -> bool) (s : pystr) : pystr :=
  match s with
  | [] => []
  | c :: s' => if ws c then drop_run ws s' else s
  end.

(** Every maximal run of characters of the class [ws] becomes one
    ASCII space: a character of the class is dropped when the run goes
    on after it, and turned into the space when it ends the run. *)
Fixpoint squeeze (ws : Z -> bool) (s : pystr) : pystr :=
  match s with
  | [] => []
  | c :: s' =>
      if ws c then
        match s' with
        | d :: _ => if ws d then squeeze ws s' else 32 :: squeeze ws s'
        | [] => [32]
        end
      else c :: squeeze ws s'
  end.

(** The normalizer as section 4.1 words it: lower case, every run of
    whitespace (the non-breaking space included) collapsed to one
    space, leading and trailing whitespace trimmed. *)
Definition normalize_stated `{PyRuntime} (value : option pystr) : pystr :=
  str_lower (str_strip (squeeze py_isspace (seq_or value []))).

(** Horizontal blanks: space, tab, form feed, vertical tab, and the
    non-breaking space. *)
Definition blank (c : Z) : bool := re_hspace c || (c =? 160).

(** The same with runs of horizontal blanks only. *)
Definition normalize_blanks `{PyRuntime} (value : option pystr) : pystr :=
  str_lower (str_strip (squeeze blank (seq_or value []))).

(** What the idempotence of the normalizer needs of [str.lower]: it
    maps the empty string to itself, is idempotent, leaves every
    whitespace character in place and lower-cases the text on either
    side of it separately, and maps a non-empty string without
    whitespace to another one. *)
Record LowerLaws (lower : pystr -> pystr) : Prop := {
  lower_nil : lower [] = [];
  lower_idem : forall s, lower (lower s) = lower s;
  lower_space : forall a c b,
    py_isspace c = true -> lower (a ++ c :: b) = lower a ++ c :: lower b;
  lower_word : forall w,
    w <> [] -> Forall (fun c => py_isspace c = false) w ->
    lower w <> [] /\ Forall (fun c => py_isspace c = false) (lower w)
}.

(** The bucket of the trigram window that starts at offset [i]. *)
Definition trigram_bucket (normalized : pystr) (i dim : Z) : Z :=
  fnv1a32 (take 3 (drop (Z.to_nat i) normalized)) mod dim.

Definition delta_at (delta : list float) (idx : Z) : float :=
  default 0%float (delta !! Z.to_nat idx).

(** The additive score over the windows inside the first [cap]
    characters: 0.5 for a text too short to have a trigram, else the
    sigmoid of [prior] plus [delta[bucket]] for every window start in
    [0, min(len, cap) - 2), repeated trigrams counted each time. *)
Definition nb_score_upto `{PyRuntime} (cap : Z) (prior : float) (delta : list float)
    (dim : Z) (text : pystr) : float :=
  let normalized := normalize_text (Some text) in
  if len normalized <? 3 then 0.5%float
  else
    sigmoid
      (fold_left
         (fun logit i => (logit + delta_at delta (trigram_bucket normalized i dim))%float)
         (py_range (Z.min (len normalized) cap - 2)) prior).

(** Human < Unknown < AI. *)
Definition judge_rank (judge : string) : Z :=
  if String.eqb judge "Human" then 0
  else if String.eqb judge "Unknown" then 1
  else 2.

(** ** Rows and models *)

(** A model as [load_model] accepts it: a positive [dim] and as many
    parameters. *)
Definition model_ok (model : Model) : Prop :=
  0 < m_dim model /\
  match m_params model with
  | NaiveBayes _ delta => len delta = m_dim model
  | Logistic _ weights => len weights = m_dim model
  end.

(** The label of a row, trimmed and lower-cased. *)
Definition label_of `{PyRuntime} (row : Row) : pystr :=
  str_lower (str_strip (seq_or (row_label row) [])).

(** A row is skipped when its label is neither "ai" nor "human" or its
    normalized text is empty. *)
Definition is_skipped `{PyRuntime} (row : Row) : bool :=
  negb (str_eqb (label_of row) (lit "ai") || str_eqb (label_of row) (lit "human"))
  || match normalize_text (Some (seq_or (row_text row) [])) with
     | [] => true
     | _ => false
     end.

(** What a valid row becomes: its canonical label and its raw text. *)
Definition entry `{PyRuntime} (row : Row) : string * pystr :=
  (if str_eqb (label_of row) (lit "ai") then "AI"%string else "Human"%string,
   seq_or (row_text row) []).

(** The number of valid rows of a stream. *)
Definition valid_count `{PyRuntime} (stream : list Row) : Z :=
  len (filter (fun row => is_skipped row = false) stream).

(** The prefix of a stream that ends with its [k]-th valid row (the
    whole stream when it has fewer). *)
Fixpoint upto_valid `{PyRuntime} (k : nat) (stream : list Row) {struct stream}
  : list Row :=
  match stream with
  | [] => []
  | row :: rest =>
      match k with
      | O => []
      | S k' =>
          if is_skipped row then row :: upto_valid k rest
          else row :: upto_valid k' rest
      end
  end.

(** ** Fatal configurations *)

Definition raw_dim (raw : RawModel) : Z := int_or (r_dim raw) 0.

(** The parameter array of a model file: [weights] when its type is
    "logistic_hash3", [delta] otherwise. *)
Definition raw_params (raw : RawModel) : list float :=
  if str_eqb (seq_or (r_type raw) (lit "naive_bayes_hash3")) (lit "logistic_hash3")
  then seq_or (r_weights raw) []
  else seq_or (r_delta raw) [].

(** [dim <= 0], or a parameter array whose length is not [dim]. *)
Definition invalid_model (raw : RawModel) : Prop :=
  raw_dim raw <= 0 \/ len (raw_params raw) <> raw_dim raw.

(** [ai_min <= human_max] for the thresholds in force. *)
Definition thresholds_crossed (model : Model) (arg_human arg_ai : float) : Prop :=
  exists human ai,
    effective_thresholds model arg_human arg_ai = inr (human, ai) /\
    (ai <=? human)%float = true.

(** The configurations section 7 calls fatal: the primary model, or the
    secondary one when its path is given, is invalid or loads with
    crossed thresholds. *)
Definition fatal_configuration (env : Env) (args : Args) : Prop :=
  (exists raw, read_json env (a_model args) = Some raw /\ invalid_model raw) \/
  (a_model_ja args <> ""%string /\
   exists raw, read_json env (a_model_ja args) = Some raw /\ invalid_model raw) \/
  (exists m, load_model (read_json env) (a_model args) = inr m /\
             thresholds_crossed m (a_human_threshold args) (a_ai_threshold args)) \/
  (a_model_ja args <> ""%string /\
   exists m, load_model (read_json env) (a_model_ja args) = inr m /\
             thresholds_crossed m (a_human_threshold_ja args) (a_ai_threshold_ja args)).

Definition is_model_read (ev : event) : Prop :=
  match ev with
  | ReadModel _ => True
  | _ => False
  end.

(** ** Counters *)

(** The accumulator read as a dict of the shape of a partial result:
    the counts of its three [Counter]s under their keys. *)
Definition state_view (state : EvalState) : PartialResult :=
  {| p_total := st_total state;
     p_strict_correct := st_strict_correct state;
     p_decided_rows := st_decided_rows state;
     p_decided_correct := st_decided_correct state;
     p_score_sum := st_score_sum state;
     p_gt_ai := counter_get (st_gt_counts state) "AI";
     p_gt_human := counter_get (st_gt_counts state) "Human";
     p_pred_ai := counter_get (st_pred_counts state) "AI";
     p_pred_human := counter_get (st_pred_counts state) "Human";
     p_pred_unknown := counter_get (st_pred_counts state) "Unknown";
     p_ai_ai := counter_get (st_conf state) ("AI", "AI");
     p_ai_human := counter_get (st_conf state) ("AI", "Human");
     p_ai_unknown := counter_get (st_conf state) ("AI", "Unknown");
     p_human_ai := counter_get (st_conf state) ("Human", "AI");
     p_human_human := counter_get (st_conf state) ("Human", "Human");
     p_human_unknown := counter_get (st_conf state) ("Human", "Unknown");
     p_jp_rows := st_jp_rows state;
     p_jp_strict_correct := st_jp_strict_correct state;
     p_non_jp_rows := st_non_jp_rows state;
     p_non_jp_strict_correct := st_non_jp_strict_correct state |}.

(** Pairwise addition of every field. *)
Definition pr_add (a b : PartialResult) : PartialResult :=
  {| p_total := p_total a + p_total b;
     p_strict_correct := p_strict_correct a + p_strict_correct b;
     p_decided_rows := p_decided_rows a + p_decided_rows b;
     p_decided_correct := p_decided_correct a + p_decided_correct b;
     p_score_sum := (p_score_sum a + p_score_sum b)%float;
     p_gt_ai := p_gt_ai a + p_gt_ai b;
     p_gt_human := p_gt_human a + p_gt_human b;
     p_pred_ai := p_pred_ai a + p_pred_ai b;
     p_pred_human := p_pred_human a + p_pred_human b;
     p_pred_unknown := p_pred_unknown a + p_pred_unknown b;
     p_ai_ai := p_ai_ai a + p_ai_ai b;
     p_ai_human := p_ai_human a + p_ai_human b;
     p_ai_unknown := p_ai_unknown a + p_ai_unknown b;
     p_human_ai := p_human_ai a + p_human_ai b;
     p_human_human := p_human_human a + p_human_human b;
     p_human_unknown := p_human_unknown a + p_human_unknown b;
     p_jp_rows := p_jp_rows a + p_jp_rows b;
     p_jp_strict_correct := p_jp_strict_correct a + p_jp_strict_correct b;
     p_non_jp_rows := p_non_jp_rows a + p_non_jp_rows b;
     p_non_jp_strict_correct := p_non_jp_strict_correct a + p_non_jp_strict_correct b |}.

(** The nineteen integer counters of a partial result, in the order of
    its dict ([score_sum], the one float, is left out). *)
Definition counters (p : PartialResult) : list Z :=
  [p_total p; p_strict_correct p; p_decided_rows p; p_decided_correct p;
   p_gt_ai p; p_gt_human p; p_pred_ai p; p_pred_human p; p_pred_unknown p;
   p_ai_ai p; p_ai_human p; p_ai_unknown p;
   p_human_ai p; p_human_human p; p_human_unknown p;
   p_jp_rows p; p_jp_strict_correct p; p_non_jp_rows p; p_non_jp_strict_correct p].

Definition vadd (a b : list Z) : list Z := zip_with Z.add a b.

(** The consistency of the counters with one another. *)
Definition consistent (p : PartialResult) : Prop :=
  p_total p = p_gt_ai p + p_gt_human p /\
  p_total p = p_pred_ai p + p_pred_human p + p_pred_unknown p /\
  p_total p = p_ai_ai p + p_ai_human p + p_ai_unknown p
              + p_human_ai p + p_human_human p + p_human_unknown p /\
  p_total p = p_jp_rows p + p_non_jp_rows p /\
  p_decided_rows p = p_pred_ai p + p_pred_human p /\
  p_decided_correct p <= p_decided_rows p /\
  p_decided_rows p <= p_total p /\
  p_strict_correct p = p_jp_strict_correct p + p_non_jp_strict_correct p /\
  p_strict_correct p <= p_total p.

(** ** Shapes of normalized text *)

(** Strings without whitespace, and strings of whitespace only. *)
Abbreviation wsfree := (Forall (fun c => py_isspace c = false)).
Abbreviation allspace := (Forall (fun c => py_isspace c = true)).

(** The normalizer before lower-casing. *)
Definition scrub (s : pystr) : pystr :=
  str_strip (re_sub_hspace false (replace_nbsp s)).

(** No character of the class [[ \t\f\v]] but single spaces:
    [after_blank] tells that the text follows such a character. *)
Fixpoint tidy (after_blank : bool) (s : pystr) : bool :=
  match s with
  | [] => true
  | c :: s' =>
      if re_hspace c then (c =? 32) && negb after_blank && tidy true s'
      else tidy false s'
  end.

(** ** The order of binary64 values

    Away from NaN a binary64 value is placed by its sign class, then its
    exponent, then its mantissa; [sf_key] is that position and [key_lt]
    the (lexicographic) order of positions. *)
Definition sf_key (f : spec_float) : Z * Z * Z :=
  match f with
  | S754_nan => (0, 0, 0)
  | S754_zero _ => (0, 0, 0)
  | S754_infinity true => (-2, 0, 0)
  | S754_infinity false => (2, 0, 0)
  | S754_finite true m e => (-1, - e, - Z.pos m)
  | S754_finite false m e => (1, e, Z.pos m)
  end.

Definition key_lt (k1 k2 : Z * Z * Z) : Prop :=
  k1.1.1 < k2.1.1 \/
  (k1.1.1 = k2.1.1 /\ (k1.1.2 < k2.1.2 \/ (k1.1.2 = k2.1.2 /\ k1.2 < k2.2))).

Definition sf_nan (f : spec_float) : bool :=
  match f with S754_nan => true | _ => false end.

(** ** A runtime for worked examples

    [str.lower] restricted to ASCII letters, which is what it does on
    the ASCII strings of the examples, and [math.exp] at the arguments
    the examples reach: exp(+-0) = 1 and exp(-38.0), whose binary64
    value is 0x1.2188ad6ae3303p-55. Elsewhere the table has no entry
    and answers NaN. *)
Definition ascii_lower (s : pystr) : pystr :=
  map (fun c => if (65 <=? c) && (c <=? 90) then c + 32 else c) s.

Definition exp_table (x : float) : float :=
  if (x =? 0)%float then 1%float
  else if (x =? -38)%float then 0x1.2188ad6ae3303p-55%float
  else nan.

Definition example_runtime : PyRuntime :=
  {| str_lower := ascii_lower; math_exp := exp_table |}.

(** A one-bucket naive-Bayes model whose logit is -38 on every text
    with a trigram, two rows for it, and its evaluation with the
    default thresholds: ["ab"] is too short and scores 0.5, ["abc"]
    scores exp(-38)/(1 + exp(-38)) = exp(-38). *)
Definition tiny_model : Model :=
  {| m_name := lit "tiny";
     m_dim := 1;
     m_max_chars := 1200;
     m_thresholds := {| human_max := None; ai_min := None |};
     m_params := NaiveBayes (-38) [0%float] |}.

Definition row_short : string * pystr := ("Human", lit "ab").
Definition row_low : string * pystr := ("Human", lit "abc").

Definition evaluate_example (rows : list (string * pystr)) : option PartialResult :=
  @evaluate_valid_rows example_runtime no_globals rows
    DEFAULT_HUMAN_THRESHOLD DEFAULT_AI_THRESHOLD (Some tiny_model) None None None.

(** The three example rows evaluated by a single worker. *)
Definition whole_example : PartialResult :=
  Eval vm_compute in
    default zero_result (evaluate_example [row_short; row_low; row_low]).

(** A small dataset in two batches (three valid rows, one skipped in
    each batch) and a schedule in which the oldest pending task always
    completes first. *)
Definition sample_row (label text : string) : Row :=
  {| row_text := Some (lit text); row_label := Some (lit label) |}.

Definition sample_batches : list (list Row) :=
  [[sample_row "human" "ab"; sample_row "x" "abc"];
   [sample_row " AI " "abc"; sample_row "ai" "   "; sample_row "Human" "abc"]].

Definition oldest_first : Schedule :=
  {| wait_first := fun _ => (0%nat, []); completion := fun _ => 0%nat |}.

(** A run whose model file says [dim = 0]. *)
Definition zero_dim_raw : RawModel :=
  {| r_name := None; r_type := None; r_dim := Some 0; r_max_chars := None;
     r_thresholds := None; r_prior_logit := None; r_delta := Some [0%float];
     r_bias := None; r_weights := None |}.

Definition zero_dim_env : Env :=
  {| read_json := fun _ => Some zero_dim_raw;
     read_parquet := fun _ => Some sample_batches;
     pool_schedule := oldest_first;
     mkdir_ok := fun _ => true;
     write_ok := fun _ => true;
     print_ok := fun _ => true |}.

Definition default_args : Args :=
  {| a_input := "data/processed/unified_text_label.parquet";
     a_model := "data/processed/hash_nb_model_4096_sampled.json";
     a_model_ja := "";
     a_human_threshold := (-1)%float;
     a_ai_threshold := (-1)%float;
     a_human_threshold_ja := (-1)%float;
     a_ai_threshold_ja := (-1)%float;
     a_max_rows := 0;
     a_output := "data/processed/detector_eval_summary.json";
     a_workers := 10 |}.

(** A naive-Bayes model whose file says [max_chars = 3]: two buckets,
    the first one strongly human. *)
Definition short_model : Model :=
  {| m_name := lit "short";
     m_dim := 2;
     m_max_chars := 3;
     m_thresholds := {| human_max := None; ai_min := None |};
     m_params := NaiveBayes 0 [(-38)%float; 0%float] |}.

(** ** Report metrics *)

(** [a / b] on two ints (counts, below 2^53): ZeroDivisionError, here
    [None], when [b] is 0. *)
Definition int_truediv (a b : Z) : option float :=
  if b =? 0 then None else Some (float_of_int a / float_of_int b)%float.

(** [a / b] on two floats: ZeroDivisionError when [b] is 0.0 or -0.0. *)
Definition float_truediv (a b : float) : option float :=
  if (b =? 0)%float then None else Some (a / b)%float.

(** [a / b] on a float and an int. *)
Definition float_int_truediv (a : float) (b : Z) : option float :=
  if b =? 0 then None else Some (a / float_of_int b)%float.

Definition precision_recall_f1 (tp fp fn : Z) : option (float * float * float) :=
  precision ← (if tp + fp =? 0 then Some 0%float else int_truediv tp (tp + fp));
  recall ← (if tp + fn =? 0 then Some 0%float else int_truediv tp (tp + fn));
  f1 ← (if (precision + recall =? 0)%float then Some 0%float
        else float_truediv (2 * precision * recall) (precision + recall));
  Some (precision, recall, f1).

(** The ratios of the summary dict, as [run_evaluation] computes them
    before it rounds them for display. *)
Record Metrics := {
  mt_ai : float * float * float;
  mt_human : float * float * float;
  mt_strict_accuracy : float;
  mt_decided_accuracy : float;
  mt_coverage : float;
  mt_unknown_rate : float;
  mt_avg_score : float;
  mt_jp_strict_accuracy : float;
  mt_non_jp_strict_accuracy : float
}.

Definition run_metrics (state : EvalState) : option Metrics :=
  let tp_ai := counter_get (st_conf state) ("AI", "AI") in
  let fp_ai := counter_get (st_conf state) ("Human", "AI") in
  let fn_ai := counter_get (st_conf state) ("AI", "Human")
               + counter_get (st_conf state) ("AI", "Unknown") in
  ai ← precision_recall_f1 tp_ai fp_ai fn_ai;
  let tp_h := counter_get (st_conf state) ("Human", "Human") in
  let fp_h := counter_get (st_conf state) ("AI", "Human") in
  let fn_h := counter_get (st_conf state) ("Human", "AI")
              + counter_get (st_conf state) ("Human", "Unknown") in
  human ← precision_recall_f1 tp_h fp_h fn_h;
  strict_accuracy ←
    (if st_total state =? 0 then Some 0%float
     else int_truediv (st_strict_correct state) (st_total state));
  decided_accuracy ←
    (if st_decided_rows state =? 0 then Some 0%float
     else int_truediv (st_decided_correct state) (st_decided_rows state));
  coverage ←
    (if st_total state =? 0 then Some 0%float
     else int_truediv (st_decided_rows state) (st_total state));
  unknown_rate ←
    (if st_total state =? 0 then Some 0%float
     else int_truediv (counter_get (st_pred_counts state) "Unknown") (st_total state));
  avg_score ←
    (if st_total state =? 0 then Some 0%float
     else float_int_truediv (st_score_sum state) (st_total state));
  jp_strict_accuracy ←
    (if st_jp_rows state =? 0 then Some 0%float
     else int_truediv (st_jp_strict_correct state) (st_jp_rows state));
  non_jp_strict_accuracy ←
    (if st_non_jp_rows state =? 0 then Some 0%float
     else int_truediv (st_non_jp_strict_correct state) (st_non_jp_rows state));
  Some {| mt_ai := ai; mt_human := human;
          mt_strict_accuracy := strict_accuracy;
          mt_decided_accuracy := decided_accuracy;
          mt_coverage := coverage;
          mt_unknown_rate := unknown_rate;
          mt_avg_score := avg_score;
          mt_jp_strict_accuracy := jp_strict_accuracy;
          mt_non_jp_strict_accuracy := non_jp_strict_accuracy |}.

(** ** The 3% rule of the language router

    The float test [jp_count / max(1, len(sample)) >= 0.03] against the
    integer test [3 * len(sample) <= 100 * jp_count]: whether the two
    agree at one pair. *)
Definition ratio_rule_agrees (jp_count n : Z) : bool :=
  Bool.eqb (ratio_003 <=? float_of_int jp_count / float_of_int (Z.max 1 n))%float
           (3 * n <=? 100 * jp_count).

(** ** The bucket counts of the logistic model *)

(** The first loop of the logistic branch of [compute_score] over [n]
    windows. *)
Definition bucket_counts (normalized : pystr) (dim n : Z) : option (list (Z * Z)) :=
  for_each
    (fun counts i =>
       idx ← hash_trigram normalized i dim;
       Some (bucket_incr counts idx))
    (py_range n) [].

(** ** Events and schedules *)



(** The calls before the evaluation and after it, when all are made. *)
Definition input_calls (args : Args) : list event :=
  ReadModel (a_model args)
  :: (if String.eqb (a_model_ja args) "" then [] else [ReadModel (a_model_ja args)])
  ++ [ReadDataset (a_input args)].

Definition output_calls (args : Args) (summary : Summary) : list event :=
  [MakeParentDirs (a_output args);
   WriteSummary (a_output args) summary;
   PrintSummary summary;
   PrintPath (a_output args)].

(** A schedule under which the results are merged in the order in
    which their tasks were submitted: of the futures that a [wait]
    returns, the loop over [done] visits the oldest pending ones,
    oldest first, and [as_completed] yields the pending futures from
    the oldest on. (The program does not fix this order: [done] is a
    set, and [as_completed] starts from a set.) *)
Definition merges_in_submission_order (sched : Schedule) : Prop :=
  (forall n, (wait_first sched n).1 = 0%nat /\
             Forall (fun i => i = 0%nat) (wait_first sched n).2) /\
  (forall k, completion sched k = 0%nat).

(** ** More worked examples *)

(** The file of [tiny_model], and a run that finds it everywhere. *)
Definition tiny_raw : RawModel :=
  {| r_name := Some (lit "tiny"); r_type := None; r_dim := Some 1;
     r_max_chars := None; r_thresholds := None;
     r_prior_logit := Some (-38)%float; r_delta := Some [0%float];
     r_bias := None; r_weights := None |}.

Definition tiny_env : Env :=
  {| read_json := fun _ => Some tiny_raw;
     read_parquet := fun _ => Some sample_batches;
     pool_schedule := oldest_first;
     mkdir_ok := fun _ => true;
     write_ok := fun _ => true;
     print_ok := fun _ => true |}.

(** [bucket_counts.get(idx, 0)] on the dict kept in insertion order. *)
Fixpoint bucket_get (counts : list (Z * Z)) (idx : Z) : Z :=
  match counts with
  | [] => 0
  | (k, n) :: rest => if k =? idx then n else bucket_get rest idx
  end.

(** The number of windows among the first [n] whose bucket is [idx]. *)
Definition windows_in_bucket (normalized : pystr) (dim n idx : Z) : Z :=
  len (filter (fun i => hash_trigram normalized i dim = Some idx) (py_range n)).

(** A row that the language router takes for Japanese (forty times
    the letter U+3042), a batch that mixes it with the two ASCII rows,
    and the evaluation of that batch with [tiny_model] as the primary
    and [short_model] as the secondary model. *)
Definition row_japanese : string * pystr := ("AI", repeat 0x3042 40).

Definition mixed_rows : list (string * pystr) := [row_low; row_japanese; row_short].

Definition mixed_example : PartialResult :=
  Eval vm_compute in
    default zero_result
      (@evaluate_valid_rows example_runtime no_globals mixed_rows
         DEFAULT_HUMAN_THRESHOLD DEFAULT_AI_THRESHOLD (Some tiny_model) (Some short_model)
         (Some DEFAULT_HUMAN_THRESHOLD) (Some DEFAULT_AI_THRESHOLD)).

(** A two-bucket logistic model. *)
Definition tiny_logistic : Model :=
  {| m_name := lit "logit";
     m_dim := 2;
     m_max_chars := 1200;
     m_thresholds := {| human_max := None; ai_min := None |};
     m_params := Logistic 0 [(-38)%float; 0%float] |}.

(** * Properties *)

(** ** The order of binary64 values

    [<?] and [<=?] on floats, read through their specification on
    [spec_float]: away from NaN they are the strict and the large part
    of one total preorder, the lexicographic order of [sf_key]. *)
Module FloatOrder.

Ltac cmp_case :=
  unfold key_lt; simpl;
  split;
  [ intros Hc; first [ discriminate Hc | repeat split; solve [ reflexivity | lia | congruence ] ]
  | intros (Hn1 & Hn2 & Hk); first [ reflexivity | discriminate | exfalso; lia | exfalso; congruence ] ].

Lemma SFcompare_Lt f1 f2 :
  SFcompare f1 f2 = Some Lt <->
  sf_nan f1 = false /\ sf_nan f2 = false /\ key_lt (sf_key f1) (sf_key f2).
Proof.
  destruct f1 as [s1|s1| |s1 m1 e1], f2 as [s2|s2| |s2 m2 e2]; simpl;
    try destruct s1; try destruct s2; simpl; try cmp_case.
  all: change (PosDef.Pos.compare_cont Eq m1 m2) with (Pos.compare m1 m2).
  all: destruct (Z.compare_spec e1 e2) as [->| |];
    [ destruct (Pos.compare_spec m1 m2) as [->| |] | |]; simpl; cmp_case.
Qed.

Lemma SFcompare_Eq f1 f2 :
  SFcompare f1 f2 = Some Eq <->
  sf_nan f1 = false /\ sf_nan f2 = false /\ sf_key f1 = sf_key f2.
Proof.
  destruct f1 as [s1|s1| |s1 m1 e1], f2 as [s2|s2| |s2 m2 e2]; simpl;
    try destruct s1; try destruct s2; simpl;
    try (split; [ intros Hc; first [ discriminate Hc | repeat split; reflexivity ]
                | intros (Hn1 & Hn2 & Hk); first [ reflexivity | discriminate ] ]).
  all: change (PosDef.Pos.compare_cont Eq m1 m2) with (Pos.compare m1 m2).
  all: destruct (Z.compare_spec e1 e2) as [->| |];
    [ destruct (Pos.compare_spec m1 m2) as [->| |] | |]; simpl;
    (split; [ intros Hc; first [ discriminate Hc | repeat split; reflexivity ]
            | intros (_ & _ & Hk); first [ reflexivity | exfalso; injection Hk; lia ] ]).
Qed.

Lemma ltb_key x y :
  PrimFloat.ltb x y = true <->
  sf_nan (Prim2SF x) = false /\ sf_nan (Prim2SF y) = false /\
  key_lt (sf_key (Prim2SF x)) (sf_key (Prim2SF y)).
Proof.
  rewrite FloatAxioms.ltb_spec. unfold SFltb. rewrite <- SFcompare_Lt.
  destruct (SFcompare _ _) as [[]|]; split; congruence.
Qed.

Lemma leb_key x y :
  PrimFloat.leb x y = true <->
  sf_nan (Prim2SF x) = false /\ sf_nan (Prim2SF y) = false /\
  (key_lt (sf_key (Prim2SF x)) (sf_key (Prim2SF y)) \/
   sf_key (Prim2SF x) = sf_key (Prim2SF y)).
Proof.
  rewrite FloatAxioms.leb_spec. unfold SFleb.
  pose proof (SFcompare_Lt (Prim2SF x) (Prim2SF y)) as HL.
  pose proof (SFcompare_Eq (Prim2SF x) (Prim2SF y)) as HE.
  destruct (SFcompare _ _) as [[]|]; split; try congruence.
  - intros _. destruct HE as [HE _]. destruct (HE eq_refl) as (? & ? & ?). auto.
  - intros _. destruct HL as [HL _]. destruct (HL eq_refl) as (? & ? & ?). auto.
  - intros (? & ? & [Hk|Hk]); [apply proj2 in HL | apply proj2 in HE];
      [ discriminate HL | discriminate HE ]; auto.
  - intros (? & ? & [Hk|Hk]); [apply proj2 in HL | apply proj2 in HE];
      [ discriminate HL | discriminate HE ]; auto.
Qed.

Lemma is_nan_key x : PrimFloat.is_nan x = sf_nan (Prim2SF x).
Proof.
  unfold PrimFloat.is_nan. rewrite FloatAxioms.eqb_spec. unfold SFeqb.
  destruct (Prim2SF x) as [s|s| |s m e]; try destruct s; simpl; try reflexivity.
  all: rewrite Z.compare_refl;
    change (PosDef.Pos.compare_cont Eq m m) with (Pos.compare m m);
    rewrite Pos.compare_refl; reflexivity.
Qed.

Lemma key_total k1 k2 : key_lt k1 k2 \/ k1 = k2 \/ key_lt k2 k1.
Proof.
  destruct k1 as [[a1 b1] c1], k2 as [[a2 b2] c2]; unfold key_lt; simpl.
  destruct (Z.lt_total a1 a2) as [?|[->|?]]; [left; lia | | right; right; lia].
  destruct (Z.lt_total b1 b2) as [?|[->|?]]; [left; lia | | right; right; lia].
  destruct (Z.lt_total c1 c2) as [?|[->|?]];
    [left; lia | right; left; reflexivity | right; right; lia].
Qed.

Lemma key_lt_trans k1 k2 k3 : key_lt k1 k2 -> key_lt k2 k3 -> key_lt k1 k3.
Proof. unfold key_lt. lia. Qed.

Lemma key_lt_irrefl k : ~ key_lt k k.
Proof. unfold key_lt. lia. Qed.

(* x < y and y <= z give x < z *)
Lemma ltb_leb_trans x y z :
  PrimFloat.ltb x y = true -> PrimFloat.leb y z = true -> PrimFloat.ltb x z = true.
Proof.
  rewrite !ltb_key, leb_key. intros (? & ? & H1) (? & ? & [H2|H2]); repeat split; auto.
  - eapply key_lt_trans; eauto.
  - rewrite <- H2. exact H1.
Qed.

Lemma leb_ltb_trans x y z :
  PrimFloat.leb x y = true -> PrimFloat.ltb y z = true -> PrimFloat.ltb x z = true.
Proof.
  rewrite !ltb_key, leb_key. intros (? & ? & [H1|H1]) (? & ? & H2); repeat split; auto.
  - eapply key_lt_trans; eauto.
  - rewrite H1. exact H2.
Qed.

Lemma ltb_false_leb x y :
  PrimFloat.is_nan x = false -> PrimFloat.is_nan y = false ->
  (PrimFloat.ltb x y = false <-> PrimFloat.leb y x = true).
Proof.
  rewrite !is_nan_key. intros Hx Hy.
  rewrite <- not_true_iff_false, ltb_key, leb_key.
  pose proof (key_total (sf_key (Prim2SF x)) (sf_key (Prim2SF y))) as Ht.
  pose proof (key_lt_irrefl (sf_key (Prim2SF x))).
  pose proof (key_lt_trans (sf_key (Prim2SF x)) (sf_key (Prim2SF y)) (sf_key (Prim2SF x))).
  split.
  - intros Hn. repeat split; auto. destruct Ht as [?|[?|?]]; auto. exfalso; auto.
  - intros (_ & _ & [Hk|Hk]) (_ & _ & Hk'); auto. rewrite Hk in Hk'. auto.
Qed.

Lemma ltb_not_nan_l x y : PrimFloat.ltb x y = true -> PrimFloat.is_nan x = false.
Proof. rewrite ltb_key, is_nan_key. tauto. Qed.
Lemma ltb_not_nan_r x y : PrimFloat.ltb x y = true -> PrimFloat.is_nan y = false.
Proof. rewrite ltb_key, is_nan_key. tauto. Qed.
Lemma leb_not_nan_l x y : PrimFloat.leb x y = true -> PrimFloat.is_nan x = false.
Proof. rewrite leb_key, is_nan_key. tauto. Qed.

Lemma ltb_asym x y : PrimFloat.ltb x y = true -> PrimFloat.ltb y x = false.
Proof.
  intros H1. apply not_true_iff_false. intros H2.
  apply ltb_key in H1, H2.
  destruct H1 as (_ & _ & K1), H2 as (_ & _ & K2).
  exact (key_lt_irrefl _ (key_lt_trans _ _ _ K1 K2)).
Qed.

End FloatOrder.

(** ** Three-way classifier *)

(** A NaN score is below no threshold, so it falls through both tests. *)
Lemma predict_judge_nan human_threshold ai_threshold :
  predict_judge nan human_threshold ai_threshold = "AI".
Proof.
  unfold predict_judge.
  destruct (nan <? human_threshold)%float eqn:E1;
    [apply FloatOrder.ltb_not_nan_l in E1; discriminate E1|].
  destruct (nan <? ai_threshold)%float eqn:E2;
    [apply FloatOrder.ltb_not_nan_l in E2; discriminate E2|].
  reflexivity.
Qed.

(** C6, as stated, fails at a NaN score: the classifier answers AI
    although [score >= ai_min] is false. *)
Lemma predict_judge_nan_is_ai :
  predict_judge nan DEFAULT_HUMAN_THRESHOLD DEFAULT_AI_THRESHOLD = "AI" /\
  (DEFAULT_HUMAN_THRESHOLD <? DEFAULT_AI_THRESHOLD)%float = true /\
  (DEFAULT_AI_THRESHOLD <=? nan)%float = false.
Proof. repeat split; reflexivity. Qed.

(** C6 (amended): for every score that is not NaN and thresholds with
    [human_max < ai_min], [predict_judge] answers Human iff
    [score < human_max], AI iff [score >= ai_min], Unknown otherwise;
    and a score that is not larger never gets a higher class
    (Human < Unknown < AI). *)
Theorem predict_judge_spec (score human_max ai_min : float) :
  PrimFloat.is_nan score = false ->
  (human_max <? ai_min)%float = true ->
  (predict_judge score human_max ai_min = "Human" <-> (score <? human_max)%float = true) /\
  (predict_judge score human_max ai_min = "AI" <-> (ai_min <=? score)%float = true) /\
  (predict_judge score human_max ai_min = "Unknown" <->
     (score <? human_max)%float = false /\ (ai_min <=? score)%float = false) /\
  (forall lower_score, (lower_score <=? score)%float = true ->
     judge_rank (predict_judge lower_score human_max ai_min)
     <= judge_rank (predict_judge score human_max ai_min)).
Proof.
  intros Hnan Hlt.
  pose proof (FloatOrder.ltb_not_nan_r _ _ Hlt) as Hai.
  pose proof (FloatOrder.ltb_false_leb score ai_min Hnan Hai) as Htot.
  assert (Hexcl : (ai_min <=? score)%float = true -> (score <? human_max)%float = false).
  { intros Hge. apply FloatOrder.ltb_asym.
    exact (FloatOrder.ltb_leb_trans _ _ _ Hlt Hge). }
  unfold predict_judge.
  split; [split | split; [split | split; [split|]]].
  - destruct (score <? human_max)%float; [reflexivity|].
    destruct (score <? ai_min)%float; discriminate.
  - intros ->. reflexivity.
  - destruct (score <? human_max)%float eqn:E1; [discriminate|].
    destruct (score <? ai_min)%float eqn:E2; [discriminate|].
    intros _. apply Htot. reflexivity.
  - intros Hge. rewrite (Hexcl Hge).
    apply Htot in Hge. rewrite Hge. reflexivity.
  - destruct (score <? human_max)%float eqn:E1; [discriminate|].
    destruct (score <? ai_min)%float eqn:E2; [|discriminate].
    intros _. split; [reflexivity|].
    apply not_true_iff_false. intros Hge. apply Htot in Hge. congruence.
  - intros [E1 E2]. rewrite E1.
    destruct (score <? ai_min)%float eqn:E3; [reflexivity|].
    pose proof (proj1 Htot eq_refl). congruence.
  - intros lower_score Hle.
    destruct (score <? human_max)%float eqn:E1.
    + rewrite (FloatOrder.leb_ltb_trans _ _ _ Hle E1). reflexivity.
    + destruct (score <? ai_min)%float eqn:E2.
      * destruct (lower_score <? human_max)%float; [cbn; lia|].
        rewrite (FloatOrder.leb_ltb_trans _ _ _ Hle E2). reflexivity.
      * destruct (lower_score <? human_max)%float; [cbn; lia|].
        destruct (lower_score <? ai_min)%float; cbn; lia.
Qed.

Lemma predict_judge_spec_witness :
  (predict_judge 0.5 DEFAULT_HUMAN_THRESHOLD DEFAULT_AI_THRESHOLD = "Unknown" <->
     (0.5 <? DEFAULT_HUMAN_THRESHOLD)%float = false /\
     (DEFAULT_AI_THRESHOLD <=? 0.5)%float = false).
Proof.
  apply (predict_judge_spec 0.5 DEFAULT_HUMAN_THRESHOLD DEFAULT_AI_THRESHOLD);
    reflexivity.
Defined.

(** ** Loops and indexing *)

Lemma for_each_total {A S} (body : S -> A -> option S) (step : S -> A -> S)
    (l : list A) (s : S) :
  (forall s x, x ∈ l -> body s x = Some (step s x)) ->
  for_each body l s = Some (fold_left step l s).
Proof.
  revert s. induction l as [|x l IH]; intros s Hbody; [reflexivity|].
  simpl. rewrite Hbody by (left). simpl.
  apply IH. intros s' y Hy. apply Hbody. right. exact Hy.
Qed.

Lemma for_each_app {A S} (body : S -> A -> option S) (l1 l2 : list A) (s : S) :
  for_each body (l1 ++ l2) s = s' ← for_each body l1 s; for_each body l2 s'.
Proof.
  revert s. induction l1 as [|x l1 IH]; intros s; [reflexivity|].
  simpl. destruct (body s x) as [s'|]; simpl; [apply IH | reflexivity].
Qed.

Lemma elem_of_py_range i n : i ∈ py_range n <-> 0 <= i < n.
Proof.
  unfold py_range. rewrite list_elem_of_fmap. split.
  - intros (k & -> & Hk). apply elem_of_seq in Hk. lia.
  - intros Hi. exists (Z.to_nat i). split; [lia|]. apply elem_of_seq. lia.
Qed.

Lemma py_getitem_nonneg {A} (l : list A) (i : Z) :
  0 <= i -> py_getitem l i = l !! Z.to_nat i.
Proof. intros Hi. unfold py_getitem. rewrite (proj2 (Z.leb_le 0 i)) by lia. reflexivity. Qed.

Lemma land_mask32 x : Z.land x 0xFFFFFFFF = x mod 2 ^ 32.
Proof. change 0xFFFFFFFF with (Z.ones 32). apply Z.land_ones. lia. Qed.

(** ** Trigram hasher *)

(** The loop of [hash_trigram] on three characters that exist. *)
Lemma hash_trigram_chars (text : pystr) (start dim c0 c1 c2 : Z) :
  0 < dim ->
  py_getitem text start = Some c0 ->
  py_getitem text (start + 1) = Some c1 ->
  py_getitem text (start + 2) = Some c2 ->
  hash_trigram text start dim = Some (fnv1a32 [c0; c1; c2] mod dim).
Proof.
  intros Hdim H0 H1 H2.
  unfold hash_trigram, py_range. simpl.
  change (Z.of_nat 1) with 1. change (Z.of_nat 2) with 2.
  rewrite Z.add_0_r, H0. simpl. rewrite H1. simpl. rewrite H2. simpl.
  destruct (Z.eqb_spec dim 0) as [->|_]; [lia|].
  unfold fnv1a32. simpl. rewrite !land_mask32. reflexivity.
Qed.

(** C4: when [dim > 0] and the three characters at [start], [start+1],
    [start+2] exist, [hash_trigram] returns the 32-bit FNV-1a hash of
    those characters reduced modulo [dim], a value in [0, dim). *)
Theorem hash_trigram_fnv1a (text : pystr) (start dim c0 c1 c2 : Z) :
  0 < dim ->
  py_getitem text start = Some c0 ->
  py_getitem text (start + 1) = Some c1 ->
  py_getitem text (start + 2) = Some c2 ->
  hash_trigram text start dim = Some (fnv1a32 [c0; c1; c2] mod dim) /\
  0 <= fnv1a32 [c0; c1; c2] mod dim < dim.
Proof.
  intros Hdim H0 H1 H2. split.
  - apply hash_trigram_chars; assumption.
  - apply Z.mod_pos_bound. exact Hdim.
Qed.

Lemma hash_trigram_fnv1a_witness :
  hash_trigram (lit "abc") 0 4096 = Some (fnv1a32 [97; 98; 99] mod 4096) /\
  0 <= fnv1a32 [97; 98; 99] mod 4096 < 4096.
Proof. apply (hash_trigram_fnv1a (lit "abc") 0 4096 97 98 99); [lia | reflexivity ..]. Defined.

(** A window that lies inside the text is hashed to its bucket. *)
Lemma hash_trigram_window (text : pystr) (i dim : Z) :
  0 < dim -> 0 <= i -> i + 3 <= len text ->
  hash_trigram text i dim = Some (trigram_bucket text i dim) /\
  0 <= trigram_bucket text i dim < dim.
Proof.
  intros Hdim Hi Hlen. unfold trigram_bucket.
  pose proof (length_drop text (Z.to_nat i)) as Hd.
  destruct (drop (Z.to_nat i) text) as [|c0 [|c1 [|c2 rest]]] eqn:E;
    simpl in Hd; try lia.
  assert (Hk : forall k : nat, text !! (Z.to_nat i + k)%nat = (c0 :: c1 :: c2 :: rest) !! k).
  { intros k. rewrite <- E, lookup_drop. reflexivity. }
  simpl take. split; [|apply Z.mod_pos_bound; exact Hdim].
  apply hash_trigram_chars; [exact Hdim | ..].
  - rewrite py_getitem_nonneg by lia.
    replace (Z.to_nat i) with (Z.to_nat i + 0)%nat by lia. apply Hk.
  - rewrite py_getitem_nonneg by lia.
    replace (Z.to_nat (i + 1)) with (Z.to_nat i + 1)%nat by lia. apply Hk.
  - rewrite py_getitem_nonneg by lia.
    replace (Z.to_nat (i + 2)) with (Z.to_nat i + 2)%nat by lia. apply Hk.
Qed.

(** ** Naive-Bayes score *)

Lemma fold_left_ext_in {A S} (f g : S -> A -> S) (l : list A) (s : S) :
  (forall s x, x ∈ l -> f s x = g s x) -> fold_left f l s = fold_left g l s.
Proof.
  revert s. induction l as [|x l IH]; intros s Hfg; [reflexivity|].
  simpl. rewrite Hfg by left. apply IH. intros s' y Hy. apply Hfg. right. exact Hy.
Qed.

Lemma window_of_prefix (l : pystr) (i k : nat) :
  (i + 3 <= k)%nat -> take 3 (drop i (take k l)) = take 3 (drop i l).
Proof.
  intros Hik. rewrite !take_drop_commute, take_take.
  replace ((i + 3) `min` k)%nat with (i + 3)%nat by lia. reflexivity.
Qed.

(** The windows of two texts that share their first [cap] characters
    fall into the same buckets. *)
Lemma nb_score_upto_prefix `{PyRuntime} (cap : Z) prior delta dim (text text' : pystr) :
  3 <= cap ->
  take (Z.to_nat cap) (normalize_text (Some text')) =
  take (Z.to_nat cap) (normalize_text (Some text)) ->
  nb_score_upto cap prior delta dim text' = nb_score_upto cap prior delta dim text.
Proof.
  intros Hcap Htake. unfold nb_score_upto.
  set (n := normalize_text (Some text)) in *.
  set (n' := normalize_text (Some text')) in *.
  assert (Hlen : (Z.to_nat cap `min` length n' = Z.to_nat cap `min` length n)%nat).
  { rewrite <- !length_take. f_equal. exact Htake. }
  assert (Hmin : Z.min (len n') cap = Z.min (len n) cap) by lia.
  assert (Hshort : (len n' <? 3) = (len n <? 3)).
  { destruct (Z.ltb_spec (Z.of_nat (length n')) 3),
      (Z.ltb_spec (Z.of_nat (length n)) 3); try reflexivity; lia. }
  rewrite Hshort, Hmin. destruct (len n <? 3); [reflexivity|].
  f_equal. apply fold_left_ext_in. intros logit i Hi.
  apply elem_of_py_range in Hi. unfold trigram_bucket.
  rewrite <- (window_of_prefix n' (Z.to_nat i) (Z.to_nat cap)) by lia.
  rewrite <- (window_of_prefix n (Z.to_nat i) (Z.to_nat cap)) by lia.
  rewrite Htake. reflexivity.
Qed.

(** Whatever [max_chars] is, the score of a naive-Bayes model counts
    the windows inside the first [max(200, max_chars)] characters. *)
Lemma compute_score_nb_cap `{PyRuntime} (model : Model) (prior : float)
    (delta : list float) (text : pystr) :
  m_params model = NaiveBayes prior delta ->
  0 < m_dim model ->
  len delta = m_dim model ->
  compute_score text model =
  Some (nb_score_upto (Z.max 200 (m_max_chars model)) prior delta (m_dim model) text).
Proof.
  intros Hparams Hdim Hlen. unfold compute_score, nb_score_upto.
  rewrite Hparams. replace (Z.max 1 (m_dim model)) with (m_dim model) by lia.
  set (n := normalize_text (Some text)).
  destruct (len n <? 3); [reflexivity|].
  erewrite for_each_total; [reflexivity|].
  intros logit i Hi. apply elem_of_py_range in Hi.
  destruct (hash_trigram_window n i (m_dim model)) as [-> Hb];
    [lia ..|].
  set (b := trigram_bucket n i (m_dim model)) in *.
  simpl. rewrite py_getitem_nonneg by lia. unfold delta_at.
  destruct (lookup_lt_is_Some_2 delta (Z.to_nat b)) as [d ->];
    [lia|].
  reflexivity.
Qed.

(** C5: for a naive-Bayes model of the specification ([dim > 0],
    [len(delta) = dim], [max_chars >= 200]), [compute_score] returns
    0.5 when the normalized text is shorter than 3, and otherwise the
    sigmoid of [prior_logit] plus [delta[bucket]] over every window
    start in [0, min(len(normalized), max_chars) - 2), each occurrence
    counted; so characters beyond the first [max_chars] of the
    normalized text never influence the score. *)
Theorem compute_score_naive_bayes `{PyRuntime} (model : Model) (prior : float)
    (delta : list float) (text : pystr) :
  m_params model = NaiveBayes prior delta ->
  0 < m_dim model ->
  len delta = m_dim model ->
  200 <= m_max_chars model ->
  compute_score text model =
    Some (nb_score_upto (m_max_chars model) prior delta (m_dim model) text) /\
  (forall text',
     take (Z.to_nat (m_max_chars model)) (normalize_text (Some text')) =
     take (Z.to_nat (m_max_chars model)) (normalize_text (Some text)) ->
     compute_score text' model = compute_score text model).
Proof.
  intros Hparams Hdim Hlen Hmax.
  assert (Hscore : forall t,
    compute_score t model =
    Some (nb_score_upto (m_max_chars model) prior delta (m_dim model) t)).
  { intros t. rewrite (compute_score_nb_cap model prior delta t Hparams Hdim Hlen).
    replace (Z.max 200 (m_max_chars model)) with (m_max_chars model) by lia.
    reflexivity. }
  split; [apply Hscore|].
  intros text' Htake. rewrite !Hscore. f_equal.
  apply nb_score_upto_prefix; [lia | exact Htake].
Qed.

Lemma compute_score_naive_bayes_witness :
  @compute_score example_runtime (lit "abcabc") tiny_model =
    Some (@nb_score_upto example_runtime (m_max_chars tiny_model) (-38) [0%float]
            (m_dim tiny_model) (lit "abcabc")) /\
  (forall text',
     take (Z.to_nat (m_max_chars tiny_model))
          (@normalize_text example_runtime (Some text')) =
     take (Z.to_nat (m_max_chars tiny_model))
          (@normalize_text example_runtime (Some (lit "abcabc"))) ->
     @compute_score example_runtime text' tiny_model =
     @compute_score example_runtime (lit "abcabc") tiny_model).
Proof.
  apply (@compute_score_naive_bayes example_runtime tiny_model (-38) [0%float]
           (lit "abcabc")); [reflexivity | reflexivity | reflexivity | simpl; lia].
Defined.

(** Outside the data model of the specification, which has
    [max_chars >= 200]: a model file with a smaller [max_chars] is
    accepted by [load_model], and [compute_score] then still reads up
    to 200 characters. With [max_chars = 3], ["abca"] and ["abcb"]
    agree on their first three characters and get different scores. *)
Lemma compute_score_beyond_max_chars :
  take 3 (@normalize_text example_runtime (Some (lit "abca"))) =
  take 3 (@normalize_text example_runtime (Some (lit "abcb"))) /\
  @compute_score example_runtime (lit "abca") short_model = Some 0.5%float /\
  @compute_score example_runtime (lit "abcb") short_model =
    Some 0x1.2188ad6ae3303p-55%float /\
  @nb_score_upto example_runtime (m_max_chars short_model) 0
    [(-38)%float; 0%float] 2 (lit "abcb") = 0.5%float.
Proof. repeat split; vm_compute; reflexivity. Qed.

(** ** Text normalizer: what is collapsed *)

Lemma squeeze_run ws c s :
  ws c = true -> squeeze ws (c :: s) = 32 :: squeeze ws (drop_run ws s).
Proof.
  revert c. induction s as [|d s IH]; intros c Hc; [simpl; rewrite Hc; reflexivity|].
  change (squeeze ws (c :: d :: s)) with
    (if ws c then if ws d then squeeze ws (d :: s) else 32 :: squeeze ws (d :: s)
     else c :: squeeze ws (d :: s)).
  change (drop_run ws (d :: s)) with (if ws d then drop_run ws s else d :: s).
  rewrite Hc. destruct (ws d) eqn:Hd; [apply IH; exact Hd | reflexivity].
Qed.

(** The regular-expression replacement, told with look-ahead. *)
Lemma re_sub_hspace_squeeze s :
  re_sub_hspace false s = squeeze re_hspace s /\
  re_sub_hspace true s = squeeze re_hspace (drop_run re_hspace s).
Proof.
  induction s as [|c s [IHf IHt]]; [split; reflexivity|].
  destruct (re_hspace c) eqn:Hc.
  - split.
    + rewrite (squeeze_run _ _ _ Hc). simpl. rewrite Hc, IHt. reflexivity.
    + simpl. rewrite Hc. exact IHt.
  - split; simpl; rewrite Hc; simpl; rewrite ?Hc, IHf; reflexivity.
Qed.

Lemma re_hspace_replaced c : re_hspace (if c =? 160 then 32 else c) = blank c.
Proof.
  unfold blank. destruct (Z.eqb_spec c 160) as [->|Hne]; [reflexivity|].
  rewrite orb_false_r. reflexivity.
Qed.

Lemma squeeze_cons ws c s :
  squeeze ws (c :: s) =
  if ws c then 32 :: squeeze ws (drop_run ws s) else c :: squeeze ws s.
Proof.
  destruct (ws c) eqn:Hc; [apply squeeze_run; exact Hc|].
  simpl. rewrite Hc. reflexivity.
Qed.

Lemma length_drop_run ws s : (length (drop_run ws s) <= length s)%nat.
Proof.
  induction s as [|c s IH]; simpl; [lia|].
  destruct (ws c); simpl; lia.
Qed.

Lemma drop_run_replace_nbsp s :
  drop_run re_hspace (replace_nbsp s) = replace_nbsp (drop_run blank s).
Proof.
  induction s as [|c s IH]; [reflexivity|].
  simpl. rewrite re_hspace_replaced. destruct (blank c); [exact IH | reflexivity].
Qed.

(** Replacing the non-breaking spaces first and collapsing the runs of
    the class afterwards collapses the runs of blanks. *)
Lemma squeeze_replace_nbsp s :
  squeeze re_hspace (replace_nbsp s) = squeeze blank s.
Proof.
  remember (length s) as n eqn:Hn.
  assert (Hle : (length s <= n)%nat) by lia. clear Hn.
  revert s Hle. induction n as [|n IH]; intros [|c s] Hle; simpl in Hle;
    try reflexivity; try lia.
  change (replace_nbsp (c :: s)) with ((if c =? 160 then 32 else c) :: replace_nbsp s).
  rewrite !squeeze_cons, re_hspace_replaced.
  destruct (blank c) eqn:Hc.
  - rewrite drop_run_replace_nbsp, IH; [reflexivity|].
    pose proof (length_drop_run blank s). lia.
  - rewrite IH by lia. unfold blank in Hc. apply orb_false_elim in Hc as [_ Hc].
    rewrite Hc. reflexivity.
Qed.

(** C2, as stated, fails on line breaks: the two newlines of ["a\n\nb"]
    are whitespace, yet the run is kept as it is. *)
Lemma normalize_text_keeps_newlines :
  @normalize_text example_runtime (Some [97; 10; 10; 98]) = [97; 10; 10; 98] /\
  @normalize_stated example_runtime (Some [97; 10; 10; 98]) = [97; 32; 98].
Proof. split; reflexivity. Qed.

(** C2 (amended): for every input string, or absent input,
    [normalize_text] returns the lower-cased text with every run of
    horizontal blanks (space, tab, form feed, vertical tab, non-breaking
    space) replaced by a single ASCII space and with leading and
    trailing whitespace removed; line breaks and other whitespace
    inside the text are kept. *)
Theorem normalize_text_blanks `{PyRuntime} (value : option pystr) :
  normalize_text value = normalize_blanks value.
Proof.
  unfold normalize_text, normalize_blanks.
  rewrite (proj1 (re_sub_hspace_squeeze _)), squeeze_replace_nbsp. reflexivity.
Qed.

(** ** Text normalizer: idempotence *)

Lemma re_hspace_isspace c : re_hspace c = true -> py_isspace c = true.
Proof.
  unfold re_hspace. intros Hc.
  repeat (apply orb_prop in Hc as [Hc|Hc]); apply Z.eqb_eq in Hc; subst; reflexivity.
Qed.

Lemma re_hspace_wsfree c : py_isspace c = false -> re_hspace c = false.
Proof.
  intros Hc. destruct (re_hspace c) eqn:E; [|reflexivity].
  apply re_hspace_isspace in E. congruence.
Qed.

Lemma nbsp_wsfree c : py_isspace c = false -> (c =? 160) = false.
Proof. intros Hc. destruct (Z.eqb_spec c 160) as [->|]; [discriminate Hc | reflexivity]. Qed.

(** Every string is a word, or a word, a whitespace character and a
    rest. *)
Lemma word_ind (P : pystr -> Prop) :
  (forall w, wsfree w -> P w) ->
  (forall w c r, wsfree w -> py_isspace c = true -> P r -> P (w ++ c :: r)) ->
  forall s, P s.
Proof.
  intros Hword Hstep s.
  enough (Hgen : forall w, wsfree w -> P (w ++ s)) by exact (Hgen [] (Forall_nil_2 _)).
  induction s as [|c s IH]; intros w Hw.
  - rewrite app_nil_r. apply Hword, Hw.
  - destruct (py_isspace c) eqn:Hc.
    + apply Hstep; [exact Hw | exact Hc | exact (IH [] (Forall_nil_2 _))].
    + replace (w ++ c :: s) with ((w ++ [c]) ++ s) by (rewrite <- app_assoc; reflexivity).
      apply IH. apply Forall_app. split; [exact Hw | repeat constructor; exact Hc].
Qed.

(** The same from the right: a rest, a whitespace character and the
    last word. *)
Lemma word_ind_r (P : pystr -> Prop) :
  (forall w, wsfree w -> P w) ->
  (forall r c w, wsfree w -> py_isspace c = true -> P r -> P (r ++ c :: w)) ->
  forall s, P s.
Proof.
  intros Hword Hstep s. rewrite <- (rev_involutive s).
  induction (rev s) as [w Hw|w c r Hw Hc IH] using word_ind.
  - apply Hword. apply Forall_rev. exact Hw.
  - rewrite rev_app_distr. simpl. rewrite <- app_assoc. simpl.
    apply Hstep; [apply Forall_rev; exact Hw | exact Hc | exact IH].
Qed.

(** *** The three passes on words *)

Lemma replace_nbsp_wsfree w : wsfree w -> replace_nbsp w = w.
Proof.
  induction 1 as [|c w Hc _ IH]; [reflexivity|].
  simpl. rewrite (nbsp_wsfree c Hc). f_equal. exact IH.
Qed.

Lemma replace_nbsp_app a b :
  replace_nbsp (a ++ b) = replace_nbsp a ++ replace_nbsp b.
Proof. apply map_app. Qed.

Lemma replace_nbsp_cons c s :
  replace_nbsp (c :: s) = (if c =? 160 then 32 else c) :: replace_nbsp s.
Proof. reflexivity. Qed.

Lemma re_sub_hspace_word flag w t :
  wsfree w ->
  re_sub_hspace flag (w ++ t) =
  w ++ re_sub_hspace (match w with [] => flag | _ => false end) t.
Proof.
  intros Hw. revert flag. induction Hw as [|c w Hc _ IH]; intros flag; [reflexivity|].
  simpl. rewrite (re_hspace_wsfree c Hc), IH. destruct w; reflexivity.
Qed.

Lemma re_sub_hspace_wsfree flag w : wsfree w -> re_sub_hspace flag w = w.
Proof.
  intros Hw. rewrite <- (app_nil_r w) at 1.
  rewrite re_sub_hspace_word by exact Hw. simpl. apply app_nil_r.
Qed.

Lemma str_lstrip_word w t : wsfree w -> w <> [] -> str_lstrip (w ++ t) = w ++ t.
Proof.
  intros Hw Hne. destruct Hw as [|c w Hc _]; [congruence|].
  simpl. rewrite Hc. reflexivity.
Qed.

Lemma str_lstrip_wsfree w : wsfree w -> str_lstrip w = w.
Proof.
  intros Hw. destruct Hw as [|c w Hc _]; [reflexivity|]. simpl. rewrite Hc. reflexivity.
Qed.

Lemma str_rstrip_app a b :
  str_rstrip (a ++ b) =
  match str_rstrip b with [] => str_rstrip a | kept => a ++ kept end.
Proof.
  induction a as [|c a IH]; simpl.
  - destruct (str_rstrip b); reflexivity.
  - rewrite IH. destruct (str_rstrip b) as [|d kept] eqn:Hb; [reflexivity|].
    destruct (a ++ d :: kept) eqn:E; [destruct a; discriminate E | reflexivity].
Qed.

Lemma str_rstrip_wsfree w : wsfree w -> str_rstrip w = w.
Proof.
  induction 1 as [|c w Hc _ IH]; [reflexivity|].
  simpl. rewrite IH, Hc. destruct w; reflexivity.
Qed.

Lemma str_rstrip_space c : py_isspace c = true -> str_rstrip [c] = [].
Proof. intros Hc. simpl. rewrite Hc. reflexivity. Qed.

Section Lower.
Context (lower : pystr -> pystr) (laws : LowerLaws lower).

Lemma lower_wsfree w : wsfree w -> wsfree (lower w).
Proof.
  intros Hw. destruct w as [|c w].
  - rewrite (lower_nil _ laws). constructor.
  - apply (lower_word _ laws); [discriminate | exact Hw].
Qed.

Lemma lower_empty w : wsfree w -> lower w = [] <-> w = [].
Proof.
  intros Hw. split.
  - intros He. destruct w as [|c w]; [reflexivity|].
    destruct (lower_word _ laws (c :: w)) as [Hne _]; [discriminate | exact Hw | congruence].
  - intros ->. apply (lower_nil _ laws).
Qed.

Lemma lower_replace_nbsp s : replace_nbsp (lower s) = lower (replace_nbsp s).
Proof.
  induction s as [w Hw|w c r Hw Hc IH] using word_ind.
  - rewrite (replace_nbsp_wsfree w Hw). apply replace_nbsp_wsfree, lower_wsfree, Hw.
  - rewrite (lower_space _ laws) by exact Hc.
    rewrite !replace_nbsp_app, !replace_nbsp_cons.
    rewrite (replace_nbsp_wsfree _ (lower_wsfree w Hw)), (replace_nbsp_wsfree w Hw).
    rewrite IH. symmetry. apply (lower_space _ laws).
    destruct (Z.eqb_spec c 160); [reflexivity | exact Hc].
Qed.

Lemma lower_re_sub_hspace s flag :
  re_sub_hspace flag (lower s) = lower (re_sub_hspace flag s).
Proof.
  revert flag. induction s as [w Hw|w c r Hw Hc IH] using word_ind; intros flag.
  - rewrite (re_sub_hspace_wsfree flag w Hw).
    apply re_sub_hspace_wsfree, lower_wsfree, Hw.
  - rewrite (lower_space _ laws) by exact Hc.
    rewrite (re_sub_hspace_word flag w) by exact Hw.
    rewrite (re_sub_hspace_word flag (lower w)) by (apply lower_wsfree, Hw).
    assert (Hflag : match lower w with [] => flag | _ => false end =
                    match w with [] => flag | _ => false end).
    { pose proof (lower_empty w Hw) as He.
      destruct w as [|d w]; [rewrite (proj2 He eq_refl); reflexivity|].
      destruct (lower (d :: w)); [|reflexivity].
      destruct He as [He _]. discriminate (He eq_refl). }
    rewrite Hflag. set (f := match w with [] => flag | _ => false end).
    assert (Hf : f = true -> w = []).
    { unfold f. destruct w; [reflexivity | discriminate]. }
    simpl. destruct (re_hspace c) eqn:Hh.
    + destruct f.
      * rewrite (Hf eq_refl), (lower_nil _ laws). simpl. apply IH.
      * rewrite IH. symmetry. apply (lower_space _ laws). reflexivity.
    + rewrite IH. symmetry. apply (lower_space _ laws). exact Hc.
Qed.

Lemma lower_str_lstrip s : str_lstrip (lower s) = lower (str_lstrip s).
Proof.
  induction s as [w Hw|w c r Hw Hc IH] using word_ind.
  - rewrite (str_lstrip_wsfree w Hw). apply str_lstrip_wsfree, lower_wsfree, Hw.
  - rewrite (lower_space _ laws) by exact Hc.
    destruct w as [|d w].
    + rewrite (lower_nil _ laws). simpl. rewrite Hc. exact IH.
    + rewrite (str_lstrip_word (d :: w)) by (exact Hw || discriminate).
      rewrite (lower_space _ laws) by exact Hc.
      apply str_lstrip_word; [apply lower_wsfree, Hw|].
      intros He. apply (lower_empty _ Hw) in He. discriminate He.
Qed.

Lemma lower_str_rstrip s : str_rstrip (lower s) = lower (str_rstrip s).
Proof.
  induction s as [w Hw|r c w Hw Hc IH] using word_ind_r.
  - rewrite (str_rstrip_wsfree w Hw). apply str_rstrip_wsfree, lower_wsfree, Hw.
  - rewrite (lower_space _ laws) by exact Hc.
    rewrite !str_rstrip_app.
    destruct w as [|d w].
    + rewrite (lower_nil _ laws). rewrite (str_rstrip_space c Hc). exact IH.
    + assert (Hk : forall v, wsfree v -> v <> [] -> str_rstrip (c :: v) = c :: v).
      { intros v Hv Hne. simpl. rewrite (str_rstrip_wsfree v Hv).
        destruct v; [congruence | reflexivity]. }
      rewrite (Hk (d :: w)) by (exact Hw || discriminate).
      rewrite Hk; [symmetry; apply (lower_space _ laws); exact Hc
                  | apply lower_wsfree, Hw |].
      intros He. apply (lower_empty _ Hw) in He. discriminate He.
Qed.

Lemma lower_scrub s : scrub (lower s) = lower (scrub s).
Proof.
  unfold scrub, str_strip.
  rewrite lower_replace_nbsp, lower_re_sub_hspace, lower_str_lstrip, lower_str_rstrip.
  reflexivity.
Qed.

End Lower.

(** *** A scrubbed text is left alone by the three passes *)

Lemma tidy_weaken s : tidy true s = true -> tidy false s = true.
Proof.
  destruct s as [|c s]; [reflexivity|]. simpl.
  destruct (re_hspace c); [|trivial].
  rewrite andb_false_r. discriminate.
Qed.

Lemma tidy_re_sub_hspace flag s : tidy flag (re_sub_hspace flag s) = true.
Proof.
  revert flag. induction s as [|c s IH]; intros flag; [reflexivity|].
  simpl. destruct (re_hspace c) eqn:Hc.
  - destruct flag; [apply IH|]. simpl. apply IH.
  - simpl. rewrite Hc. apply IH.
Qed.

Lemma re_sub_hspace_tidy s :
  (tidy true s = true -> forall flag, re_sub_hspace flag s = s) /\
  (tidy false s = true -> re_sub_hspace false s = s).
Proof.
  induction s as [|c s [IHt IHf]]; [split; reflexivity|].
  simpl. destruct (re_hspace c) eqn:Hc.
  - split; [rewrite andb_false_r; discriminate|].
    rewrite andb_true_r. intros [Hsp Ht]%andb_prop.
    apply Z.eqb_eq in Hsp. subst c. f_equal. apply IHt, Ht.
  - split; [intros Ht flag | intros Ht]; f_equal; apply IHf, Ht.
Qed.

Lemma tidy_str_lstrip flag s : tidy flag s = true -> tidy false (str_lstrip s) = true.
Proof.
  revert flag. induction s as [|c s IH]; intros flag Ht; [reflexivity|].
  simpl. destruct (py_isspace c) eqn:Hc.
  - simpl in Ht. destruct (re_hspace c).
    + apply andb_prop in Ht as [_ Ht]. exact (IH true Ht).
    + exact (IH false Ht).
  - simpl in *. rewrite (re_hspace_wsfree c Hc) in *. exact Ht.
Qed.

Lemma tidy_prefix flag a b : tidy flag (a ++ b) = true -> tidy flag a = true.
Proof.
  revert flag. induction a as [|c a IH]; intros flag Ht; [reflexivity|].
  simpl in *. destruct (re_hspace c).
  - apply andb_prop in Ht as [H1 Ht]. rewrite H1. exact (IH true Ht).
  - exact (IH false Ht).
Qed.

Lemma str_rstrip_prefix s : exists t, s = str_rstrip s ++ t.
Proof.
  induction s as [|c s [t IH]]; [exists []; reflexivity|].
  simpl. destruct (str_rstrip s) as [|d kept].
  - destruct (py_isspace c); [exists (c :: s) | exists s]; reflexivity.
  - exists t. simpl in *. congruence.
Qed.

Lemma tidy_str_rstrip flag s : tidy flag s = true -> tidy flag (str_rstrip s) = true.
Proof.
  intros Ht. destruct (str_rstrip_prefix s) as [t Hs].
  rewrite Hs in Ht. exact (tidy_prefix _ _ _ Ht).
Qed.

Lemma str_rstrip_idem s : str_rstrip (str_rstrip s) = str_rstrip s.
Proof.
  induction s as [|c s IH]; [reflexivity|].
  simpl. destruct (str_rstrip s) as [|d kept] eqn:Hs.
  - destruct (py_isspace c) eqn:Hc; [reflexivity|]. simpl. rewrite Hc. reflexivity.
  - change (str_rstrip (c :: d :: kept)) with
      (match str_rstrip (d :: kept) with
       | [] => if py_isspace c then [] else [c]
       | k => c :: k
       end).
    rewrite IH. reflexivity.
Qed.

Lemma str_lstrip_head s :
  str_lstrip s = [] \/ exists c t, str_lstrip s = c :: t /\ py_isspace c = false.
Proof.
  induction s as [|c s IH]; [left; reflexivity|].
  simpl. destruct (py_isspace c) eqn:Hc; [exact IH|].
  right. exists c, s. split; [reflexivity | exact Hc].
Qed.

Lemma str_strip_fixed s :
  str_lstrip (str_strip s) = str_strip s /\ str_rstrip (str_strip s) = str_strip s.
Proof.
  unfold str_strip. split; [|apply str_rstrip_idem].
  destruct (str_lstrip_head s) as [->|(c & t & -> & Hc)]; [reflexivity|].
  simpl. destruct (str_rstrip t); rewrite ?Hc; simpl; rewrite Hc; reflexivity.
Qed.

Lemma Forall_str_lstrip (P : Z -> Prop) s : Forall P s -> Forall P (str_lstrip s).
Proof.
  induction 1 as [|c s Hc Hs IH]; [constructor|].
  simpl. destruct (py_isspace c); [exact IH | constructor; assumption].
Qed.

Lemma Forall_str_rstrip (P : Z -> Prop) s : Forall P s -> Forall P (str_rstrip s).
Proof.
  intros Hs. destruct (str_rstrip_prefix s) as [t Ht].
  rewrite Ht in Hs. apply Forall_app in Hs. tauto.
Qed.

Lemma Forall_re_sub_hspace (P : Z -> Prop) flag s :
  P 32 -> Forall P s -> Forall P (re_sub_hspace flag s).
Proof.
  intros Hsp Hs. revert flag. induction Hs as [|c s Hc Hs IH]; intros flag; [constructor|].
  simpl. destruct (re_hspace c); [destruct flag|]; try constructor; auto.
Qed.

Lemma replace_nbsp_none s : Forall (fun c => c <> 160) (replace_nbsp s).
Proof.
  induction s as [|c s IH]; [constructor|].
  simpl. constructor; [|exact IH].
  destruct (Z.eqb_spec c 160); [discriminate | assumption].
Qed.

Lemma replace_nbsp_fixed s : Forall (fun c => c <> 160) s -> replace_nbsp s = s.
Proof.
  induction 1 as [|c s Hc _ IH]; [reflexivity|].
  simpl. rewrite IH. destruct (Z.eqb_spec c 160); [contradiction | reflexivity].
Qed.

Lemma scrub_idem s : scrub (scrub s) = scrub s.
Proof.
  assert (Hnb : replace_nbsp (scrub s) = scrub s).
  { apply replace_nbsp_fixed. unfold scrub, str_strip.
    apply Forall_str_rstrip, Forall_str_lstrip, Forall_re_sub_hspace;
      [discriminate | apply replace_nbsp_none]. }
  assert (Hre : re_sub_hspace false (scrub s) = scrub s).
  { apply re_sub_hspace_tidy. unfold scrub, str_strip.
    apply tidy_str_rstrip. eapply tidy_str_lstrip. apply tidy_re_sub_hspace. }
  unfold scrub at 1. rewrite Hnb, Hre.
  unfold str_strip. unfold scrub.
  destruct (str_strip_fixed (re_sub_hspace false (replace_nbsp s))) as [-> ->].
  reflexivity.
Qed.

Lemma scrub_allspace s : allspace s -> scrub s = [].
Proof.
  intros Hs. unfold scrub, str_strip.
  assert (Hall : allspace (re_sub_hspace false (replace_nbsp s))).
  { apply Forall_re_sub_hspace; [reflexivity|].
    induction Hs as [|c s Hc _ IH]; [constructor|].
    simpl. constructor; [|exact IH].
    destruct (Z.eqb_spec c 160); [reflexivity | exact Hc]. }
  induction Hall as [|c t Hc _ IH]; [reflexivity|].
  simpl. rewrite Hc. exact IH.
Qed.

Lemma normalize_text_scrub `{PyRuntime} value :
  normalize_text value = str_lower (scrub (seq_or value [])).
Proof. reflexivity. Qed.

Lemma seq_or_some {A} (l : list A) : seq_or (Some l) [] = l.
Proof. destruct l; reflexivity. Qed.

(** C3: [normalize_text] is idempotent, and it maps every input made of
    whitespace only, the empty string and the absent input included, to
    the empty string. *)
Theorem normalize_text_idempotent `{PyRuntime} :
  LowerLaws str_lower ->
  (forall x, normalize_text (Some (normalize_text x)) = normalize_text x) /\
  (forall x, allspace x -> normalize_text (Some x) = []) /\
  normalize_text None = [].
Proof.
  intros laws. split; [|split].
  - intros x. rewrite !normalize_text_scrub, seq_or_some.
    rewrite (lower_scrub _ laws), scrub_idem. apply (lower_idem _ laws).
  - intros x Hx. rewrite normalize_text_scrub, seq_or_some.
    rewrite (scrub_allspace x Hx). apply (lower_nil _ laws).
  - rewrite normalize_text_scrub. simpl.
    change (scrub []) with (@nil Z). apply (lower_nil _ laws).
Qed.

(** The ASCII lower-casing of the examples obeys the laws. *)
Lemma ascii_lower_laws : LowerLaws ascii_lower.
Proof.
  assert (Hch : forall c, py_isspace c = false ->
            py_isspace (if (65 <=? c) && (c <=? 90) then c + 32 else c) = false).
  { intros c Hc. destruct ((65 <=? c) && (c <=? 90)) eqn:E; [|exact Hc].
    apply andb_prop in E as [E1 E2]. apply Z.leb_le in E1, E2.
    unfold py_isspace.
    repeat match goal with
           | |- context [?a <=? ?b] => destruct (Z.leb_spec a b); try lia
           | |- context [?a =? ?b] => destruct (Z.eqb_spec a b); try lia
           end; reflexivity. }
  assert (Hsp : forall c, py_isspace c = true ->
            (if (65 <=? c) && (c <=? 90) then c + 32 else c) = c).
  { intros c Hc. destruct ((65 <=? c) && (c <=? 90)) eqn:E; [|reflexivity].
    apply andb_prop in E as [E1 E2]. apply Z.leb_le in E1, E2.
    exfalso. revert Hc. unfold py_isspace.
    repeat match goal with
           | |- context [?a <=? ?b] => destruct (Z.leb_spec a b); try lia
           | |- context [?a =? ?b] => destruct (Z.eqb_spec a b); try lia
           end; discriminate. }
  split.
  - reflexivity.
  - intros s. unfold ascii_lower. rewrite map_map. apply map_ext. intros c.
    destruct ((65 <=? c) && (c <=? 90)) eqn:E; [|rewrite E; reflexivity].
    apply andb_prop in E as [E1 E2]. apply Z.leb_le in E1, E2.
    destruct (Z.leb_spec 65 (c + 32)), (Z.leb_spec (c + 32) 90); simpl; lia.
  - intros a c b Hc. unfold ascii_lower. rewrite map_app. simpl.
    rewrite (Hsp c Hc). reflexivity.
  - intros w Hne Hw. split.
    + destruct w; [congruence | discriminate].
    + unfold ascii_lower. apply Forall_map. simpl.
      eapply Forall_impl; [exact Hw|]. exact Hch.
Qed.

Lemma normalize_text_idempotent_witness :
  @normalize_text example_runtime
    (Some (@normalize_text example_runtime (Some (lit "  Foo  Bar ")))) =
  @normalize_text example_runtime (Some (lit "  Foo  Bar ")).
Proof.
  exact (proj1 (@normalize_text_idempotent example_runtime ascii_lower_laws)
               (Some (lit "  Foo  Bar "))).
Defined.

(** ** Counters: consistency *)

Lemma predict_judge_cases score human_threshold ai_threshold :
  predict_judge score human_threshold ai_threshold = "Human" \/
  predict_judge score human_threshold ai_threshold = "Unknown" \/
  predict_judge score human_threshold ai_threshold = "AI".
Proof.
  unfold predict_judge.
  destruct (score <? human_threshold)%float; [auto|].
  destruct (score <? ai_threshold)%float; auto.
Qed.

Lemma for_each_invariant {A S} (P : S -> Prop) (body : S -> A -> option S)
    (l : list A) (s r : S) :
  (forall s x s', P s -> body s x = Some s' -> P s') ->
  P s -> for_each body l s = Some r -> P r.
Proof.
  intros Hstep. revert s. induction l as [|x l IH]; intros s Hs Hr; simpl in Hr.
  - congruence.
  - destruct (body s x) as [s'|] eqn:Hb; [|discriminate Hr].
    exact (IH s' (Hstep _ _ _ Hs Hb) Hr).
Qed.

Lemma consistent_zero : consistent zero_result.
Proof. unfold consistent. simpl. lia. Qed.

Lemma consistent_count_row acc gt is_japanese score pred :
  pred = "Human" \/ pred = "Unknown" \/ pred = "AI" ->
  consistent acc -> consistent (count_row acc gt is_japanese score pred).
Proof.
  unfold consistent, count_row. intros Hpred Hacc. simpl.
  destruct is_japanese;
    destruct Hpred as [-> | [-> | ->]];
    repeat case_bool_decide; try discriminate; simplify_eq;
    unfold incr_if; simpl; lia.
Qed.

Lemma eval_row_count `{PyRuntime} actual actual_ja ht aiT htj atj acc row acc' :
  eval_row actual actual_ja ht aiT htj atj acc row = Some acc' ->
  exists score pred,
    (pred = "Human" \/ pred = "Unknown" \/ pred = "AI") /\
    acc' = count_row acc row.1 (is_likely_japanese_text row.2) score pred.
Proof.
  unfold eval_row. destruct row as [gt text]. simpl.
  destruct (match actual_ja with
            | Some ja =>
                if is_likely_japanese_text text
                then (ja, default ht htj, default aiT atj)
                else (actual, ht, aiT)
            | None => (actual, ht, aiT)
            end) as [[row_model row_ht] row_at].
  destruct (compute_score text row_model) as [score|]; [|discriminate].
  simpl. intros Heq. injection Heq as <-.
  exists score, (predict_judge score row_ht row_at).
  split; [apply predict_judge_cases | reflexivity].
Qed.

Lemma counter_get_add_eq `{Countable K} (c : gmap K Z) k v :
  counter_get (counter_add c k v) k = counter_get c k + v.
Proof. unfold counter_get, counter_add. rewrite lookup_insert_eq. reflexivity. Qed.

Lemma counter_get_add_ne `{Countable K} (c : gmap K Z) k k' v :
  k <> k' -> counter_get (counter_add c k v) k' = counter_get c k'.
Proof. intros Hne. unfold counter_get, counter_add. rewrite lookup_insert_ne by exact Hne. reflexivity. Qed.

(** Merging adds the part to the accumulator, entry by entry. *)
Lemma state_view_merge state part :
  state_view (merge_partial_result state part) = pr_add (state_view state) part.
Proof.
  unfold state_view, merge_partial_result, pr_add. simpl.
  f_equal;
    repeat first [ rewrite counter_get_add_eq
                 | rewrite counter_get_add_ne by discriminate ];
    reflexivity.
Qed.

Lemma consistent_pr_add a b : consistent a -> consistent b -> consistent (pr_add a b).
Proof. unfold consistent. simpl. lia. Qed.

(** C10: every partial result of [evaluate_valid_rows] is consistent
    (total = gt_ai + gt_human = the three prediction counts = the six
    confusion cells = jp_rows + non_jp_rows, decided_rows = pred_ai +
    pred_human, decided_correct <= decided_rows <= total, strict_correct
    = its two language shares <= total); merging a consistent part into
    a consistent accumulator keeps it consistent, and the fresh
    accumulator is consistent. *)
Theorem counters_consistent `{PyRuntime} :
  (forall globals rows human_threshold ai_threshold model model_ja
          human_threshold_ja ai_threshold_ja part,
     evaluate_valid_rows globals rows human_threshold ai_threshold model model_ja
       human_threshold_ja ai_threshold_ja = Some part ->
     consistent part) /\
  (forall state part,
     consistent (state_view state) -> consistent part ->
     consistent (state_view (merge_partial_result state part))) /\
  consistent (state_view new_state).
Proof.
  split; [|split].
  - intros globals rows ht aiT model model_ja htj atj part.
    unfold evaluate_valid_rows.
    destruct (match model with Some m => Some m | None => WORKER_MODEL globals end)
      as [actual|]; [|discriminate].
    apply for_each_invariant; [|apply consistent_zero].
    intros acc row acc' Hacc Hrow.
    apply eval_row_count in Hrow as (score & pred & Hpred & ->).
    apply consistent_count_row; assumption.
  - intros state part Hs Hp. rewrite state_view_merge.
    apply consistent_pr_add; assumption.
  - unfold consistent. simpl. unfold counter_get. rewrite !lookup_empty. simpl. lia.
Qed.

Lemma counters_consistent_witness :
  consistent
    (state_view
       (merge_partial_result new_state
          (count_row zero_result "Human" false 0.5 "Unknown"))).
Proof.
  apply (proj1 (proj2 (@counters_consistent example_runtime))).
  - apply (proj2 (proj2 (@counters_consistent example_runtime))).
  - apply (proj1 (@counters_consistent example_runtime) no_globals [row_short]
             DEFAULT_HUMAN_THRESHOLD DEFAULT_AI_THRESHOLD (Some tiny_model) None None None).
    vm_compute. reflexivity.
Defined.

(** ** Counters: merging in any order *)

Ltac vec :=
  unfold vadd, counters in *; simpl in *; simplify_eq;
  repeat (f_equal; try lia).

Lemma vadd_comm a b : vadd a b = vadd b a.
Proof.
  unfold vadd. revert b. induction a as [|x a IH]; intros [|y b]; simpl; try reflexivity.
  rewrite IH. f_equal. lia.
Qed.

Lemma vadd_assoc a b c : vadd (vadd a b) c = vadd a (vadd b c).
Proof.
  unfold vadd. revert b c.
  induction a as [|x a IH]; intros [|y b] [|z c]; simpl; try reflexivity.
  rewrite IH. f_equal. lia.
Qed.

Lemma vadd_swap a b c : vadd (vadd a b) c = vadd (vadd c b) a.
Proof. rewrite vadd_assoc, vadd_comm, (vadd_comm b c). reflexivity. Qed.

Lemma fold_left_vadd_shift (l : list (list Z)) a b :
  fold_left vadd l (vadd a b) = vadd (fold_left vadd l a) b.
Proof.
  revert a. induction l as [|x l IH]; intros a; [reflexivity|].
  simpl. rewrite <- IH. f_equal.
  rewrite !vadd_assoc. f_equal. apply vadd_comm.
Qed.

Lemma fold_left_vadd_perm (l l' : list (list Z)) (a : list Z) :
  l ≡ₚ l' -> fold_left vadd l a = fold_left vadd l' a.
Proof.
  intros Hperm. revert a.
  induction Hperm as [|x l l' _ IH|x y l|l l' l'' _ IH1 _ IH2]; intros a; simpl.
  - reflexivity.
  - apply IH.
  - f_equal. rewrite !vadd_assoc. f_equal. apply vadd_comm.
  - rewrite IH1. apply IH2.
Qed.

Lemma counters_pr_add a b : counters (pr_add a b) = vadd (counters a) (counters b).
Proof. reflexivity. Qed.

Lemma counters_merge_fold parts state :
  counters (state_view (fold_left merge_partial_result parts state)) =
  fold_left vadd (map counters parts) (counters (state_view state)).
Proof.
  revert state. induction parts as [|p parts IH]; intros state; [reflexivity|].
  simpl. rewrite IH, state_view_merge, counters_pr_add. reflexivity.
Qed.

Lemma counters_new_state : counters (state_view new_state) = counters zero_result.
Proof. reflexivity. Qed.

Section Chunks.
Context `{PyRuntime}.
Variables (actual : Model) (actual_ja : option Model).
Variables (human_threshold ai_threshold : float).
Variables (human_threshold_ja ai_threshold_ja : option float).

Let body := eval_row actual actual_ja human_threshold ai_threshold
                     human_threshold_ja ai_threshold_ja.

(** What a row adds does not depend on the counters so far. *)
Lemma eval_row_outcome row :
  exists outcome : option (float * string),
    forall acc,
      body acc row =
      match outcome with
      | Some (score, pred) =>
          Some (count_row acc row.1 (is_likely_japanese_text row.2) score pred)
      | None => None
      end.
Proof.
  unfold body, eval_row. destruct row as [gt text]. simpl.
  destruct (match actual_ja with
            | Some ja =>
                if is_likely_japanese_text text
                then (ja, default human_threshold human_threshold_ja,
                          default ai_threshold ai_threshold_ja)
                else (actual, human_threshold, ai_threshold)
            | None => (actual, human_threshold, ai_threshold)
            end) as [[row_model row_ht] row_at].
  destruct (compute_score text row_model) as [score|].
  - exists (Some (score, predict_judge score row_ht row_at)). reflexivity.
  - exists None. reflexivity.
Qed.

Lemma incr_if_shift cond n : incr_if cond n = n + incr_if cond 0.
Proof. destruct cond; simpl; lia. Qed.

Lemma counters_count_row acc gt is_japanese score pred :
  counters (count_row acc gt is_japanese score pred) =
  vadd (counters acc) (counters (count_row zero_result gt is_japanese score pred)).
Proof.
  unfold count_row, counters, vadd. cbn -[incr_if Z.add].
  repeat (apply (f_equal2 cons); [first [apply incr_if_shift | reflexivity]|]).
  reflexivity.
Qed.

Lemma eval_row_shift acc acc' row r :
  body acc row = Some r ->
  exists r', body acc' row = Some r' /\
             vadd (counters r) (counters acc') = vadd (counters r') (counters acc).
Proof.
  destruct (eval_row_outcome row) as [[[score pred]|] Hout]; rewrite !Hout;
    [|discriminate].
  intros Heq. injection Heq as <-. eexists. split; [reflexivity|].
  rewrite (counters_count_row acc), (counters_count_row acc').
  apply vadd_swap.
Qed.
End Chunks.

Section Evaluate.
Context `{PyRuntime}.
Variables (globals : WorkerGlobals) (model model_ja : option Model).
Variables (human_threshold ai_threshold : float).
Variables (human_threshold_ja ai_threshold_ja : option float).

Let evaluate rows :=
  evaluate_valid_rows globals rows human_threshold ai_threshold model model_ja
    human_threshold_ja ai_threshold_ja.

Lemma for_each_eval_shift actual actual_ja rows acc acc' r :
  for_each (eval_row actual actual_ja human_threshold ai_threshold
              human_threshold_ja ai_threshold_ja) rows acc = Some r ->
  exists r',
    for_each (eval_row actual actual_ja human_threshold ai_threshold
                human_threshold_ja ai_threshold_ja) rows acc' = Some r' /\
    vadd (counters r) (counters acc') = vadd (counters r') (counters acc).
Proof.
  revert acc acc'. induction rows as [|row rows IH]; intros acc acc' Hr;
    cbn [for_each] in *.
  - injection Hr as <-. exists acc'. split; [reflexivity | apply vadd_comm].
  - destruct (eval_row _ _ _ _ _ _ acc row) as [a1|] eqn:Hrow; [|discriminate Hr].
    simpl in Hr.
    destruct (eval_row_shift _ _ _ _ _ _ acc acc' row a1 Hrow) as (a1' & -> & Ha).
    simpl. destruct (IH a1 a1' Hr) as (r' & Hr' & Hsum).
    exists r'. split; [exact Hr' | vec].
Qed.

(** [evaluate_valid_rows] distributes over concatenation, on the
    integer counters. *)
Lemma evaluate_app rows1 rows2 whole :
  evaluate (rows1 ++ rows2) = Some whole ->
  exists part1 part2,
    evaluate rows1 = Some part1 /\ evaluate rows2 = Some part2 /\
    counters whole = vadd (counters part1) (counters part2).
Proof.
  unfold evaluate, evaluate_valid_rows.
  destruct (match model with Some m => Some m | None => WORKER_MODEL globals end)
    as [actual|]; [|discriminate].
  rewrite for_each_app.
  destruct (for_each _ rows1 zero_result) as [part1|] eqn:H1; [|discriminate].
  simpl. intros H2.
  destruct (for_each_eval_shift _ _ _ _ zero_result _ H2) as (part2 & Hp2 & Hsum).
  exists part1, part2. split; [reflexivity|]. split; [exact Hp2|]. vec.
Qed.

Lemma evaluate_chunks chunks whole :
  evaluate (concat chunks) = Some whole ->
  exists parts,
    Forall2 (fun chunk part => evaluate chunk = Some part) chunks parts /\
    fold_left vadd (map counters parts) (counters zero_result) = counters whole.
Proof.
  revert whole. induction chunks as [|chunk chunks IH]; intros whole Hw; simpl in Hw.
  - exists []. split; [constructor|].
    unfold evaluate, evaluate_valid_rows in Hw.
    destruct (match model with Some m => Some m | None => WORKER_MODEL globals end);
      [|discriminate].
    simpl in Hw. injection Hw as <-. reflexivity.
  - apply evaluate_app in Hw as (part & rest & Hpart & Hrest & Hsum).
    destruct (IH rest Hrest) as (parts & Hparts & Hfold).
    exists (part :: parts). split; [constructor; assumption|].
    cbn [map fold_left]. rewrite fold_left_vadd_shift, Hfold, Hsum.
    apply vadd_comm.
Qed.

(** C1 (amended): if the whole dataset of valid rows is evaluated by a
    single worker, every chunk of every partitioning of it is evaluated
    too, and merging the partial results in any order yields exactly
    the integer counters of the single evaluation; merging two parts in
    either order, or their sum at once, gives the same integer
    counters. (The float [score_sum] is left out.) *)
Theorem merge_counters_order_independent chunks whole :
  evaluate (concat chunks) = Some whole ->
  (exists parts,
     Forall2 (fun chunk part => evaluate chunk = Some part) chunks parts /\
     forall order,
       order ≡ₚ parts ->
       counters (state_view (fold_left merge_partial_result order new_state)) =
       counters whole) /\
  (forall state p q,
     counters (state_view (merge_partial_result (merge_partial_result state p) q)) =
     counters (state_view (merge_partial_result (merge_partial_result state q) p)) /\
     counters (state_view (merge_partial_result (merge_partial_result state p) q)) =
     counters (state_view (merge_partial_result state (pr_add p q)))).
Proof.
  intros Hw. split.
  - destruct (evaluate_chunks chunks whole Hw) as (parts & Hparts & Hfold).
    exists parts. split; [exact Hparts|].
    intros order Hperm.
    rewrite counters_merge_fold, counters_new_state, <- Hfold.
    apply fold_left_vadd_perm. rewrite Hperm. reflexivity.
  - intros state p q. rewrite !state_view_merge, !counters_pr_add. split.
    + rewrite !vadd_assoc. f_equal. apply vadd_comm.
    + apply vadd_assoc.
Qed.
End Evaluate.

Lemma merge_counters_order_independent_witness :
  exists parts,
    Forall2 (fun chunk part => evaluate_example chunk = Some part)
            [[row_short]; [row_low; row_low]] parts /\
    forall order,
      order ≡ₚ parts ->
      counters (state_view (fold_left merge_partial_result order new_state)) =
      counters whole_example.
Proof.
  exact (proj1 (@merge_counters_order_independent example_runtime no_globals
                  (Some tiny_model) None DEFAULT_HUMAN_THRESHOLD DEFAULT_AI_THRESHOLD
                  None None [[row_short]; [row_low; row_low]] whole_example eq_refl)).
Defined.

(** C1, as stated, fails on the float [score_sum]: the three rows score
    0.5, exp(-38) and exp(-38); a single worker adds them one by one
    and stays at 0.5, while the chunks [[row_short]] and
    [[row_low; row_low]] merge to the next float above 0.5; and three
    one-row parts merge to different sums in different orders. *)
Lemma score_sum_depends_on_chunking :
  exists whole part1 part2 low,
    evaluate_example [row_short; row_low; row_low] = Some whole /\
    evaluate_example [row_short] = Some part1 /\
    evaluate_example [row_low; row_low] = Some part2 /\
    evaluate_example [row_low] = Some low /\
    p_score_sum (state_view (fold_left merge_partial_result [part1; part2] new_state))
      <> p_score_sum whole /\
    p_score_sum (state_view (fold_left merge_partial_result [low; low; part1] new_state))
      <> p_score_sum (state_view (fold_left merge_partial_result [part1; low; low] new_state)).
Proof.
  do 4 eexists. repeat split; try (vm_compute; reflexivity).
  - intros Heq. apply (f_equal (fun x => PrimFloat.eqb x 0.5)) in Heq.
    vm_compute in Heq. discriminate Heq.
  - intros Heq. apply (f_equal (fun x => PrimFloat.eqb x 0.5)) in Heq.
    vm_compute in Heq. discriminate Heq.
Qed.

(** ** Scoring never fails on an accepted model *)

Lemma bucket_incr_keys (P : Z -> Prop) counts idx :
  P idx -> Forall (fun kv => P kv.1) counts ->
  Forall (fun kv => P kv.1) (bucket_incr counts idx).
Proof.
  intros Hidx. induction 1 as [|[k n] counts Hk Hc IH]; simpl.
  - repeat constructor. exact Hidx.
  - destruct (k =? idx); constructor; assumption.
Qed.

Lemma for_each_invariant_total {A S} (P : S -> Prop) (body : S -> A -> option S)
    (l : list A) (s : S) :
  (forall s x, x ∈ l -> P s -> exists s', body s x = Some s' /\ P s') ->
  P s -> exists r, for_each body l s = Some r /\ P r.
Proof.
  revert s. induction l as [|x l IH]; intros s Hstep Hs; simpl.
  - exists s. split; [reflexivity | exact Hs].
  - destruct (Hstep s x) as (s' & -> & Hs'); [left | exact Hs |].
    simpl. apply IH; [|exact Hs'].
    intros s0 y Hy. apply Hstep. right. exact Hy.
Qed.

Lemma compute_score_total `{PyRuntime} (model : Model) (text : pystr) :
  model_ok model -> exists score, compute_score text model = Some score.
Proof.
  intros [Hdim Hlen]. unfold compute_score.
  replace (Z.max 1 (m_dim model)) with (m_dim model) by lia.
  set (n := normalize_text (Some text)).
  set (limit := Z.min (len n) (Z.max 200 (m_max_chars model))).
  destruct (len n <? 3); [eexists; reflexivity|].
  destruct (m_params model) as [prior delta|bias weights].
  - destruct (for_each_invariant_total (fun _ => True)
                (fun logit i =>
                   idx ← hash_trigram n i (m_dim model);
                   d ← py_getitem delta idx; Some (logit + d)%float)
                (py_range (limit - 2)) prior) as (logit & -> & _); [|exact I|].
    + intros logit i Hi _. apply elem_of_py_range in Hi.
      destruct (hash_trigram_window n i (m_dim model)) as [-> Hb]; [lia ..|].
      set (b := trigram_bucket n i (m_dim model)) in *.
      simpl. rewrite py_getitem_nonneg by lia.
      destruct (lookup_lt_is_Some_2 delta (Z.to_nat b)) as [d ->]; [lia|].
      simpl. eexists. split; [reflexivity | exact I].
    + simpl. eexists. reflexivity.
  - destruct (for_each_invariant_total
                (Forall (fun kv : Z * Z => 0 <= kv.1 < m_dim model))
                (fun counts i =>
                   idx ← hash_trigram n i (m_dim model);
                   Some (bucket_incr counts idx))
                (py_range (limit - 2)) []) as (counts & -> & Hkeys);
      [|constructor|].
    + intros counts i Hi Hc. apply elem_of_py_range in Hi.
      destruct (hash_trigram_window n i (m_dim model)) as [-> Hb]; [lia ..|].
      simpl. eexists. split; [reflexivity|].
      apply (bucket_incr_keys (fun k => 0 <= k < m_dim model)); assumption.
    + simpl.
      destruct (for_each_invariant_total (fun _ => True)
                  (fun logit '(idx, count) =>
                     w ← py_getitem weights idx;
                     Some (logit + w * (float_of_int count /
                             float_of_int (Z.max 1 (limit - 2))))%float)
                  counts bias) as (logit & -> & _); [|exact I|].
      * intros logit [idx count] Hin _.
        rewrite Forall_forall in Hkeys. specialize (Hkeys _ Hin). simpl in Hkeys.
        rewrite py_getitem_nonneg by lia.
        destruct (lookup_lt_is_Some_2 weights (Z.to_nat idx)) as [w ->]; [lia|].
        simpl. eexists. split; [reflexivity | exact I].
      * simpl. eexists. reflexivity.
Qed.

Section Totality.
Context `{PyRuntime}.
Variables (actual : Model) (actual_ja : option Model).
Variables (human_threshold ai_threshold : float).
Variables (human_threshold_ja ai_threshold_ja : option float).
Hypothesis actual_ok : model_ok actual.
Hypothesis actual_ja_ok : forall ja, actual_ja = Some ja -> model_ok ja.

Lemma eval_row_total acc row :
  exists acc',
    eval_row actual actual_ja human_threshold ai_threshold
             human_threshold_ja ai_threshold_ja acc row = Some acc' /\
    p_total acc' = p_total acc + 1.
Proof.
  unfold eval_row. destruct row as [gt text].
  assert (Hm : model_ok
                 (match actual_ja with
                  | Some ja =>
                      if is_likely_japanese_text text
                      then (ja, default human_threshold human_threshold_ja,
                                default ai_threshold ai_threshold_ja)
                      else (actual, human_threshold, ai_threshold)
                  | None => (actual, human_threshold, ai_threshold)
                  end).1.1).
  { destruct actual_ja as [ja|]; [|exact actual_ok].
    destruct (is_likely_japanese_text text); [apply actual_ja_ok; reflexivity|].
    exact actual_ok. }
  destruct (match actual_ja with
            | Some ja =>
                if is_likely_japanese_text text
                then (ja, default human_threshold human_threshold_ja,
                          default ai_threshold ai_threshold_ja)
                else (actual, human_threshold, ai_threshold)
            | None => (actual, human_threshold, ai_threshold)
            end) as [[row_model row_ht] row_at].
  simpl in Hm. destruct (compute_score_total row_model text Hm) as [score ->].
  simpl. eexists. split; reflexivity.
Qed.

Lemma for_each_eval_total rows acc :
  exists r,
    for_each (eval_row actual actual_ja human_threshold ai_threshold
                       human_threshold_ja ai_threshold_ja) rows acc = Some r /\
    p_total r = p_total acc + len rows.
Proof.
  revert acc. induction rows as [|row rows IH]; intros acc.
  - exists acc. split; [reflexivity | simpl; lia].
  - destruct (eval_row_total acc row) as (acc' & Hrow & Ht).
    destruct (IH acc') as (r & Hr & Htot).
    exists r. cbn [for_each]. rewrite Hrow. simpl. split; [exact Hr|].
    rewrite Htot, Ht. simpl length. lia.
Qed.
End Totality.

(** ** The filter *)

Section Filter.
Context `{PyRuntime}.
Variable max_rows : Z.

(** One iteration of the loop of [select_valid_rows]: a skipped row
    only adds to [skipped]; a valid one is appended and counted, and
    ends the loop when it fills the budget. *)
Lemma select_loop_cons row rest valid accepted skipped :
  select_loop (row :: rest) max_rows valid accepted skipped =
  if is_skipped row then select_loop rest max_rows valid accepted (skipped + 1)
  else if (0 <? max_rows) && (max_rows <=? accepted + 1)
       then (valid ++ [entry row], accepted + 1, skipped, true)
       else select_loop rest max_rows (valid ++ [entry row]) (accepted + 1) skipped.
Proof.
  cbn [select_loop]. unfold is_skipped, entry, label_of.
  destruct (negb _) eqn:Hlabel; [reflexivity|].
  cbn [orb]. destruct (normalize_text _); reflexivity.
Qed.

Lemma select_loop_shift rows valid accepted skipped :
  select_loop rows max_rows valid accepted skipped =
  let '(v, a, s, stop) := select_loop rows max_rows [] accepted 0 in
  (valid ++ v, a, skipped + s, stop).
Proof.
  revert valid accepted skipped.
  induction rows as [|row rows IH]; intros valid accepted skipped.
  - cbn [select_loop]. rewrite app_nil_r, Z.add_0_r. reflexivity.
  - rewrite !select_loop_cons. destruct (is_skipped row).
    + rewrite (IH [] accepted (0 + 1)), (IH valid accepted (skipped + 1)).
      destruct (select_loop rows max_rows [] accepted 0) as [[[v a] s] stop].
      simpl. repeat (f_equal; try lia).
    + destruct ((0 <? max_rows) && (max_rows <=? accepted + 1)).
      * simpl. rewrite Z.add_0_r. reflexivity.
      * rewrite (IH ([] ++ [entry row]) (accepted + 1) 0),
                (IH (valid ++ [entry row]) (accepted + 1) skipped).
        destruct (select_loop rows max_rows [] (accepted + 1) 0) as [[[v a] s] stop].
        simpl. rewrite <- app_assoc. reflexivity.
Qed.

(** Filtering a batch and then the next one, from where the first one
    stopped, is filtering the two at once. *)
Lemma select_valid_rows_app rows1 rows2 accepted :
  select_valid_rows (rows1 ++ rows2) max_rows accepted =
  let '(v1, a1, s1, stop1) := select_valid_rows rows1 max_rows accepted in
  if stop1 then (v1, a1, s1, true)
  else
    let '(v2, a2, s2, stop2) := select_valid_rows rows2 max_rows a1 in
    (v1 ++ v2, a2, s1 + s2, stop2).
Proof.
  unfold select_valid_rows. revert accepted.
  induction rows1 as [|row rows1 IH]; intros accepted.
  - cbn [app select_loop].
    destruct (select_loop rows2 max_rows [] accepted 0) as [[[v a] s] stop].
    reflexivity.
  - rewrite <- app_comm_cons, !select_loop_cons. destruct (is_skipped row).
    + rewrite (select_loop_shift (rows1 ++ rows2)), (select_loop_shift rows1).
      rewrite IH.
      destruct (select_loop rows1 max_rows [] accepted 0) as [[[v1 a1] s1] stop1].
      destruct stop1; [simpl; reflexivity|].
      destruct (select_loop rows2 max_rows [] a1 0) as [[[v2 a2] s2] stop2].
      simpl. repeat (f_equal; try lia).
    + destruct ((0 <? max_rows) && (max_rows <=? accepted + 1)); [reflexivity|].
      rewrite (select_loop_shift (rows1 ++ rows2)), (select_loop_shift rows1).
      rewrite IH.
      destruct (select_loop rows1 max_rows [] (accepted + 1) 0) as [[[v1 a1] s1] stop1].
      destruct stop1; [simpl; reflexivity|].
      destruct (select_loop rows2 max_rows [] a1 0) as [[[v2 a2] s2] stop2].
      simpl. repeat (f_equal; try lia).
Qed.

(** With a budget that the stream can fill, the filter stops at the
    row that fills it. *)
Lemma select_valid_rows_budget stream accepted :
  0 < max_rows -> accepted < max_rows ->
  max_rows - accepted <= valid_count stream ->
  exists valid,
    select_valid_rows stream max_rows accepted =
      (valid, max_rows,
       len (filter (fun row => is_skipped row = true)
              (upto_valid (Z.to_nat (max_rows - accepted)) stream)),
       true) /\
    len valid = max_rows - accepted.
Proof.
  intros Hmax. unfold select_valid_rows, valid_count. revert accepted.
  induction stream as [|row stream IH]; intros accepted Hacc Hcount.
  - simpl in Hcount. lia.
  - rewrite select_loop_cons.
    destruct (Z.to_nat (max_rows - accepted)) as [|k'] eqn:Hk; [lia|].
    cbn [upto_valid]. rewrite filter_cons in Hcount.
    destruct (is_skipped row) eqn:Hrow.
    + rewrite decide_False in Hcount by discriminate.
      destruct (IH accepted Hacc Hcount) as (valid & Hsel & Hlen).
      rewrite select_loop_shift, Hsel. exists valid.
      rewrite Hk, filter_cons, decide_True by exact Hrow.
      split; [|exact Hlen]. simpl. repeat (f_equal; try lia).
    + rewrite decide_True in Hcount by reflexivity.
      rewrite filter_cons, decide_False by (rewrite Hrow; discriminate).
      destruct (Z.ltb_spec 0 max_rows); [|lia]. cbn [andb].
      destruct (Z.leb_spec max_rows (accepted + 1)).
      * exists [entry row]. assert (k' = 0%nat) as -> by lia.
        assert (accepted + 1 = max_rows) as -> by lia.
        split; [|simpl; lia].
        destruct stream; reflexivity.
      * simpl length in Hcount.
        destruct (IH (accepted + 1)) as (valid & Hsel & Hlen); [lia ..|].
        rewrite select_loop_shift, Hsel. exists (entry row :: valid).
        replace (Z.to_nat (max_rows - (accepted + 1))) with k' by lia.
        split; [|simpl length; lia]. simpl. reflexivity.
Qed.
End Filter.

(** ** The pool: whatever completes first, every future is merged once *)

Lemma extract_fmap {A B} (f : A -> B) (i : nat) (l : list A) :
  extract i (fmap (M:=list) f l) =
  fmap (M:=option) (fun xr : A * list A => (f xr.1, fmap (M:=list) f xr.2))
       (extract i l).
Proof.
  unfold extract. rewrite length_fmap, list_lookup_fmap.
  destruct (l !! _) as [x|]; [|reflexivity].
  simpl. rewrite list_fmap_delete. reflexivity.
Qed.

Lemma extract_perm {A} (i : nat) (l : list A) x rest :
  extract i l = Some (x, rest) -> l ≡ₚ x :: rest.
Proof.
  unfold extract. destruct (l !! _) as [y|] eqn:Hy; [|discriminate].
  simpl. intros Heq. injection Heq as <- <-. apply delete_Permutation, Hy.
Qed.

Lemma extract_is_Some {A} (i : nat) (l : list A) :
  l <> [] -> exists x rest, extract i l = Some (x, rest) /\ length l = S (length rest).
Proof.
  intros Hne. unfold extract.
  assert (Hlt : (i `mod` length l < length l)%nat).
  { apply Nat.mod_upper_bound. destruct l; [congruence | discriminate]. }
  destruct (lookup_lt_is_Some_2 l _ Hlt) as [x Hx].
  rewrite Hx. simpl. eexists _, _. split; [reflexivity|].
  rewrite length_delete by (eexists; exact Hx).
  destruct l; [congruence | simpl; lia].
Qed.

Lemma take_done_fmap {A B} (f : A -> B) positions (l : list A) :
  take_done positions (f <$> l) =
  (f <$> (take_done positions l).1, f <$> (take_done positions l).2).
Proof.
  revert l. induction positions as [|i positions IH]; intros l; [reflexivity|].
  cbn [take_done]. rewrite extract_fmap.
  destruct (extract i l) as [[x rest]|]; [|reflexivity].
  simpl. rewrite IH. destruct (take_done positions rest). reflexivity.
Qed.

Lemma take_done_perm {A} positions (l : list A) :
  l ≡ₚ (take_done positions l).1 ++ (take_done positions l).2.
Proof.
  revert l. induction positions as [|i positions IH]; intros l; [reflexivity|].
  cbn [take_done]. destruct (extract i l) as [[x rest]|] eqn:Hx; [|reflexivity].
  apply extract_perm in Hx. rewrite Hx, (IH rest) at 1.
  destruct (take_done positions rest). reflexivity.
Qed.

Lemma as_completed_from_fmap {A B} (f : A -> B) order k fuel (l : list A) :
  as_completed_from order k fuel (f <$> l) = f <$> as_completed_from order k fuel l.
Proof.
  revert k l. induction fuel as [|fuel IH]; intros k l; [reflexivity|].
  cbn [as_completed_from]. rewrite extract_fmap.
  destruct (extract (order k) l) as [[x rest]|]; [|reflexivity].
  simpl. rewrite IH. reflexivity.
Qed.

Lemma as_completed_from_perm {A} order k fuel (l : list A) :
  length l = fuel -> as_completed_from order k fuel l ≡ₚ l.
Proof.
  revert k l. induction fuel as [|fuel IH]; intros k l Hlen.
  - destruct l; [reflexivity | discriminate].
  - cbn [as_completed_from].
    destruct (extract_is_Some (order k) l) as (x & rest & Hx & Hl);
      [destruct l; [discriminate | congruence]|].
    rewrite Hx. rewrite IH by lia. symmetry. apply extract_perm in Hx. exact Hx.
Qed.

Lemma as_completed_fmap_perm {A B} (f : A -> B) sched (l : list A) :
  exists l', as_completed sched (f <$> l) = f <$> l' /\ l' ≡ₚ l.
Proof.
  unfold as_completed. rewrite length_fmap, as_completed_from_fmap.
  eexists. split; [reflexivity|]. apply as_completed_from_perm. reflexivity.
Qed.

Lemma merge_results_done state parts :
  merge_results state (Some <$> parts) = Some (fold_left merge_partial_result parts state).
Proof.
  unfold merge_results. revert state.
  induction parts as [|p parts IH]; intros state; [reflexivity|].
  cbn [fmap list_fmap for_each]. simpl. apply IH.
Qed.

Lemma st_skipped_merge_fold parts state :
  st_skipped (fold_left merge_partial_result parts state) = st_skipped state.
Proof.
  revert state. induction parts as [|p parts IH]; intros state; [reflexivity|].
  simpl. rewrite IH. reflexivity.
Qed.

Lemma state_view_add_skipped state skipped :
  state_view (add_skipped state skipped) = state_view state.
Proof. reflexivity. Qed.

Lemma vadd_zero_result state :
  vadd (counters (state_view state)) (counters zero_result) = counters (state_view state).
Proof. vec. Qed.

Arguments counters : simpl never.
Arguments vadd : simpl never.

Section Runs.
Context `{PyRuntime}.
Variables (model : Model) (model_ja : option Model).
Variables (human_threshold ai_threshold human_threshold_ja ai_threshold_ja : float).
Variable max_rows : Z.

Let evaluate rows :=
  evaluate_valid_rows no_globals rows human_threshold ai_threshold
    (Some model) model_ja (Some human_threshold_ja) (Some ai_threshold_ja).

(** A task of the pool computes what the same call computes in the
    controlling process. *)
Lemma evaluate_in_worker rows :
  evaluate_valid_rows (init_worker model model_ja) rows human_threshold ai_threshold
    None None (Some human_threshold_ja) (Some ai_threshold_ja) = evaluate rows.
Proof. unfold evaluate, evaluate_valid_rows. simpl. destruct model_ja; reflexivity. Qed.

Lemma merge_batch state valid part :
  evaluate valid = Some part ->
  exists state',
    match valid with
    | [] => Some state
    | _ :: _ => p ← evaluate valid; Some (merge_partial_result state p)
    end = Some state' /\
    counters (state_view state') = vadd (counters (state_view state)) (counters part) /\
    st_skipped state' = st_skipped state.
Proof.
  intros Hpart. destruct valid as [|row valid].
  - injection Hpart as <-. exists state. split; [reflexivity|].
    split; [symmetry; apply vadd_zero_result | reflexivity].
  - rewrite Hpart. simpl. eexists. split; [reflexivity|].
    rewrite state_view_merge, counters_pr_add. split; reflexivity.
Qed.

(** Sequential mode: the accumulator gains the counters of the valid
    rows of the whole remaining stream, up to the budget. *)
Lemma run_sequential_counters batches state accepted v a s stop whole :
  select_valid_rows (concat batches) max_rows accepted = (v, a, s, stop) ->
  evaluate v = Some whole ->
  exists state',
    run_sequential model model_ja human_threshold ai_threshold
      human_threshold_ja ai_threshold_ja max_rows batches state accepted = Some state' /\
    counters (state_view state') = vadd (counters (state_view state)) (counters whole) /\
    st_skipped state' = st_skipped state + s.
Proof.
  revert state accepted v a s stop whole.
  induction batches as [|rows rest IH]; intros state accepted v a s stop whole Hsel Hev.
  - cbn in Hsel. injection Hsel as <- <- <- <-.
    injection Hev as <-. exists state. split; [reflexivity|].
    split; [symmetry; apply vadd_zero_result | lia].
  - cbn [concat] in Hsel. rewrite select_valid_rows_app in Hsel.
    cbn [run_sequential].
    destruct (select_valid_rows rows max_rows accepted) as [[[v1 a1] s1] stop1].
    destruct stop1.
    + injection Hsel as <- <- <- <-.
      destruct (merge_batch (add_skipped state s1) v1 whole Hev)
        as (state' & Hm & Hc & Hs).
      fold (evaluate v1). rewrite Hm. simpl.
      exists state'. split; [reflexivity|]. split; [exact Hc | exact Hs].
    + destruct (select_valid_rows (concat rest) max_rows a1)
        as [[[v2 a2] s2] stop2] eqn:H2.
      injection Hsel as <- <- <- <-.
      apply evaluate_app in Hev as (p1 & p2 & Hp1 & Hp2 & Hsum).
      destruct (merge_batch (add_skipped state s1) v1 p1 Hp1)
        as (state1 & Hm & Hc & Hs).
      fold (evaluate v1). rewrite Hm. simpl.
      destruct (IH state1 a1 v2 a2 s2 stop2 p2 H2 Hp2) as (state' & Hrun & Hc' & Hs').
      exists state'. split; [exact Hrun|]. split.
      * rewrite Hc', Hc, Hsum. apply vadd_assoc.
      * rewrite Hs', Hs. simpl. lia.
Qed.

(** Parallel mode: the same, whatever the schedule, once the pending
    futures are counted in. *)
Lemma run_parallel_counters sched max_inflight batches state accepted parts waits
    v a s stop whole :
  select_valid_rows (concat batches) max_rows accepted = (v, a, s, stop) ->
  evaluate v = Some whole ->
  exists state',
    run_parallel model model_ja human_threshold ai_threshold
      human_threshold_ja ai_threshold_ja max_rows sched max_inflight
      batches state accepted (Some <$> parts) waits = Some state' /\
    counters (state_view state') =
      vadd (fold_left vadd (map counters parts) (counters (state_view state)))
           (counters whole) /\
    st_skipped state' = st_skipped state + s.
Proof.
  assert (Hdrain : forall state parts,
    exists state',
      merge_results state (as_completed sched (Some <$> parts)) = Some state' /\
      counters (state_view state') =
        fold_left vadd (map counters parts) (counters (state_view state)) /\
      st_skipped state' = st_skipped state).
  { intros st ps. destruct (as_completed_fmap_perm Some sched ps) as (ps' & -> & Hperm).
    rewrite merge_results_done. eexists. split; [reflexivity|].
    rewrite counters_merge_fold, st_skipped_merge_fold. split; [|reflexivity].
    apply fold_left_vadd_perm. rewrite Hperm. reflexivity. }
  revert state accepted parts waits v a s stop whole.
  induction batches as [|rows rest IH];
    intros state accepted parts waits v a s stop whole Hsel Hev.
  - cbn in Hsel. injection Hsel as <- <- <- <-. injection Hev as <-.
    cbn [run_parallel]. destruct (Hdrain state parts) as (state' & -> & Hc & Hs).
    exists state'. split; [reflexivity|]. split; [|lia].
    rewrite Hc, <- fold_left_vadd_shift, vadd_zero_result. reflexivity.
  - cbn [concat] in Hsel. rewrite select_valid_rows_app in Hsel.
    cbn [run_parallel].
    destruct (select_valid_rows rows max_rows accepted) as [[[v1 a1] s1] stop1].
    (* the part of this batch, and the pending list after its submission *)
    assert (Hsub : forall p1, evaluate v1 = Some p1 ->
      exists parts1,
        match v1 with
        | [] => Some <$> parts
        | _ :: _ =>
            (Some <$> parts) ++
            [evaluate_valid_rows (init_worker model model_ja) v1
               human_threshold ai_threshold None None
               (Some human_threshold_ja) (Some ai_threshold_ja)]
        end = Some <$> parts1 /\
        forall c, fold_left vadd (map counters parts1) (counters (state_view c)) =
                  vadd (fold_left vadd (map counters parts) (counters (state_view c)))
                       (counters p1)).
    { intros p1 Hp1. destruct v1 as [|row v1].
      - injection Hp1 as <-. exists parts. split; [reflexivity|].
        intros c. rewrite <- fold_left_vadd_shift, vadd_zero_result. reflexivity.
      - exists (parts ++ [p1]). rewrite evaluate_in_worker, Hp1, fmap_app.
        split; [reflexivity|]. intros c. rewrite map_app, fold_left_app. reflexivity. }
    (* the wait, if the pending list is full *)
    assert (Hwait : forall st parts1,
      exists st2 parts2 waits2,
        (if max_inflight <=? len (Some <$> parts1)
         then
           let '(i, more) := wait_first sched waits in
           let '(done, not_done) := take_done (i :: more) (Some <$> parts1) in
           st' ← merge_results st done; Some (st', not_done, S waits)
         else Some (st, Some <$> parts1, waits)) = Some (st2, Some <$> parts2, waits2) /\
        fold_left vadd (map counters parts2) (counters (state_view st2)) =
          fold_left vadd (map counters parts1) (counters (state_view st)) /\
        st_skipped st2 = st_skipped st).
    { intros st parts1. destruct (max_inflight <=? len (Some <$> parts1)).
      - destruct (wait_first sched waits) as [i more].
        rewrite take_done_fmap.
        pose proof (take_done_perm (i :: more) parts1) as Hperm.
        destruct (take_done (i :: more) parts1) as [done not_done].
        cbn [fst snd] in *. rewrite merge_results_done. simpl.
        eexists _, _, _. split; [reflexivity|].
        rewrite counters_merge_fold, st_skipped_merge_fold. split; [|reflexivity].
        rewrite <- fold_left_app, <- map_app.
        apply fold_left_vadd_perm. rewrite Hperm. reflexivity.
      - eexists _, _, _. split; [reflexivity|]. split; reflexivity. }
    destruct stop1.
    + injection Hsel as <- <- <- <-.
      destruct (Hsub whole Hev) as (parts1 & -> & Hfold).
      destruct (Hwait (add_skipped state s1) parts1) as (st2 & parts2 & waits2 & -> & Hc2 & Hs2).
      simpl. destruct (Hdrain st2 parts2) as (state' & -> & Hc & Hs).
      exists state'. split; [reflexivity|]. split.
      * rewrite Hc, Hc2. apply (Hfold (add_skipped state s1)).
      * rewrite Hs, Hs2. reflexivity.
    + destruct (select_valid_rows (concat rest) max_rows a1)
        as [[[v2 a2] s2] stop2] eqn:H2.
      injection Hsel as <- <- <- <-.
      apply evaluate_app in Hev as (p1 & p2 & Hp1 & Hp2 & Hsum).
      destruct (Hsub p1 Hp1) as (parts1 & -> & Hfold).
      destruct (Hwait (add_skipped state s1) parts1) as (st2 & parts2 & waits2 & -> & Hc2 & Hs2).
      simpl.
      destruct (IH st2 a1 parts2 waits2 v2 a2 s2 stop2 p2 H2 Hp2)
        as (state' & Hrun & Hc & Hs).
      exists state'. split; [exact Hrun|]. split.
      * rewrite Hc, Hc2, (Hfold (add_skipped state s1)), Hsum.
        rewrite state_view_add_skipped. apply vadd_assoc.
      * rewrite Hs, Hs2. simpl. lia.
Qed.

(** Whatever the batches, the worker count and the schedule, the run
    ends with the counters of the valid rows of the whole stream, up
    to the budget, and with the skipped rows met on the way. *)
Lemma evaluation_state_counters sched batches workers v a s stop whole :
  select_valid_rows (concat batches) max_rows 0 = (v, a, s, stop) ->
  evaluate v = Some whole ->
  exists state,
    evaluation_state model model_ja human_threshold ai_threshold
      human_threshold_ja ai_threshold_ja max_rows sched batches workers = Some state /\
    counters (state_view state) = counters whole /\
    st_skipped state = s.
Proof.
  intros Hsel Hev. unfold evaluation_state.
  destruct (Z.max 1 workers =? 1).
  - destruct (run_sequential_counters batches new_state 0 v a s stop whole Hsel Hev)
      as (state & Hrun & Hc & Hs).
    exists state. split; [exact Hrun|]. split; [|exact Hs].
    rewrite Hc. vec.
  - destruct (run_parallel_counters sched (Z.max 2 (Z.max 1 workers * 3)) batches
                new_state 0 [] 0%nat v a s stop whole Hsel Hev)
      as (state & Hrun & Hc & Hs).
    exists state. split; [exact Hrun|]. split; [|exact Hs].
    rewrite Hc. vec.
Qed.
End Runs.

(** ** Row budget *)

Lemma evaluate_total `{PyRuntime} model model_ja human_threshold ai_threshold
    human_threshold_ja ai_threshold_ja rows :
  model_ok model -> (forall ja, model_ja = Some ja -> model_ok ja) ->
  exists part,
    evaluate_valid_rows no_globals rows human_threshold ai_threshold
      (Some model) model_ja human_threshold_ja ai_threshold_ja = Some part /\
    p_total part = len rows.
Proof.
  intros Hok Hja. unfold evaluate_valid_rows.
  destruct (for_each_eval_total model
              (match model_ja with Some m => Some m | None => WORKER_MODEL_JA no_globals end)
              human_threshold ai_threshold human_threshold_ja ai_threshold_ja Hok)
    with (rows := rows) (acc := zero_result) as (part & Hpart & Htotal).
  - intros ja Heq. apply Hja. destruct model_ja; [exact Heq | discriminate Heq].
  - exists part. split; [exact Hpart | exact Htotal].
Qed.

(** Two runs over the same stream of rows, whatever their batches,
    worker counts and schedules, end with the same integer counters
    and the same number of skipped rows. *)
Lemma evaluation_state_independent `{PyRuntime} (model : Model) (model_ja : option Model)
    (human_threshold ai_threshold human_threshold_ja ai_threshold_ja : float)
    (max_rows workers workers' : Z) (sched sched' : Schedule)
    (batches batches' : list (list Row)) :
  model_ok model ->
  (forall ja, model_ja = Some ja -> model_ok ja) ->
  concat batches' = concat batches ->
  exists state state',
    evaluation_state model model_ja human_threshold ai_threshold
      human_threshold_ja ai_threshold_ja max_rows sched batches workers = Some state /\
    evaluation_state model model_ja human_threshold ai_threshold
      human_threshold_ja ai_threshold_ja max_rows sched' batches' workers' = Some state' /\
    counters (state_view state') = counters (state_view state) /\
    st_skipped state' = st_skipped state.
Proof.
  intros Hok Hja Hsame.
  destruct (select_valid_rows (concat batches) max_rows 0) as [[[v a] s] stop] eqn:Hsel.
  destruct (evaluate_total model model_ja human_threshold ai_threshold
              (Some human_threshold_ja) (Some ai_threshold_ja) v Hok Hja)
    as (whole & Hwhole & _).
  destruct (evaluation_state_counters model model_ja human_threshold ai_threshold
              human_threshold_ja ai_threshold_ja max_rows sched batches workers
              _ _ _ _ whole Hsel Hwhole) as (state & Hstate & Hc & Hs).
  rewrite <- Hsame in Hsel.
  destruct (evaluation_state_counters model model_ja human_threshold ai_threshold
              human_threshold_ja ai_threshold_ja max_rows sched' batches' workers'
              _ _ _ _ whole Hsel Hwhole) as (state' & Hstate' & Hc' & Hs').
  exists state, state'. split; [exact Hstate|]. split; [exact Hstate'|].
  split; congruence.
Qed.

(** C7: with a budget [k > 0] and a stream of more than [k] valid rows,
    the run succeeds and reports [processed_rows = k], whatever the
    batches, the worker count and the schedule; the rows it has skipped
    are those of the prefix of the stream that ends with the [k]-th
    valid row, so nothing after that row is filtered or scored. *)
Theorem row_budget `{PyRuntime} (model : Model) (model_ja : option Model)
    (human_threshold ai_threshold human_threshold_ja ai_threshold_ja : float)
    (k workers : Z) (sched : Schedule) (batches : list (list Row)) :
  model_ok model ->
  (forall ja, model_ja = Some ja -> model_ok ja) ->
  0 < k ->
  k < valid_count (concat batches) ->
  exists summary,
    run_evaluation sched batches model model_ja human_threshold ai_threshold
      human_threshold_ja ai_threshold_ja k workers = Some summary /\
    s_processed_rows summary = k /\
    s_skipped_rows summary =
      len (filter (fun row => is_skipped row = true)
             (upto_valid (Z.to_nat k) (concat batches))).
Proof.
  intros Hok Hja Hk Hcount.
  destruct (select_valid_rows_budget k (concat batches) 0) as (valid & Hsel & Hlen);
    [lia ..|].
  rewrite Z.sub_0_r in *.
  destruct (evaluate_total model model_ja human_threshold ai_threshold
              (Some human_threshold_ja) (Some ai_threshold_ja) valid Hok Hja)
    as (whole & Hwhole & Htotal).
  destruct (evaluation_state_counters model model_ja human_threshold ai_threshold
              human_threshold_ja ai_threshold_ja k sched batches workers
              _ _ _ _ whole Hsel Hwhole) as (state & Hstate & Hc & Hs).
  unfold run_evaluation. rewrite Hstate. simpl.
  eexists. split; [reflexivity|]. simpl. split; [|exact Hs].
  apply (f_equal (fun l => hd 0 l)) in Hc. unfold counters in Hc. simpl in Hc.
  lia.
Qed.

Lemma tiny_model_ok : model_ok tiny_model.
Proof. split; [reflexivity | reflexivity]. Qed.

Lemma row_budget_witness :
  exists summary,
    @run_evaluation example_runtime oldest_first sample_batches tiny_model None
      DEFAULT_HUMAN_THRESHOLD DEFAULT_AI_THRESHOLD
      DEFAULT_HUMAN_THRESHOLD DEFAULT_AI_THRESHOLD 2 4 = Some summary /\
    s_processed_rows summary = 2 /\
    s_skipped_rows summary =
      len (filter (fun row => @is_skipped example_runtime row = true)
             (@upto_valid example_runtime (Z.to_nat 2) (concat sample_batches))).
Proof.
  apply (@row_budget example_runtime tiny_model None
           DEFAULT_HUMAN_THRESHOLD DEFAULT_AI_THRESHOLD
           DEFAULT_HUMAN_THRESHOLD DEFAULT_AI_THRESHOLD 2 4 oldest_first sample_batches).
  - exact tiny_model_ok.
  - intros ja Hja. discriminate Hja.
  - lia.
  - vm_compute. reflexivity.
Defined.

(** ** Skipped rows *)

Lemma add_skipped_add state a b :
  add_skipped (add_skipped state a) b = add_skipped state (a + b).
Proof. unfold add_skipped. simpl. f_equal. lia. Qed.

Lemma add_skipped_comm state a b :
  add_skipped (add_skipped state a) b = add_skipped (add_skipped state b) a.
Proof. rewrite !add_skipped_add. f_equal. lia. Qed.

Lemma add_skipped_0 state : add_skipped state 0 = state.
Proof. destruct state. unfold add_skipped. simpl. f_equal. lia. Qed.

Lemma merge_add_skipped state part d :
  merge_partial_result (add_skipped state d) part =
  add_skipped (merge_partial_result state part) d.
Proof. reflexivity. Qed.

Lemma merge_results_skipped state futures d :
  merge_results (add_skipped state d) futures =
  (fun s => add_skipped s d) <$> merge_results state futures.
Proof.
  unfold merge_results. revert state.
  induction futures as [|fut futures IH]; intros state; [reflexivity|].
  cbn [for_each]. destruct fut as [part|]; [|reflexivity].
  simpl. rewrite merge_add_skipped. apply IH.
Qed.

Section SkippedRows.
Context `{PyRuntime}.
Variables (model : Model) (model_ja : option Model).
Variables (human_threshold ai_threshold human_threshold_ja ai_threshold_ja : float).
Variable max_rows : Z.

Lemma select_valid_rows_stop rows accepted v a s :
  select_valid_rows rows max_rows accepted = (v, a, s, true) -> 0 < max_rows.
Proof.
  unfold select_valid_rows.
  enough (Hgen : forall valid skipped,
            select_loop rows max_rows valid accepted skipped = (v, a, s, true) ->
            0 < max_rows) by apply Hgen.
  revert accepted. induction rows as [|row rows IH]; intros accepted valid skipped.
  - cbn [select_loop]. discriminate.
  - rewrite select_loop_cons. destruct (is_skipped row); [apply IH|].
    destruct (Z.ltb_spec 0 max_rows); [intros _; assumption|].
    cbn [andb]. apply IH.
Qed.

(** In the filter a skipped row only adds one to [skipped], if the
    loop gets to it. *)
Lemma select_valid_rows_insert row rows1 rows2 accepted :
  is_skipped row = true ->
  exists d,
    (d = 0 \/ d = 1) /\ (max_rows <= 0 -> d = 1) /\
    select_valid_rows (rows1 ++ row :: rows2) max_rows accepted =
    let '(v, a, s, stop) := select_valid_rows (rows1 ++ rows2) max_rows accepted in
    (v, a, s + d, stop).
Proof.
  intros Hrow. rewrite !select_valid_rows_app.
  destruct (select_valid_rows rows1 max_rows accepted) as [[[v1 a1] s1] stop1] eqn:H1.
  destruct stop1.
  - exists 0. split; [left; reflexivity|]. split.
    + intros Hmax. apply select_valid_rows_stop in H1. lia.
    + rewrite Z.add_0_r. reflexivity.
  - exists 1. split; [right; reflexivity|]. split; [reflexivity|].
    unfold select_valid_rows at 1. rewrite select_loop_cons, Hrow, select_loop_shift.
    fold (select_valid_rows rows2 max_rows a1).
    destruct (select_valid_rows rows2 max_rows a1) as [[[v2 a2] s2] stop2].
    simpl. repeat (f_equal; try lia).
Qed.

Lemma run_sequential_skipped batches state accepted d :
  run_sequential model model_ja human_threshold ai_threshold
    human_threshold_ja ai_threshold_ja max_rows batches (add_skipped state d) accepted =
  (fun s => add_skipped s d) <$>
  run_sequential model model_ja human_threshold ai_threshold
    human_threshold_ja ai_threshold_ja max_rows batches state accepted.
Proof.
  revert state accepted. induction batches as [|rows rest IH]; intros state accepted.
  - reflexivity.
  - cbn [run_sequential].
    destruct (select_valid_rows rows max_rows accepted) as [[[v a] s] stop].
    rewrite (add_skipped_comm state d s).
    destruct v as [|row v].
    + simpl. destruct stop; [reflexivity | apply IH].
    + destruct (evaluate_valid_rows _ _ _ _ _ _ _ _) as [part|]; [|reflexivity].
      simpl. rewrite merge_add_skipped. destruct stop; [reflexivity | apply IH].
Qed.

Lemma run_parallel_skipped sched max_inflight batches state accepted pending waits d :
  run_parallel model model_ja human_threshold ai_threshold
    human_threshold_ja ai_threshold_ja max_rows sched max_inflight
    batches (add_skipped state d) accepted pending waits =
  (fun s => add_skipped s d) <$>
  run_parallel model model_ja human_threshold ai_threshold
    human_threshold_ja ai_threshold_ja max_rows sched max_inflight
    batches state accepted pending waits.
Proof.
  revert state accepted pending waits.
  induction batches as [|rows rest IH]; intros state accepted pending waits.
  - cbn [run_parallel]. apply merge_results_skipped.
  - cbn [run_parallel].
    destruct (select_valid_rows rows max_rows accepted) as [[[v a] s] stop].
    rewrite (add_skipped_comm state d s).
    set (state1 := add_skipped state s).
    set (pending1 := match v with [] => pending | _ :: _ => _ end).
    destruct (max_inflight <=? len pending1).
    + destruct (wait_first sched waits) as [i more].
      destruct (take_done (i :: more) pending1) as [done not_done].
      rewrite merge_results_skipped.
      destruct (merge_results state1 done) as [state2|]; [|reflexivity].
      simpl. destruct stop; [apply merge_results_skipped | apply IH].
    + simpl. destruct stop; [apply merge_results_skipped | apply IH].
Qed.

Section Insert.
Variables (row : Row) (rows1 rows2 : list Row) (post : list (list Row)).
Hypothesis row_skipped : is_skipped row = true.

Lemma run_sequential_insert pre state accepted :
  exists d,
    (d = 0 \/ d = 1) /\ (max_rows <= 0 -> d = 1) /\
    run_sequential model model_ja human_threshold ai_threshold
      human_threshold_ja ai_threshold_ja max_rows
      (pre ++ (rows1 ++ row :: rows2) :: post) state accepted =
    (fun s => add_skipped s d) <$>
    run_sequential model model_ja human_threshold ai_threshold
      human_threshold_ja ai_threshold_ja max_rows
      (pre ++ (rows1 ++ rows2) :: post) state accepted.
Proof.
  revert state accepted. induction pre as [|rows pre IH]; intros state accepted.
  - destruct (select_valid_rows_insert row rows1 rows2 accepted row_skipped)
      as (d & Hd & Hmax & Hsel).
    exists d. split; [exact Hd|]. split; [exact Hmax|].
    cbn [app].
    rewrite <- (run_sequential_skipped ((rows1 ++ rows2) :: post)).
    cbn [run_sequential]. rewrite Hsel.
    destruct (select_valid_rows (rows1 ++ rows2) max_rows accepted) as [[[v a] s] stop].
    rewrite (add_skipped_comm state d s), add_skipped_add. reflexivity.
  - cbn [app run_sequential].
    destruct (select_valid_rows rows max_rows accepted) as [[[v a] s] stop] eqn:Hsel.
    destruct (match v with
              | [] => Some (add_skipped state s)
              | _ :: _ => _
              end) as [state1|].
    + simpl. destruct stop.
      * exists 0. split; [left; reflexivity|]. split.
        -- intros Hmax. apply select_valid_rows_stop in Hsel. lia.
        -- simpl. rewrite add_skipped_0. reflexivity.
      * apply IH.
    + exists 1. split; [right; reflexivity|]. split; reflexivity.
Qed.

Lemma run_parallel_insert sched max_inflight pre state accepted pending waits :
  exists d,
    (d = 0 \/ d = 1) /\ (max_rows <= 0 -> d = 1) /\
    run_parallel model model_ja human_threshold ai_threshold
      human_threshold_ja ai_threshold_ja max_rows sched max_inflight
      (pre ++ (rows1 ++ row :: rows2) :: post) state accepted pending waits =
    (fun s => add_skipped s d) <$>
    run_parallel model model_ja human_threshold ai_threshold
      human_threshold_ja ai_threshold_ja max_rows sched max_inflight
      (pre ++ (rows1 ++ rows2) :: post) state accepted pending waits.
Proof.
  revert state accepted pending waits.
  induction pre as [|rows pre IH]; intros state accepted pending waits.
  - destruct (select_valid_rows_insert row rows1 rows2 accepted row_skipped)
      as (d & Hd & Hmax & Hsel).
    exists d. split; [exact Hd|]. split; [exact Hmax|].
    cbn [app].
    rewrite <- (run_parallel_skipped sched max_inflight ((rows1 ++ rows2) :: post)).
    cbn [run_parallel]. rewrite Hsel.
    destruct (select_valid_rows (rows1 ++ rows2) max_rows accepted) as [[[v a] s] stop].
    rewrite (add_skipped_comm state d s), add_skipped_add. reflexivity.
  - cbn [app run_parallel].
    destruct (select_valid_rows rows max_rows accepted) as [[[v a] s] stop] eqn:Hsel.
    set (pending1 := match v with [] => pending | _ :: _ => _ end).
    destruct (if max_inflight <=? len pending1 then _ else _)
      as [[[state2 pending2] waits2]|].
    + simpl. destruct stop.
      * exists 0. split; [left; reflexivity|]. split.
        -- intros Hmax. apply select_valid_rows_stop in Hsel. lia.
        -- destruct (merge_results state2 _); simpl; [rewrite add_skipped_0|];
             reflexivity.
      * apply IH.
    + exists 1. split; [right; reflexivity|]. split; reflexivity.
Qed.

(** C8: a row whose label is neither "ai" nor "human" (after trimming
    and lower-casing) or whose normalized text is empty is consumed by
    the filter with [skipped + 1] and nothing else, and the loop goes
    on; a run over a dataset that contains such a row ends in the state
    of the run without it, except that [skipped] is one more (or the
    same, when the budget was filled before the row): no confusion
    cell, ground-truth or prediction count, total or score_sum
    differs. *)
Theorem skipped_row_only_skipped :
  (forall rest valid accepted skipped,
     select_loop (row :: rest) max_rows valid accepted skipped =
     select_loop rest max_rows valid accepted (skipped + 1)) /\
  (forall sched workers pre,
     exists d,
       (d = 0 \/ d = 1) /\ (max_rows <= 0 -> d = 1) /\
       evaluation_state model model_ja human_threshold ai_threshold
         human_threshold_ja ai_threshold_ja max_rows sched
         (pre ++ (rows1 ++ row :: rows2) :: post) workers =
       (fun s => add_skipped s d) <$>
       evaluation_state model model_ja human_threshold ai_threshold
         human_threshold_ja ai_threshold_ja max_rows sched
         (pre ++ (rows1 ++ rows2) :: post) workers).
Proof.
  split.
  - intros rest valid accepted skipped.
    rewrite select_loop_cons, row_skipped. reflexivity.
  - intros sched workers pre. unfold evaluation_state.
    destruct (Z.max 1 workers =? 1).
    + apply run_sequential_insert.
    + apply run_parallel_insert.
Qed.
End Insert.
End SkippedRows.

Lemma skipped_row_only_skipped_witness :
  @select_loop example_runtime [sample_row "x" "abc"; sample_row "ai" "abc"] 0 [] 0 0 =
  @select_loop example_runtime [sample_row "ai" "abc"] 0 [] 0 (0 + 1).
Proof.
  exact (proj1 (@skipped_row_only_skipped example_runtime tiny_model None
                  DEFAULT_HUMAN_THRESHOLD DEFAULT_AI_THRESHOLD
                  DEFAULT_HUMAN_THRESHOLD DEFAULT_AI_THRESHOLD 0
                  (sample_row "x" "abc") [] [] [] eq_refl)
               [sample_row "ai" "abc"] [] 0 0).
Defined.

(** ** Fatal configurations abort before the dataset is opened *)

Lemma load_model_invalid read_json path raw :
  read_json path = Some raw -> invalid_model raw ->
  exists msg, load_model read_json path = inl (ValueError msg).
Proof.
  intros Hraw Hbad. unfold load_model. rewrite Hraw.
  unfold invalid_model, raw_dim, raw_params in Hbad.
  destruct (Z.leb_spec (int_or (r_dim raw) 0) 0) as [Hle|Hgt]; [eexists; reflexivity|].
  destruct Hbad as [Hbad|Hbad]; [lia|].
  destruct (str_eqb _ _).
  - destruct (Z.eqb_spec (len (seq_or (r_weights raw) [])) (int_or (r_dim raw) 0));
      [contradiction | eexists; reflexivity].
  - destruct (Z.eqb_spec (len (seq_or (r_delta raw) [])) (int_or (r_dim raw) 0));
      [contradiction | eexists; reflexivity].
Qed.

(** C9: when a model has [dim <= 0] or a parameter array whose length
    is not [dim], or the thresholds in force have [ai_min <= human_max]
    (primary or secondary), [main] ends with an error after reading
    model files only: the dataset is not opened and no summary is
    written or printed. *)
Theorem fatal_before_any_row `{PyRuntime} (env : Env) (args : Args) :
  fatal_configuration env args ->
  exists log e, main env args = (log, inl e) /\ Forall is_model_read log.
Proof.
  intros Hfatal. unfold main, load_model_io.
  destruct (load_model (read_json env) (a_model args)) as [e|m] eqn:Hm.
  { eexists _, _. split; [reflexivity|]. repeat constructor. }
  assert (Hm_ok : ~ exists raw, read_json env (a_model args) = Some raw /\ invalid_model raw).
  { intros (raw & Hraw & Hbad).
    destruct (load_model_invalid _ _ _ Hraw Hbad) as [msg Hmsg]. congruence. }
  destruct (String.eqb_spec (a_model_ja args) "") as [Hja|Hja].
  - cbn -[effective_thresholds].
    destruct (effective_thresholds m (a_human_threshold args) (a_ai_threshold args))
      as [e|[human ai]] eqn:Heff.
    { eexists _, _. split; [reflexivity|]. repeat constructor. }
    cbn. destruct (ai <=? human)%float eqn:Hcross.
    { eexists _, _. split; [reflexivity|]. repeat constructor. }
    exfalso. destruct Hfatal as [Hf|[[Hne _]|[(m' & Hm' & Hc)|[Hne _]]]];
      try contradiction.
    rewrite Hm in Hm'. injection Hm' as <-.
    destruct Hc as (human' & ai' & Heff' & Hc).
    rewrite Heff in Heff'. injection Heff' as <- <-. congruence.
  - destruct (load_model (read_json env) (a_model_ja args)) as [e|ja] eqn:Hmja.
    { eexists _, _. split; [reflexivity|]. repeat constructor. }
    cbn -[effective_thresholds].
    destruct (effective_thresholds m (a_human_threshold args) (a_ai_threshold args))
      as [e|[human ai]] eqn:Heff.
    { eexists _, _. split; [reflexivity|]. repeat constructor. }
    cbn -[effective_thresholds]. destruct (ai <=? human)%float eqn:Hcross.
    { eexists _, _. split; [reflexivity|]. repeat constructor. }
    destruct (effective_thresholds ja (a_human_threshold_ja args) (a_ai_threshold_ja args))
      as [e|[human_ja ai_ja]] eqn:Heff_ja.
    { eexists _, _. split; [reflexivity|]. repeat constructor. }
    cbn. destruct (ai_ja <=? human_ja)%float eqn:Hcross_ja.
    { eexists _, _. split; [reflexivity|]. repeat constructor. }
    exfalso.
    destruct Hfatal as [Hf|[(_ & raw & Hraw & Hbad)|[(m' & Hm' & Hc)|(_ & m' & Hm' & Hc)]]].
    + contradiction.
    + destruct (load_model_invalid _ _ _ Hraw Hbad) as [msg Hmsg]. congruence.
    + rewrite Hm in Hm'. injection Hm' as <-.
      destruct Hc as (human' & ai' & Heff' & Hc).
      rewrite Heff in Heff'. injection Heff' as <- <-. congruence.
    + rewrite Hmja in Hm'. injection Hm' as <-.
      destruct Hc as (human' & ai' & Heff' & Hc).
      rewrite Heff_ja in Heff'. injection Heff' as <- <-. congruence.
Qed.

Lemma fatal_before_any_row_witness :
  exists log e,
    @main example_runtime zero_dim_env default_args = (log, inl e) /\
    Forall is_model_read log.
Proof.
  apply (@fatal_before_any_row example_runtime zero_dim_env default_args).
  left. exists zero_dim_raw. split; [reflexivity|]. left. unfold raw_dim. simpl. lia.
Defined.

(** * Further properties of the code *)

(** ** Clamping and the thresholds in force *)

Lemma ltb_leb x y : (x <? y)%float = true -> (x <=? y)%float = true.
Proof.
  rewrite FloatOrder.ltb_key, FloatOrder.leb_key. intros (? & ? & ?). auto.
Qed.

Lemma leb_refl x : PrimFloat.is_nan x = false -> (x <=? x)%float = true.
Proof. rewrite FloatOrder.is_nan_key, FloatOrder.leb_key. auto. Qed.

Lemma leb_not_nan_r x y : (x <=? y)%float = true -> PrimFloat.is_nan y = false.
Proof. rewrite FloatOrder.leb_key, FloatOrder.is_nan_key. tauto. Qed.

Lemma clamp_bounds value min_value max_value :
  (min_value <=? max_value)%float = true ->
  (min_value <=? clamp value min_value max_value)%float = true /\
  (clamp value min_value max_value <=? max_value)%float = true.
Proof.
  intros Hle.
  pose proof (leb_refl _ (FloatOrder.leb_not_nan_l _ _ Hle)) as Hmin.
  pose proof (leb_refl _ (leb_not_nan_r _ _ Hle)) as Hmax.
  unfold clamp, py_max, py_min.
  destruct (PrimFloat.is_nan value); [split; assumption|].
  destruct (value <? max_value)%float eqn:Hv.
  - destruct (min_value <? value)%float eqn:Hm; [|split; assumption].
    split; apply ltb_leb; assumption.
  - destruct (min_value <? max_value)%float; split; assumption.
Qed.

(** X1: between bounds [min_value <= max_value], [clamp] always returns
    a value of the closed interval (so never NaN), whatever [value] is,
    NaN and the infinities included; a NaN [value] gives [min_value]. *)
Theorem clamp_range (value min_value max_value : float) :
  (min_value <=? max_value)%float = true ->
  (min_value <=? clamp value min_value max_value)%float = true /\
  (clamp value min_value max_value <=? max_value)%float = true /\
  PrimFloat.is_nan (clamp value min_value max_value) = false /\
  (PrimFloat.is_nan value = true -> clamp value min_value max_value = min_value).
Proof.
  intros Hle. destruct (clamp_bounds value _ _ Hle) as [Hlo Hhi].
  split; [exact Hlo|]. split; [exact Hhi|]. split.
  - exact (FloatOrder.leb_not_nan_l _ _ Hhi).
  - intros Hnan. unfold clamp. rewrite Hnan. reflexivity.
Qed.

Lemma clamp_range_witness :
  (0 <=? clamp infinity 0 1)%float = true /\
  (clamp infinity 0 1 <=? 1)%float = true /\
  PrimFloat.is_nan (clamp infinity 0 1) = false /\
  (PrimFloat.is_nan infinity = true -> clamp infinity 0 1 = 0%float).
Proof. apply (clamp_range infinity 0 1). reflexivity. Defined.

(** X2: a value that lies between the bounds is returned as it is, up
    to the sign of a zero: [clamp(-0.0, 0.0, 1.0)] is [0.0]. *)
Theorem clamp_inside (value min_value max_value : float) :
  (min_value <=? value)%float = true ->
  (value <=? max_value)%float = true ->
  (clamp value min_value max_value =? value)%float = true.
Proof.
  intros Hlo Hhi.
  pose proof (FloatOrder.leb_not_nan_l _ _ Hhi) as Hnan.
  assert (Heq : forall a b, (a <=? b)%float = true -> (a <? b)%float = false ->
                            (a =? b)%float = true).
  { intros a b Hab Hn.
    apply FloatOrder.leb_key in Hab as (Ha & Hb & Hk).
    rewrite FloatAxioms.eqb_spec. unfold SFeqb.
    pose proof (FloatOrder.SFcompare_Eq (Prim2SF a) (Prim2SF b)) as HE.
    destruct Hk as [Hk|Hk].
    - exfalso. apply not_true_iff_false in Hn. apply Hn.
      apply FloatOrder.ltb_key. auto.
    - rewrite (proj2 HE); auto. }
  assert (Hrefl : (value =? value)%float = true).
  { apply Heq; [apply leb_refl; exact Hnan|].
    apply not_true_iff_false. intros Hlt.
    pose proof (FloatOrder.ltb_asym _ _ Hlt). congruence. }
  unfold clamp, py_max, py_min. rewrite Hnan.
  destruct (value <? max_value)%float eqn:Hv.
  - destruct (min_value <? value)%float eqn:Hm; [exact Hrefl|].
    apply Heq; assumption.
  - assert (Hvm : (value =? max_value)%float = true) by (apply Heq; assumption).
    assert (Hsym : forall a b, (a =? b)%float = true -> (b =? a)%float = true).
    { intros a b. rewrite !FloatAxioms.eqb_spec. unfold SFeqb.
      pose proof (FloatOrder.SFcompare_Eq (Prim2SF a) (Prim2SF b)) as H1.
      pose proof (FloatOrder.SFcompare_Eq (Prim2SF b) (Prim2SF a)) as H2.
      destruct (SFcompare (Prim2SF a) (Prim2SF b)) as [[]|]; try discriminate.
      intros _. destruct (proj1 H1 eq_refl) as (? & ? & ?).
      rewrite (proj2 H2); auto. }
    destruct (min_value <? max_value)%float eqn:Hm; [apply Hsym; exact Hvm|].
    (* min <= value <= max and not min < max: all three are equal *)
    apply Heq; [exact Hlo|].
    apply not_true_iff_false. intros Hlt.
    pose proof (FloatOrder.ltb_leb_trans _ _ _ Hlt Hhi). congruence.
Qed.

Lemma clamp_inside_witness : (clamp (-0) 0 1 =? (-0))%float = true.
Proof. apply (clamp_inside (-0) 0 1); reflexivity. Defined.



(** ** The sigmoid *)

Lemma opp_not_positive x : (0 <=? x)%float = true -> (0 <? - x)%float = false.
Proof.
  rewrite FloatAxioms.leb_spec, FloatAxioms.ltb_spec, FloatAxioms.opp_spec.
  change (Prim2SF 0) with (S754_zero false).
  destruct (Prim2SF x) as [s|s| |s m e]; try destruct s;
    unfold SFleb, SFltb; simpl; congruence.
Qed.

(** X4: [sigmoid] evaluates [math.exp] at an argument that is never
    positive (at [-x] when [x >= 0], at [x] otherwise), so the
    exponential cannot overflow: two exponentials that agree on the
    arguments that are not positive give the same sigmoid everywhere. *)
Theorem sigmoid_exp_nonpositive (lower : pystr -> pystr) (exp1 exp2 : float -> float)
    (x : float) :
  (forall a, (0 <? a)%float = false -> exp1 a = exp2 a) ->
  @sigmoid {| str_lower := lower; math_exp := exp1 |} x =
  @sigmoid {| str_lower := lower; math_exp := exp2 |} x.
Proof.
  intros Hexp. unfold sigmoid. cbn [math_exp].
  destruct (0 <=? x)%float eqn:Hx.
  - rewrite (Hexp (- x)%float) by (apply opp_not_positive; exact Hx). reflexivity.
  - rewrite (Hexp x); [reflexivity|].
    apply not_true_iff_false. intros Hlt. apply ltb_leb in Hlt. congruence.
Qed.

Lemma sigmoid_exp_nonpositive_witness :
  @sigmoid {| str_lower := ascii_lower; math_exp := exp_table |} 38 =
  @sigmoid {| str_lower := ascii_lower;
              math_exp := fun a => if (0 <? a)%float then infinity else exp_table a |} 38.
Proof.
  apply (sigmoid_exp_nonpositive ascii_lower exp_table
           (fun a => if (0 <? a)%float then infinity else exp_table a) 38).
  intros a Ha. rewrite Ha. reflexivity.
Defined.

(** ** Precision, recall and F1 *)

(** X5: [precision_recall_f1] never divides by zero, whatever the three
    counts: an empty denominator gives 0.0 for the precision or the
    recall, and the F1 is 0.0 when their sum is zero. *)
Theorem precision_recall_f1_total (tp fp fn : Z) :
  exists precision recall f1,
    precision_recall_f1 tp fp fn = Some (precision, recall, f1) /\
    (tp + fp = 0 -> precision = 0%float) /\
    (tp + fn = 0 -> recall = 0%float) /\
    ((precision + recall =? 0)%float = true -> f1 = 0%float).
Proof.
  unfold precision_recall_f1, int_truediv, float_truediv.
  destruct (Z.eqb_spec (tp + fp) 0) as [Hp|Hp];
    destruct (Z.eqb_spec (tp + fn) 0) as [Hr|Hr]; cbn [mbind option_bind].
  all: match goal with
       | |- context [(?p + ?r =? 0)%float] => destruct (p + r =? 0)%float eqn:Hf
       end; cbn [mbind option_bind].
  all: eexists _, _, _; split; [reflexivity|].
  all: split; [intros; first [reflexivity | contradiction]|].
  all: split; [intros; first [reflexivity | contradiction]|].
  all: intros Hz; first [reflexivity | congruence].
Qed.

(** X6: the ratios of the summary are computed without a division by
    zero in every state of the accumulator, and a run that processed no
    row reports 0.0 for its accuracy, coverage, unknown rate and average
    score. *)
Theorem run_metrics_total (state : EvalState) :
  exists metrics,
    run_metrics state = Some metrics /\
    (st_total state = 0 ->
     mt_strict_accuracy metrics = 0%float /\ mt_coverage metrics = 0%float /\
     mt_unknown_rate metrics = 0%float /\ mt_avg_score metrics = 0%float) /\
    (st_decided_rows state = 0 -> mt_decided_accuracy metrics = 0%float).
Proof.
  unfold run_metrics.
  destruct (precision_recall_f1_total
              (counter_get (st_conf state) ("AI", "AI"))
              (counter_get (st_conf state) ("Human", "AI"))
              (counter_get (st_conf state) ("AI", "Human")
               + counter_get (st_conf state) ("AI", "Unknown")))
    as (p1 & r1 & f1 & -> & _).
  destruct (precision_recall_f1_total
              (counter_get (st_conf state) ("Human", "Human"))
              (counter_get (st_conf state) ("AI", "Human"))
              (counter_get (st_conf state) ("Human", "AI")
               + counter_get (st_conf state) ("Human", "Unknown")))
    as (p2 & r2 & f2 & -> & _).
  cbn [mbind option_bind]. unfold int_truediv, float_int_truediv.
  destruct (Z.eqb_spec (st_total state) 0) as [Ht|Ht];
    destruct (Z.eqb_spec (st_decided_rows state) 0) as [Hd|Hd];
    destruct (Z.eqb_spec (st_jp_rows state) 0) as [Hj|Hj];
    destruct (Z.eqb_spec (st_non_jp_rows state) 0) as [Hn|Hn];
    cbn [mbind option_bind];
    (eexists; split; [reflexivity|]; cbn;
     split; [intros; first [contradiction | repeat split] | intros; first [contradiction | reflexivity]]).
Qed.

(** ** The language router *)

Lemma table_sound (f : Z -> Z -> bool) (a k b l : nat) :
  forallb (fun x => forallb (f x) (map Z.of_nat (seq b l))) (map Z.of_nat (seq a k)) = true ->
  forall x y, Z.of_nat a <= x < Z.of_nat a + Z.of_nat k ->
              Z.of_nat b <= y < Z.of_nat b + Z.of_nat l -> f x y = true.
Proof.
  intros Hall x y Hx Hy. rewrite forallb_forall in Hall.
  assert (Hrow : forallb (f x) (map Z.of_nat (seq b l)) = true).
  { apply Hall. apply in_map_iff. exists (Z.to_nat x). split; [lia|]. apply in_seq. lia. }
  rewrite forallb_forall in Hrow. apply Hrow.
  apply in_map_iff. exists (Z.to_nat y). split; [lia|]. apply in_seq. lia.
Qed.

(** The two tests agree on every pair the router can reach. *)
Lemma ratio_rule_table :
  forallb (fun jp_count =>
             forallb (ratio_rule_agrees jp_count) (map Z.of_nat (seq 1 2400)))
          (map Z.of_nat (seq 8 32)) = true.
Proof. vm_compute. reflexivity. Qed.

Lemma ratio_rule jp_count n :
  8 <= jp_count < 40 -> 1 <= n <= 2400 ->
  (ratio_003 <=? float_of_int jp_count / float_of_int (Z.max 1 n))%float =
  (3 * n <=? 100 * jp_count).
Proof.
  intros Hjp Hn. apply Bool.eqb_prop.
  exact (table_sound ratio_rule_agrees 8 32 1 2400 ratio_rule_table jp_count n
           ltac:(lia) ltac:(lia)).
Qed.

(** X7: [is_likely_japanese_text] looks at the first 2400 characters
    only, and answers True exactly when at least 40 of them are
    Japanese, or at least 8 of them are and they make up 3% of the
    sample or more; the float comparison with 0.03 decides exactly
    [3 * len(sample) <= 100 * jp_count]. *)
Theorem is_likely_japanese_text_rule (text : pystr) :
  let sample := take 2400 text in
  let jp_count := len (filter (fun c => jp_char c = true) sample) in
  is_likely_japanese_text text = true <->
  40 <= jp_count \/ (8 <= jp_count /\ 3 * len sample <= 100 * jp_count).
Proof.
  intros sample jp_count. unfold is_likely_japanese_text.
  fold sample. fold jp_count.
  assert (Hlen : len sample <= 2400).
  { unfold sample. rewrite length_take. lia. }
  assert (Hjp : 0 <= jp_count <= len sample).
  { unfold jp_count. pose proof (length_filter (fun c => jp_char c = true) sample). lia. }
  destruct sample as [|c sample'] eqn:Hs.
  - simpl in Hjp. split; [discriminate | lia].
  - set (n := len (c :: sample')) in *.
    assert (Hn : 1 <= n) by (unfold n; simpl length; lia).
    destruct (Z.leb_spec 40 jp_count) as [H40|H40]; [split; [lia | reflexivity]|].
    destruct (Z.leb_spec 8 jp_count) as [H8|H8]; cbn [andb].
    + rewrite ratio_rule by lia. rewrite Z.leb_le. lia.
    + split; [discriminate | lia].
Qed.

(** ** Model files: what [load_model] accepts *)

Lemma seq_or_nonempty {A} (x : option (list A)) (d : list A) : d <> [] -> seq_or x d <> [].
Proof. intros Hd. destruct x as [[|c v]|]; simpl; [exact Hd | discriminate | exact Hd]. Qed.

Lemma int_or_nonzero (x : option Z) (d : Z) : d <> 0 -> int_or x d <> 0.
Proof.
  intros Hd. destruct x as [v|]; simpl; [|exact Hd].
  destruct (Z.eqb_spec v 0); [exact Hd | assumption].
Qed.

Lemma load_model_ok read_json path m :
  load_model read_json path = inr m ->
  exists raw,
    read_json path = Some raw /\ ~ invalid_model raw /\ model_ok m /\
    m_dim m = raw_dim raw /\ m_max_chars m <> 0 /\ m_name m <> [].
Proof.
  unfold load_model. destruct (read_json path) as [raw|]; [|discriminate].
  intros Hload. exists raw. split; [reflexivity|].
  unfold invalid_model, raw_dim, raw_params, model_ok.
  destruct (Z.leb_spec (int_or (r_dim raw) 0) 0) as [Hle|Hgt]; [discriminate|].
  assert (Hname : seq_or (r_name raw) (lit "hash_model") <> [])
    by (apply seq_or_nonempty; discriminate).
  assert (Hmax : int_or (r_max_chars raw) 1200 <> 0)
    by (apply int_or_nonzero; discriminate).
  destruct (str_eqb _ _).
  - destruct (Z.eqb_spec (len (seq_or (r_weights raw) [])) (int_or (r_dim raw) 0))
      as [Heq|Hne]; [|discriminate].
    injection Hload as <-. cbn. repeat split; try assumption. lia.
  - destruct (Z.eqb_spec (len (seq_or (r_delta raw) [])) (int_or (r_dim raw) 0))
      as [Heq|Hne]; [|discriminate].
    injection Hload as <-. cbn. repeat split; try assumption. lia.
Qed.


(** X9: scoring never raises on a model that [load_model] returned,
    naive-Bayes or logistic, whatever the text: every trigram is hashed
    to an index that the parameter array has. *)
Theorem compute_score_loaded `{PyRuntime} (read_json : string -> option RawModel)
    (path : string) (m : Model) (text : pystr) :
  load_model read_json path = inr m ->
  exists score, compute_score text m = Some score.
Proof.
  intros Hload. apply compute_score_total.
  destruct (load_model_ok _ _ _ Hload) as (raw & _ & _ & Hok & _). exact Hok.
Qed.

Lemma compute_score_loaded_witness :
  exists score, @compute_score example_runtime (lit "abc") tiny_model = Some score.
Proof.
  apply (@compute_score_loaded example_runtime (fun _ => Some tiny_raw) "m.json"
           tiny_model (lit "abc")).
  reflexivity.
Defined.

(** ** The trigram hasher: when it raises *)

(** X10: from an offset [start >= 0], [hash_trigram] raises exactly
    when [dim] is 0 or the window runs past the end of the text. *)
Theorem hash_trigram_raises (text : pystr) (start dim : Z) :
  0 <= start ->
  (hash_trigram text start dim = None <-> dim = 0 \/ len text < start + 3).
Proof.
  intros Hstart. unfold hash_trigram, py_range. simpl.
  change (Z.of_nat 0) with 0. change (Z.of_nat 1) with 1. change (Z.of_nat 2) with 2.
  rewrite !py_getitem_nonneg by lia.
  destruct (text !! Z.to_nat (start + 0)) as [c0|] eqn:H0; simpl.
  2:{ apply lookup_ge_None in H0. split; [intros _; right; lia | reflexivity]. }
  destruct (text !! Z.to_nat (start + 1)) as [c1|] eqn:H1; simpl.
  2:{ apply lookup_ge_None in H1. split; [intros _; right; lia | reflexivity]. }
  destruct (text !! Z.to_nat (start + 2)) as [c2|] eqn:H2; simpl.
  2:{ apply lookup_ge_None in H2. split; [intros _; right; lia | reflexivity]. }
  apply lookup_lt_Some in H2.
  destruct (Z.eqb_spec dim 0) as [Hd|Hd].
  - split; [intros _; left; exact Hd | reflexivity].
  - split; [discriminate | intros [?|?]; [contradiction | lia]].
Qed.

Lemma hash_trigram_raises_witness :
  hash_trigram (lit "abcd") 2 4096 = None <-> 4096 = 0 \/ len (lit "abcd") < 2 + 3.
Proof. apply (hash_trigram_raises (lit "abcd") 2 4096). lia. Defined.

(** ** The bucket counts of the logistic model *)

Lemma bucket_get_incr counts idx k :
  bucket_get (bucket_incr counts idx) k =
  bucket_get counts k + (if idx =? k then 1 else 0).
Proof.
  induction counts as [|[k' n] counts IH]; simpl.
  - destruct (idx =? k); reflexivity.
  - destruct (Z.eqb_spec k' idx) as [->|Hne]; simpl.
    + destruct (idx =? k); lia.
    + destruct (Z.eqb_spec k' k) as [->|Hk].
      * destruct (Z.eqb_spec idx k); [congruence | lia].
      * exact IH.
Qed.

Lemma bucket_incr_elem counts idx k :
  k ∈ (bucket_incr counts idx).*1 -> k = idx \/ k ∈ counts.*1.
Proof.
  induction counts as [|[k' n] counts IH]; simpl; intros Hk.
  - apply list_elem_of_singleton in Hk. left. exact Hk.
  - destruct (Z.eqb_spec k' idx) as [->|Hne]; simpl in Hk.
    + right. exact Hk.
    + apply elem_of_cons in Hk as [->|Hk]; [right; left|].
      destruct (IH Hk) as [?|?]; [left; assumption | right; right; assumption].
Qed.

Lemma bucket_incr_NoDup counts idx :
  NoDup counts.*1 -> NoDup (bucket_incr counts idx).*1.
Proof.
  induction counts as [|[k' n] counts IH]; simpl; intros Hnd.
  - apply NoDup_singleton.
  - apply NoDup_cons in Hnd as [Hk' Hnd].
    destruct (Z.eqb_spec k' idx) as [->|Hne]; simpl.
    + apply NoDup_cons. split; assumption.
    + apply NoDup_cons. split; [|apply IH; exact Hnd].
      intros Hin. destruct (bucket_incr_elem _ _ _ Hin) as [?|?];
        [congruence | contradiction].
Qed.

Lemma bucket_incr_positive counts idx :
  Forall (fun kv : Z * Z => 0 < kv.2) counts ->
  Forall (fun kv : Z * Z => 0 < kv.2) (bucket_incr counts idx).
Proof.
  induction 1 as [|[k n] counts Hk Hc IH]; simpl.
  - repeat constructor.
  - cbn [snd] in Hk. destruct (k =? idx); constructor; cbn [snd]; try assumption. lia.
Qed.

Lemma bucket_incr_sum counts idx :
  foldr Z.add 0 (bucket_incr counts idx).*2 = foldr Z.add 0 counts.*2 + 1.
Proof.
  induction counts as [|[k n] counts IH]; [reflexivity|].
  cbn [bucket_incr]. destruct (k =? idx); rewrite !fmap_cons; cbn [foldr snd]; lia.
Qed.

Lemma py_range_succ n : 0 <= n -> py_range (n + 1) = py_range n ++ [n].
Proof.
  intros Hn. unfold py_range.
  replace (Z.to_nat (n + 1)) with (S (Z.to_nat n)) by lia.
  rewrite seq_S, map_app. simpl. rewrite Z2Nat.id by lia. reflexivity.
Qed.

Lemma py_range_nonpos n : n <= 0 -> py_range n = [].
Proof. intros Hn. unfold py_range. replace (Z.to_nat n) with 0%nat by lia. reflexivity. Qed.

(** X11: when the bucket loop of the logistic model ends, the dict
    holds every bucket once, with the number of windows hashed to it
    (a bucket that no window reached reads as 0), every stored count
    is positive, and the counts add up to the number of windows. *)
Theorem bucket_counts_spec (normalized : pystr) (dim n : Z) (counts : list (Z * Z)) :
  bucket_counts normalized dim n = Some counts ->
  NoDup (counts.*1) /\
  (forall idx, bucket_get counts idx = windows_in_bucket normalized dim n idx) /\
  Forall (fun kv : Z * Z => 0 < kv.2) counts /\
  foldr Z.add 0 (counts.*2) = Z.max 0 n.
Proof.
  unfold bucket_counts, windows_in_bucket.
  assert (Hnat : forall (k : nat) counts,
    for_each (fun counts i => idx ← hash_trigram normalized i dim;
                              Some (bucket_incr counts idx))
             (py_range (Z.of_nat k)) [] = Some counts ->
    NoDup (counts.*1) /\
    (forall idx, bucket_get counts idx =
       len (filter (fun i => hash_trigram normalized i dim = Some idx)
                   (py_range (Z.of_nat k)))) /\
    Forall (fun kv : Z * Z => 0 < kv.2) counts /\
    foldr Z.add 0 (counts.*2) = Z.of_nat k).
  { induction k as [|k IH]; intros counts0.
    - simpl. intros Heq. injection Heq as <-.
      split; [constructor|]. split; [reflexivity|]. split; [constructor | reflexivity].
    - rewrite Nat2Z.inj_succ, <- Z.add_1_r, py_range_succ by lia.
      rewrite for_each_app.
      destruct (for_each _ (py_range (Z.of_nat k)) []) as [counts1|] eqn:Hloop;
        [|discriminate].
      destruct (IH counts1 eq_refl) as (Hnd & Hget & Hpos & Hsum).
      simpl. destruct (hash_trigram normalized (Z.of_nat k) dim) as [idx|] eqn:Hh;
        [|discriminate].
      simpl. intros Heq. injection Heq as <-.
      split; [apply bucket_incr_NoDup; exact Hnd|].
      split; [|split; [apply bucket_incr_positive; exact Hpos|]].
      + intros j. rewrite bucket_get_incr, Hget, filter_app, length_app.
        rewrite filter_cons, filter_nil.
        destruct (decide (hash_trigram normalized (Z.of_nat k) dim = Some j)) as [Hj|Hj].
        * rewrite Hh in Hj. injection Hj as ->. rewrite Z.eqb_refl. simpl length. lia.
        * destruct (Z.eqb_spec idx j) as [->|_]; [congruence | simpl length; lia].
      + rewrite bucket_incr_sum, Hsum. lia. }
  intros Hloop.
  assert (Hrange : py_range n = py_range (Z.of_nat (Z.to_nat n))).
  { unfold py_range. rewrite Nat2Z.id. reflexivity. }
  rewrite Hrange in Hloop |- *.
  destruct (Hnat _ _ Hloop) as (Hnd & Hget & Hpos & Hsum).
  split; [exact Hnd|]. split; [exact Hget|]. split; [exact Hpos|]. lia.
Qed.

Lemma bucket_counts_spec_witness :
  NoDup ([(3, 2); (1, 4)].*1) /\
  (forall idx,
     bucket_get [(3, 2); (1, 4)] idx = windows_in_bucket (lit "abcabcab") 4 6 idx) /\
  Forall (fun kv : Z * Z => 0 < kv.2) [(3, 2); (1, 4)] /\
  foldr Z.add 0 ([(3, 2); (1, 4)].*2) = Z.max 0 6.
Proof.
  apply (bucket_counts_spec (lit "abcabcab") 4 6 [(3, 2); (1, 4)]). reflexivity.
Defined.

(** ** The filter: what it returns *)

Lemma entry_valid `{PyRuntime} row :
  is_skipped row = false ->
  ((entry row).1 = "AI"%string \/ (entry row).1 = "Human"%string) /\
  normalize_text (Some (entry row).2) <> [].
Proof.
  unfold is_skipped, entry. cbn [fst snd]. intros Hrow.
  apply orb_false_elim in Hrow as [_ Htext]. split.
  - destruct (str_eqb (label_of row) (lit "ai")); [left | right]; reflexivity.
  - destruct (normalize_text _); [discriminate Htext | discriminate].
Qed.

(** X12: [select_valid_rows] counts what it accepts and what it skips:
    the returned [accepted_rows] is the one passed in plus the number of
    rows returned; unless the budget stopped the loop, every row of the
    batch is either returned or counted in [skipped]; a stop happens
    only with a positive budget that the accepted rows have reached;
    and every row returned has the ground truth "AI" or "Human" and a
    text whose normalization is not empty. *)
Theorem select_valid_rows_spec `{PyRuntime} (rows : list Row) (max_rows accepted_rows : Z)
    (valid_rows : list (string * pystr)) (accepted skipped : Z) (stop : bool) :
  select_valid_rows rows max_rows accepted_rows = (valid_rows, accepted, skipped, stop) ->
  accepted = accepted_rows + len valid_rows /\
  0 <= skipped /\
  len valid_rows + skipped <= len rows /\
  (stop = false -> len valid_rows + skipped = len rows) /\
  (stop = true -> 0 < max_rows <= accepted) /\
  Forall (fun row : string * pystr =>
            (row.1 = "AI"%string \/ row.1 = "Human"%string) /\
            normalize_text (Some row.2) <> []) valid_rows.
Proof.
  unfold select_valid_rows.
  revert accepted_rows valid_rows accepted skipped stop.
  induction rows as [|row rows IH]; intros acc0 v a s stop.
  - cbn [select_loop]. intros Heq. injection Heq as <- <- <- <-.
    simpl. repeat split; try lia; try discriminate. constructor.
  - rewrite select_loop_cons. destruct (is_skipped row) eqn:Hrow.
    + rewrite select_loop_shift.
      destruct (select_loop rows max_rows [] acc0 0) as [[[v1 a1] s1] stop1] eqn:Hsel.
      intros Heq. injection Heq as <- <- <- <-.
      destruct (IH _ _ _ _ _ Hsel) as (Ha & Hs & Hle & Hall & Hstop & Hv).
      cbn [app length] in *.
      split; [lia|]. split; [lia|]. split; [lia|].
      split; [intros Hst; specialize (Hall Hst); lia|].
      split; [exact Hstop | exact Hv].
    + destruct ((0 <? max_rows) && (max_rows <=? acc0 + 1)) eqn:Hfull.
      * intros Heq. injection Heq as <- <- <- <-.
        apply andb_true_iff in Hfull as [Hmax Hfull].
        apply Z.ltb_lt in Hmax. apply Z.leb_le in Hfull.
        cbn [app length] in *.
        split; [lia|]. split; [lia|]. split; [lia|].
        split; [discriminate|]. split; [intros _; lia|].
        apply Forall_cons_2; [exact (entry_valid row Hrow) | constructor].
      * rewrite select_loop_shift.
        destruct (select_loop rows max_rows [] (acc0 + 1) 0) as [[[v1 a1] s1] stop1] eqn:Hsel.
        intros Heq. injection Heq as <- <- <- <-.
        destruct (IH _ _ _ _ _ Hsel) as (Ha & Hs & Hle & Hall & Hstop & Hv).
        cbn [app length] in *.
        split; [lia|]. split; [lia|]. split; [lia|].
        split; [intros Hst; specialize (Hall Hst); lia|].
        split; [exact Hstop|].
        apply Forall_cons_2; [exact (entry_valid row Hrow) | exact Hv].
Qed.

Lemma select_valid_rows_spec_witness :
  2 = 0 + len [("AI"%string, lit "abc"); ("Human"%string, lit "abc")] /\
  0 <= 1 /\
  len [("AI"%string, lit "abc"); ("Human"%string, lit "abc")] + 1 <=
    len [sample_row " AI " "abc"; sample_row "ai" "   "; sample_row "Human" "abc"] /\
  (false = false ->
   len [("AI"%string, lit "abc"); ("Human"%string, lit "abc")] + 1 =
     len [sample_row " AI " "abc"; sample_row "ai" "   "; sample_row "Human" "abc"]) /\
  (false = true -> 0 < 0 <= 2) /\
  Forall (fun row : string * pystr =>
            (row.1 = "AI"%string \/ row.1 = "Human"%string) /\
            @normalize_text example_runtime (Some row.2) <> [])
         [("AI"%string, lit "abc"); ("Human"%string, lit "abc")].
Proof.
  apply (@select_valid_rows_spec example_runtime
           [sample_row " AI " "abc"; sample_row "ai" "   "; sample_row "Human" "abc"]
           0 0 [("AI"%string, lit "abc"); ("Human"%string, lit "abc")] 2 1 false).
  reflexivity.
Defined.

(** Without a budget, or with one that the stream does not fill, the
    filter goes through the whole stream. *)
Lemma select_valid_rows_all `{PyRuntime} (stream : list Row) (max_rows accepted : Z) :
  max_rows <= 0 \/ accepted + valid_count stream < max_rows ->
  select_valid_rows stream max_rows accepted =
    (entry <$> filter (fun row => is_skipped row = false) stream,
     accepted + valid_count stream,
     len (filter (fun row => is_skipped row = true) stream),
     false).
Proof.
  unfold select_valid_rows, valid_count. revert accepted.
  induction stream as [|row stream IH]; intros accepted Hmax.
  - cbn. rewrite Z.add_0_r. reflexivity.
  - rewrite select_loop_cons, !filter_cons. rewrite !filter_cons in Hmax.
    destruct (is_skipped row) eqn:Hrow.
    + rewrite decide_False in Hmax |- * by discriminate.
      rewrite decide_True by reflexivity.
      rewrite select_loop_shift, IH by exact Hmax.
      simpl length. cbn [app]. repeat (f_equal; try lia).
    + rewrite decide_True in Hmax |- * by reflexivity.
      rewrite decide_False by discriminate.
      simpl length in Hmax.
      replace ((0 <? max_rows) && (max_rows <=? accepted + 1)) with false
        by (symmetry; apply andb_false_iff;
            destruct (Z.ltb_spec 0 max_rows); [right; apply Z.leb_gt; lia | left; reflexivity]).
      rewrite select_loop_shift, IH by lia.
      simpl length. rewrite fmap_cons. cbn [app]. repeat (f_equal; try lia).
Qed.

Lemma length_filter_split {A} (P : A -> bool) (l : list A) :
  len (filter (fun x => P x = false) l) + len (filter (fun x => P x = true) l) = len l.
Proof.
  induction l as [|x l IH]; [reflexivity|].
  rewrite !filter_cons. destruct (P x).
  - rewrite decide_False by discriminate. rewrite decide_True by reflexivity.
    simpl length. lia.
  - rewrite decide_True by reflexivity. rewrite decide_False by discriminate.
    simpl length. lia.
Qed.

(** X13: without a budget ([max_rows <= 0]), or with a budget that the
    dataset does not fill, the run goes through the whole dataset and
    accounts for every row, in both modes and under every schedule:
    [processed_rows] is the number of valid rows, [skipped_rows] the
    number of the others, and they add up to the number of rows read. *)
Theorem every_row_accounted `{PyRuntime} (model : Model) (model_ja : option Model)
    (human_threshold ai_threshold human_threshold_ja ai_threshold_ja : float)
    (max_rows workers : Z) (sched : Schedule) (batches : list (list Row)) :
  model_ok model ->
  (forall ja, model_ja = Some ja -> model_ok ja) ->
  max_rows <= 0 \/ valid_count (concat batches) < max_rows ->
  exists summary,
    run_evaluation sched batches model model_ja human_threshold ai_threshold
      human_threshold_ja ai_threshold_ja max_rows workers = Some summary /\
    s_processed_rows summary = valid_count (concat batches) /\
    s_skipped_rows summary =
      len (filter (fun row => is_skipped row = true) (concat batches)) /\
    s_processed_rows summary + s_skipped_rows summary = len (concat batches).
Proof.
  intros Hok Hja Hmax.
  pose proof (select_valid_rows_all (concat batches) max_rows 0) as Hsel.
  rewrite Z.add_0_l in Hsel. specialize (Hsel Hmax).
  destruct (evaluate_total model model_ja human_threshold ai_threshold
              (Some human_threshold_ja) (Some ai_threshold_ja)
              (entry <$> filter (fun row => is_skipped row = false) (concat batches))
              Hok Hja)
    as (whole & Hwhole & Htotal).
  destruct (evaluation_state_counters model model_ja human_threshold ai_threshold
              human_threshold_ja ai_threshold_ja max_rows sched batches workers
              _ _ _ _ whole Hsel Hwhole) as (state & Hstate & Hc & Hs).
  unfold run_evaluation. rewrite Hstate. simpl.
  eexists. split; [reflexivity|]. cbn [s_processed_rows s_skipped_rows summary_of].
  apply (f_equal (fun l => hd 0 l)) in Hc. unfold counters in Hc. simpl in Hc.
  rewrite length_fmap in Htotal.
  assert (Hp : st_total state = valid_count (concat batches))
    by (unfold valid_count; lia).
  split; [exact Hp|]. split; [exact Hs|].
  rewrite Hp, Hs. apply (length_filter_split is_skipped).
Qed.

Lemma every_row_accounted_witness :
  exists summary,
    @run_evaluation example_runtime oldest_first sample_batches tiny_model None
      DEFAULT_HUMAN_THRESHOLD DEFAULT_AI_THRESHOLD
      DEFAULT_HUMAN_THRESHOLD DEFAULT_AI_THRESHOLD 0 4 = Some summary /\
    s_processed_rows summary = @valid_count example_runtime (concat sample_batches) /\
    s_skipped_rows summary =
      len (filter (fun row => @is_skipped example_runtime row = true)
             (concat sample_batches)) /\
    s_processed_rows summary + s_skipped_rows summary = len (concat sample_batches).
Proof.
  apply (@every_row_accounted example_runtime tiny_model None
           DEFAULT_HUMAN_THRESHOLD DEFAULT_AI_THRESHOLD
           DEFAULT_HUMAN_THRESHOLD DEFAULT_AI_THRESHOLD 0 4 oldest_first sample_batches).
  - exact tiny_model_ok.
  - intros ja Hja. discriminate Hja.
  - left. lia.
Defined.

(** ** A dataset without a valid row *)

Lemma select_valid_rows_none `{PyRuntime} (rows : list Row) (max_rows accepted : Z) :
  Forall (fun row => is_skipped row = true) rows ->
  select_valid_rows rows max_rows accepted = ([], accepted, len rows, false).
Proof.
  unfold select_valid_rows. induction 1 as [|row rows Hrow _ IH].
  - reflexivity.
  - rewrite select_loop_cons, Hrow, select_loop_shift, IH.
    simpl length. cbn [app]. repeat (f_equal; try lia).
Qed.

Section NoValidRow.
Context `{PyRuntime}.
Variables (model : Model) (model_ja : option Model).
Variables (human_threshold ai_threshold human_threshold_ja ai_threshold_ja : float).
Variable max_rows : Z.

Lemma run_sequential_none batches state accepted :
  Forall (fun row => is_skipped row = true) (concat batches) ->
  run_sequential model model_ja human_threshold ai_threshold
    human_threshold_ja ai_threshold_ja max_rows batches state accepted =
  Some (add_skipped state (len (concat batches))).
Proof.
  revert state. induction batches as [|rows rest IH]; intros state Hall.
  - simpl. rewrite add_skipped_0. reflexivity.
  - cbn [concat] in Hall. apply Forall_app in Hall as [Hrows Hrest].
    cbn [run_sequential]. rewrite select_valid_rows_none by exact Hrows.
    simpl. rewrite IH by exact Hrest. rewrite add_skipped_add.
    rewrite length_app, Nat2Z.inj_add. reflexivity.
Qed.

Lemma run_parallel_none sched max_inflight batches state accepted waits :
  0 < max_inflight ->
  Forall (fun row => is_skipped row = true) (concat batches) ->
  run_parallel model model_ja human_threshold ai_threshold
    human_threshold_ja ai_threshold_ja max_rows sched max_inflight
    batches state accepted [] waits =
  Some (add_skipped state (len (concat batches))).
Proof.
  intros Hmax. revert state. induction batches as [|rows rest IH]; intros state Hall.
  - simpl. rewrite add_skipped_0. reflexivity.
  - cbn [concat] in Hall. apply Forall_app in Hall as [Hrows Hrest].
    cbn [run_parallel]. rewrite select_valid_rows_none by exact Hrows.
    cbn [length]. change (Z.of_nat 0) with 0.
    replace (max_inflight <=? 0) with false by (symmetry; apply Z.leb_gt; lia).
    simpl. rewrite IH by exact Hrest. rewrite add_skipped_add.
    rewrite length_app, Nat2Z.inj_add. reflexivity.
Qed.
End NoValidRow.

(** X14: on a dataset in which every row is skipped the run succeeds
    with any model, well-formed or not, since no row is ever scored: it
    reports [processed_rows = 0], [skipped_rows] equal to the number of
    rows, empty ground-truth and prediction counts and a confusion
    matrix of zeros, in both modes and under every schedule. *)
Theorem no_valid_row `{PyRuntime} (model : Model) (model_ja : option Model)
    (human_threshold ai_threshold human_threshold_ja ai_threshold_ja : float)
    (max_rows workers : Z) (sched : Schedule) (batches : list (list Row)) :
  Forall (fun row => is_skipped row = true) (concat batches) ->
  exists summary,
    run_evaluation sched batches model model_ja human_threshold ai_threshold
      human_threshold_ja ai_threshold_ja max_rows workers = Some summary /\
    s_processed_rows summary = 0 /\
    s_skipped_rows summary = len (concat batches) /\
    s_ground_truth_counts summary = ∅ /\
    s_prediction_counts summary = ∅ /\
    Forall (fun cell : string * Z => cell.2 = 0) (s_confusion_matrix summary).
Proof.
  intros Hall. unfold run_evaluation, evaluation_state.
  assert (Hstate :
    (if Z.max 1 workers =? 1
     then run_sequential model model_ja human_threshold ai_threshold
            human_threshold_ja ai_threshold_ja max_rows batches new_state 0
     else run_parallel model model_ja human_threshold ai_threshold
            human_threshold_ja ai_threshold_ja max_rows sched
            (Z.max 2 (Z.max 1 workers * 3)) batches new_state 0 [] 0) =
    Some (add_skipped new_state (len (concat batches)))).
  { destruct (Z.max 1 workers =? 1).
    - apply run_sequential_none. exact Hall.
    - apply run_parallel_none; [lia | exact Hall]. }
  rewrite Hstate. simpl. eexists. split; [reflexivity|].
  cbn. repeat split; try reflexivity. repeat constructor.
Qed.

Lemma no_valid_row_witness :
  exists summary,
    @run_evaluation example_runtime oldest_first
      [[sample_row "x" "abc"]; [sample_row "ai" "   "]] short_model None
      DEFAULT_HUMAN_THRESHOLD DEFAULT_AI_THRESHOLD
      DEFAULT_HUMAN_THRESHOLD DEFAULT_AI_THRESHOLD 0 4 = Some summary /\
    s_processed_rows summary = 0 /\
    s_skipped_rows summary = len (concat [[sample_row "x" "abc"]; [sample_row "ai" "   "]]) /\
    s_ground_truth_counts summary = ∅ /\
    s_prediction_counts summary = ∅ /\
    Forall (fun cell : string * Z => cell.2 = 0) (s_confusion_matrix summary).
Proof.
  apply (@no_valid_row example_runtime short_model None
           DEFAULT_HUMAN_THRESHOLD DEFAULT_AI_THRESHOLD
           DEFAULT_HUMAN_THRESHOLD DEFAULT_AI_THRESHOLD 0 4 oldest_first
           [[sample_row "x" "abc"]; [sample_row "ai" "   "]]).
  repeat constructor.
Defined.

(** ** What a batch evaluation tallies *)

Lemma eval_row_tallies `{PyRuntime} actual actual_ja ht aiT htj atj acc row acc' :
  eval_row actual actual_ja ht aiT htj atj acc row = Some acc' ->
  p_total acc' = p_total acc + 1 /\
  p_gt_ai acc' = incr_if (bool_decide (row.1 = "AI"%string)) (p_gt_ai acc) /\
  p_gt_human acc' = incr_if (negb (bool_decide (row.1 = "AI"%string))) (p_gt_human acc) /\
  p_jp_rows acc' = incr_if (is_likely_japanese_text row.2) (p_jp_rows acc) /\
  p_non_jp_rows acc' = incr_if (negb (is_likely_japanese_text row.2)) (p_non_jp_rows acc).
Proof.
  unfold eval_row. destruct row as [gt text].
  destruct (match actual_ja with Some _ => _ | None => _ end) as [[row_model rh] ra].
  destruct (compute_score text row_model) as [score|]; [|discriminate].
  simpl. intros Heq. injection Heq as <-. repeat split.
Qed.

(** X15: when [evaluate_valid_rows] returns, whatever the models and
    the thresholds, its [total] is the number of rows it was given,
    [gt_ai] the number of rows whose ground truth is "AI" and
    [gt_human] the number of all other rows (any other string counts
    as Human), and [jp_rows] / [non_jp_rows] count the rows that the
    language router takes for Japanese and the others. *)
Theorem evaluate_valid_rows_tallies `{PyRuntime} (globals : WorkerGlobals)
    (rows : list (string * pystr)) (human_threshold ai_threshold : float)
    (model model_ja : option Model) (human_threshold_ja ai_threshold_ja : option float)
    (part : PartialResult) :
  evaluate_valid_rows globals rows human_threshold ai_threshold model model_ja
    human_threshold_ja ai_threshold_ja = Some part ->
  p_total part = len rows /\
  p_gt_ai part = len (filter (fun row : string * pystr => row.1 = "AI"%string) rows) /\
  p_gt_human part = len (filter (fun row : string * pystr => row.1 <> "AI"%string) rows) /\
  p_jp_rows part =
    len (filter (fun row : string * pystr => is_likely_japanese_text row.2 = true) rows) /\
  p_non_jp_rows part =
    len (filter (fun row : string * pystr => is_likely_japanese_text row.2 = false) rows).
Proof.
  unfold evaluate_valid_rows.
  destruct (match model with Some m => Some m | None => WORKER_MODEL globals end)
    as [actual|]; [|discriminate].
  set (actual_ja := match model_ja with Some m => Some m | None => _ end).
  enough (Hgen : forall acc,
    for_each (eval_row actual actual_ja human_threshold ai_threshold
                human_threshold_ja ai_threshold_ja) rows acc = Some part ->
    p_total part = p_total acc + len rows /\
    p_gt_ai part = p_gt_ai acc
      + len (filter (fun row : string * pystr => row.1 = "AI"%string) rows) /\
    p_gt_human part = p_gt_human acc
      + len (filter (fun row : string * pystr => row.1 <> "AI"%string) rows) /\
    p_jp_rows part = p_jp_rows acc
      + len (filter (fun row : string * pystr => is_likely_japanese_text row.2 = true) rows) /\
    p_non_jp_rows part = p_non_jp_rows acc
      + len (filter (fun row : string * pystr => is_likely_japanese_text row.2 = false) rows)).
  { intros Hloop. destruct (Hgen zero_result Hloop) as (H1 & H2 & H3 & H4 & H5).
    simpl in *. repeat split; lia. }
  induction rows as [|row rows IH]; intros acc.
  - simpl. intros Heq. injection Heq as <-. rewrite ?filter_nil. simpl. repeat split; lia.
  - cbn [for_each].
    destruct (eval_row actual actual_ja human_threshold ai_threshold
                human_threshold_ja ai_threshold_ja acc row) as [acc'|] eqn:Hrow;
      [|discriminate].
    simpl. intros Hloop.
    destruct (IH acc' Hloop) as (H1 & H2 & H3 & H4 & H5).
    destruct (eval_row_tallies _ _ _ _ _ _ _ _ _ Hrow) as (E1 & E2 & E3 & E4 & E5).
    rewrite H1, H2, H3, H4, H5, E1, E2, E3, E4, E5. clear.
    rewrite !filter_cons. unfold incr_if.
    destruct (decide (row.1 = "AI"%string)) as [Hgt|Hgt].
    + rewrite bool_decide_true by exact Hgt.
      rewrite (decide_False (P := row.1 <> "AI"%string)) by (intros Hn; exact (Hn Hgt)).
      destruct (is_likely_japanese_text row.2).
      * rewrite decide_True by reflexivity. rewrite decide_False by discriminate.
        simpl length. cbn [negb]. repeat split; lia.
      * rewrite decide_False by discriminate. rewrite decide_True by reflexivity.
        simpl length. cbn [negb]. repeat split; lia.
    + rewrite bool_decide_false by exact Hgt.
      rewrite (decide_True (P := row.1 <> "AI"%string)) by exact Hgt.
      destruct (is_likely_japanese_text row.2).
      * rewrite decide_True by reflexivity. rewrite decide_False by discriminate.
        simpl length. cbn [negb]. repeat split; lia.
      * rewrite decide_False by discriminate. rewrite decide_True by reflexivity.
        simpl length. cbn [negb]. repeat split; lia.
Qed.

Lemma evaluate_valid_rows_tallies_witness :
  p_total whole_example = len [row_short; row_low; row_low] /\
  p_gt_ai whole_example =
    len (filter (fun row : string * pystr => row.1 = "AI"%string)
           [row_short; row_low; row_low]) /\
  p_gt_human whole_example =
    len (filter (fun row : string * pystr => row.1 <> "AI"%string)
           [row_short; row_low; row_low]) /\
  p_jp_rows whole_example =
    len (filter (fun row : string * pystr => is_likely_japanese_text row.2 = true)
           [row_short; row_low; row_low]) /\
  p_non_jp_rows whole_example =
    len (filter (fun row : string * pystr => is_likely_japanese_text row.2 = false)
           [row_short; row_low; row_low]).
Proof.
  apply (@evaluate_valid_rows_tallies example_runtime no_globals
           [row_short; row_low; row_low] DEFAULT_HUMAN_THRESHOLD DEFAULT_AI_THRESHOLD
           (Some tiny_model) None None None whole_example).
  vm_compute. reflexivity.
Defined.

(** ** The language router decides which model scores a row *)

Lemma for_each_ext_in {A S} (f g : S -> A -> option S) (l : list A) (s : S) :
  (forall s x, x ∈ l -> f s x = g s x) -> for_each f l s = for_each g l s.
Proof.
  revert s. induction l as [|x l IH]; intros s Hfg; [reflexivity|].
  simpl. rewrite Hfg by left. destruct (g s x) as [s'|]; [|reflexivity].
  simpl. apply IH. intros s0 y Hy. apply Hfg. right. exact Hy.
Qed.

Section Routing.
Context `{PyRuntime}.
Variables (model ja : Model).
Variables (human_threshold ai_threshold human_threshold_ja ai_threshold_ja : float).

(** With a secondary model, one iteration of the loop is the iteration
    of a run in which the model that the router picks for the row is
    the only one. *)
Lemma eval_row_routed acc (row : string * pystr) :
  eval_row model (Some ja) human_threshold ai_threshold
    (Some human_threshold_ja) (Some ai_threshold_ja) acc row =
  if is_likely_japanese_text row.2
  then eval_row ja None human_threshold_ja ai_threshold_ja None None acc row
  else eval_row model None human_threshold ai_threshold None None acc row.
Proof.
  destruct row as [gt text]. unfold eval_row. cbn [snd].
  destruct (is_likely_japanese_text text); reflexivity.
Qed.

Lemma for_each_routed rows acc whole :
  for_each (eval_row model (Some ja) human_threshold ai_threshold
              (Some human_threshold_ja) (Some ai_threshold_ja)) rows acc = Some whole ->
  exists part_ja part,
    for_each (eval_row ja None human_threshold_ja ai_threshold_ja None None)
      (filter (fun row : string * pystr => is_likely_japanese_text row.2 = true) rows)
      zero_result = Some part_ja /\
    for_each (eval_row model None human_threshold ai_threshold None None)
      (filter (fun row : string * pystr => is_likely_japanese_text row.2 = false) rows)
      zero_result = Some part /\
    counters whole = vadd (counters acc) (vadd (counters part_ja) (counters part)).
Proof.
  revert acc. induction rows as [|row rows IH]; intros acc Hloop.
  - cbn in Hloop. injection Hloop as <-. exists zero_result, zero_result.
    split; [reflexivity|]. split; [reflexivity|]. vec.
  - cbn [for_each] in Hloop. rewrite eval_row_routed in Hloop. rewrite !filter_cons.
    destruct (is_likely_japanese_text row.2) eqn:Hjp.
    + rewrite decide_True by reflexivity. rewrite decide_False by discriminate.
      destruct (eval_row ja None human_threshold_ja ai_threshold_ja None None acc row)
        as [acc1|] eqn:Hrow; [|discriminate Hloop].
      simpl in Hloop. destruct (IH acc1 Hloop) as (pj & pp & Hpj & Hpp & Hsum).
      destruct (eval_row_shift _ _ _ _ _ _ acc zero_result row acc1 Hrow)
        as (first & Hfirst & Hshift).
      destruct (for_each_eval_shift human_threshold_ja ai_threshold_ja None None
                  ja None _ zero_result first pj Hpj) as (pj' & Hpj' & Hshift').
      exists pj', pp. cbn [for_each]. rewrite Hfirst. simpl.
      split; [exact Hpj'|]. split; [exact Hpp|].
      rewrite Hsum. clear -Hshift Hshift'. vec.
    + rewrite decide_False by discriminate. rewrite decide_True by reflexivity.
      destruct (eval_row model None human_threshold ai_threshold None None acc row)
        as [acc1|] eqn:Hrow; [|discriminate Hloop].
      simpl in Hloop. destruct (IH acc1 Hloop) as (pj & pp & Hpj & Hpp & Hsum).
      destruct (eval_row_shift _ _ _ _ _ _ acc zero_result row acc1 Hrow)
        as (first & Hfirst & Hshift).
      destruct (for_each_eval_shift human_threshold ai_threshold None None
                  model None _ zero_result first pp Hpp) as (pp' & Hpp' & Hshift').
      exists pj, pp'. cbn [for_each]. rewrite Hfirst. simpl.
      split; [exact Hpj|]. split; [exact Hpp'|].
      rewrite Hsum. clear -Hshift Hshift'. vec.
Qed.

(** X16: every row of a batch, mixed or not, is scored by one model
    only, the one the language router picks for that row. A batch of
    one row evaluates, with a secondary model, exactly as it does when
    the secondary model and thresholds are the primary ones (if the
    router takes the row for Japanese) or when there is no secondary
    model (if it does not). And when the evaluation of a batch returns,
    its integer counters are those of its Japanese rows evaluated by
    the secondary model alone plus those of its other rows evaluated by
    the primary model alone. *)
Theorem one_model_per_row (globals : WorkerGlobals) (rows : list (string * pystr))
    (whole : PartialResult) :
  evaluate_valid_rows globals rows human_threshold ai_threshold
    (Some model) (Some ja) (Some human_threshold_ja) (Some ai_threshold_ja) = Some whole ->
  (forall row : string * pystr,
     evaluate_valid_rows globals [row] human_threshold ai_threshold
       (Some model) (Some ja) (Some human_threshold_ja) (Some ai_threshold_ja) =
     if is_likely_japanese_text row.2
     then evaluate_valid_rows no_globals [row] human_threshold_ja ai_threshold_ja
            (Some ja) None None None
     else evaluate_valid_rows no_globals [row] human_threshold ai_threshold
            (Some model) None None None) /\
  exists part_ja part,
    evaluate_valid_rows no_globals
      (filter (fun row : string * pystr => is_likely_japanese_text row.2 = true) rows)
      human_threshold_ja ai_threshold_ja (Some ja) None None None = Some part_ja /\
    evaluate_valid_rows no_globals
      (filter (fun row : string * pystr => is_likely_japanese_text row.2 = false) rows)
      human_threshold ai_threshold (Some model) None None None = Some part /\
    counters whole = vadd (counters part_ja) (counters part).
Proof.
  unfold evaluate_valid_rows. cbn [WORKER_MODEL_JA no_globals]. intros Hloop. split.
  - intros row. cbn [for_each]. rewrite eval_row_routed.
    destruct (is_likely_japanese_text row.2); reflexivity.
  - destruct (for_each_routed rows zero_result whole Hloop)
      as (part_ja & part & Hja & Hpart & Hsum).
    exists part_ja, part. split; [exact Hja|]. split; [exact Hpart|].
    rewrite Hsum. clear. vec.
Qed.
End Routing.

Lemma one_model_per_row_witness :
  (forall row : string * pystr,
     @evaluate_valid_rows example_runtime no_globals [row]
       DEFAULT_HUMAN_THRESHOLD DEFAULT_AI_THRESHOLD (Some tiny_model) (Some short_model)
       (Some DEFAULT_HUMAN_THRESHOLD) (Some DEFAULT_AI_THRESHOLD) =
     if is_likely_japanese_text row.2
     then @evaluate_valid_rows example_runtime no_globals [row]
            DEFAULT_HUMAN_THRESHOLD DEFAULT_AI_THRESHOLD (Some short_model) None None None
     else @evaluate_valid_rows example_runtime no_globals [row]
            DEFAULT_HUMAN_THRESHOLD DEFAULT_AI_THRESHOLD (Some tiny_model) None None None) /\
  exists part_ja part,
    @evaluate_valid_rows example_runtime no_globals
      (filter (fun row : string * pystr => is_likely_japanese_text row.2 = true) mixed_rows)
      DEFAULT_HUMAN_THRESHOLD DEFAULT_AI_THRESHOLD (Some short_model) None None None
      = Some part_ja /\
    @evaluate_valid_rows example_runtime no_globals
      (filter (fun row : string * pystr => is_likely_japanese_text row.2 = false) mixed_rows)
      DEFAULT_HUMAN_THRESHOLD DEFAULT_AI_THRESHOLD (Some tiny_model) None None None
      = Some part /\
    counters mixed_example = vadd (counters part_ja) (counters part).
Proof.
  apply (@one_model_per_row example_runtime tiny_model short_model
           DEFAULT_HUMAN_THRESHOLD DEFAULT_AI_THRESHOLD
           DEFAULT_HUMAN_THRESHOLD DEFAULT_AI_THRESHOLD no_globals mixed_rows mixed_example).
  vm_compute. reflexivity.
Defined.

(** ** Results merged in the order of submission *)

Lemma extract_oldest {A} (x : A) (l : list A) : extract 0 (x :: l) = Some (x, l).
Proof. unfold extract. simpl length. rewrite Nat.Div0.mod_0_l. reflexivity. Qed.

Lemma take_done_oldest {A} (positions : list nat) (pending : list A) :
  Forall (fun i => i = 0%nat) positions ->
  pending = (take_done positions pending).1 ++ (take_done positions pending).2.
Proof.
  intros Hpos. revert pending. induction Hpos as [|i positions -> _ IH]; intros pending.
  - reflexivity.
  - cbn [take_done]. destruct pending as [|x rest]; [reflexivity|].
    rewrite extract_oldest. specialize (IH rest).
    destruct (take_done positions rest) as [done not_done]. simpl in *. congruence.
Qed.

Lemma as_completed_oldest {A} (sched : Schedule) (pending : list A) :
  (forall k, completion sched k = 0%nat) -> as_completed sched pending = pending.
Proof.
  intros Horder. unfold as_completed.
  generalize 0%nat. induction pending as [|x rest IH]; intros k; [reflexivity|].
  cbn [length as_completed_from]. rewrite Horder, extract_oldest, IH. reflexivity.
Qed.

Lemma merge_results_app state futures1 futures2 :
  merge_results state (futures1 ++ futures2) =
  state' ← merge_results state futures1; merge_results state' futures2.
Proof. apply for_each_app. Qed.

Section SubmissionOrder.
Context `{PyRuntime}.
Variables (model : Model) (model_ja : option Model).
Variables (human_threshold ai_threshold human_threshold_ja ai_threshold_ja : float).
Variable max_rows : Z.
Variable sched : Schedule.
Hypothesis in_order : merges_in_submission_order sched.

(** Under such a schedule the parallel loop is the sequential one,
    run after the pending futures have been merged. *)
Lemma run_parallel_in_order max_inflight batches state accepted pending waits :
  run_parallel model model_ja human_threshold ai_threshold
    human_threshold_ja ai_threshold_ja max_rows sched max_inflight
    batches state accepted pending waits =
  state' ← merge_results state pending;
  run_sequential model model_ja human_threshold ai_threshold
    human_threshold_ja ai_threshold_ja max_rows batches state' accepted.
Proof.
  destruct in_order as [Hwait Horder].
  revert state accepted pending waits.
  induction batches as [|rows rest IH]; intros state accepted pending waits.
  - cbn [run_parallel run_sequential]. rewrite as_completed_oldest by exact Horder.
    destruct (merge_results state pending); reflexivity.
  - cbn [run_parallel run_sequential].
    destruct (select_valid_rows rows max_rows accepted) as [[[v a] s] stop].
    set (state1 := add_skipped state s).
    set (pending1 := match v with [] => pending | _ :: _ => _ end).
    (* the loop body after the submission, in terms of [merge_results] *)
    assert (Hbody :
      ( '(state2, pending2, waits2) ←
         (if max_inflight <=? len pending1
          then
            let '(i, more) := wait_first sched waits in
            let '(done, not_done) := take_done (i :: more) pending1 in
            st ← merge_results state1 done; Some (st, not_done, S waits)
          else Some (state1, pending1, waits));
       if stop then merge_results state2 (as_completed sched pending2)
       else run_parallel model model_ja human_threshold ai_threshold
              human_threshold_ja ai_threshold_ja max_rows sched max_inflight
              rest state2 a pending2 waits2) =
      (st ← merge_results state1 pending1;
       if stop then Some st
       else run_sequential model model_ja human_threshold ai_threshold
              human_threshold_ja ai_threshold_ja max_rows rest st a)).
    { destruct (max_inflight <=? len pending1).
      - specialize (Hwait waits). destruct (wait_first sched waits) as [i more].
        cbn [fst snd] in Hwait. destruct Hwait as [-> Hmore].
        pose proof (take_done_oldest (0%nat :: more) pending1
                      (Forall_cons_2 _ _ _ eq_refl Hmore)) as Hsplit.
        destruct (take_done (0%nat :: more) pending1) as [done not_done].
        cbn [fst snd] in Hsplit. rewrite Hsplit, merge_results_app.
        destruct (merge_results state1 done) as [state2|]; [|reflexivity].
        simpl. destruct stop.
        + rewrite as_completed_oldest by exact Horder.
          destruct (merge_results state2 not_done); reflexivity.
        + apply IH.
      - simpl. destruct stop.
        + rewrite as_completed_oldest by exact Horder.
          destruct (merge_results state1 pending1); reflexivity.
        + apply IH. }
    rewrite Hbody. clear Hbody. subst pending1 state1.
    destruct v as [|row v].
    + rewrite merge_results_skipped.
      destruct (merge_results state pending) as [state'|]; reflexivity.
    + rewrite merge_results_app, merge_results_skipped, evaluate_in_worker.
      destruct (merge_results state pending) as [state'|]; [|reflexivity].
      simpl.
      destruct (evaluate_valid_rows no_globals (row :: v) human_threshold ai_threshold
                  (Some model) model_ja (Some human_threshold_ja) (Some ai_threshold_ja))
        as [part|]; reflexivity.
Qed.

(** X17: when the results of the tasks are merged in the order in
    which the tasks were submitted (the loop over the set [done] and
    [as_completed] visit the futures oldest first, which the program
    does not guarantee), a run with any number of workers ends in
    exactly the state of the sequential run, [score_sum] and the three
    counters included, and fails exactly when the sequential run
    fails. *)
Theorem parallel_in_order_is_sequential (batches : list (list Row)) (workers : Z) :
  evaluation_state model model_ja human_threshold ai_threshold
    human_threshold_ja ai_threshold_ja max_rows sched batches workers =
  evaluation_state model model_ja human_threshold ai_threshold
    human_threshold_ja ai_threshold_ja max_rows sched batches 1.
Proof.
  unfold evaluation_state. change (Z.max 1 1 =? 1) with true. cbv iota.
  destruct (Z.max 1 workers =? 1); [reflexivity|].
  rewrite run_parallel_in_order. reflexivity.
Qed.
End SubmissionOrder.

Lemma oldest_first_in_order : merges_in_submission_order oldest_first.
Proof. split; [intros n; split; [reflexivity | constructor] | reflexivity]. Qed.

Lemma parallel_in_order_is_sequential_witness :
  @evaluation_state example_runtime tiny_model None
    DEFAULT_HUMAN_THRESHOLD DEFAULT_AI_THRESHOLD
    DEFAULT_HUMAN_THRESHOLD DEFAULT_AI_THRESHOLD 0 oldest_first sample_batches 4 =
  @evaluation_state example_runtime tiny_model None
    DEFAULT_HUMAN_THRESHOLD DEFAULT_AI_THRESHOLD
    DEFAULT_HUMAN_THRESHOLD DEFAULT_AI_THRESHOLD 0 oldest_first sample_batches 1.
Proof.
  apply (@parallel_in_order_is_sequential example_runtime tiny_model None
           DEFAULT_HUMAN_THRESHOLD DEFAULT_AI_THRESHOLD
           DEFAULT_HUMAN_THRESHOLD DEFAULT_AI_THRESHOLD 0 oldest_first
           oldest_first_in_order sample_batches 4).
Defined.

(** ** The command line: when a summary is written *)





(** ** The command line: when the run succeeds *)

Lemma run_evaluation_total `{PyRuntime} (model : Model) (model_ja : option Model)
    (human_threshold ai_threshold human_threshold_ja ai_threshold_ja : float)
    (max_rows workers : Z) (sched : Schedule) (batches : list (list Row)) :
  model_ok model ->
  (forall ja, model_ja = Some ja -> model_ok ja) ->
  exists summary,
    run_evaluation sched batches model model_ja human_threshold ai_threshold
      human_threshold_ja ai_threshold_ja max_rows workers = Some summary /\
    s_max_rows summary = max_rows.
Proof.
  intros Hok Hja.
  destruct (select_valid_rows (concat batches) max_rows 0) as [[[v a] s] stop] eqn:Hsel.
  destruct (evaluate_total model model_ja human_threshold ai_threshold
              (Some human_threshold_ja) (Some ai_threshold_ja) v Hok Hja)
    as (whole & Hwhole & _).
  destruct (evaluation_state_counters model model_ja human_threshold ai_threshold
              human_threshold_ja ai_threshold_ja max_rows sched batches workers
              _ _ _ _ whole Hsel Hwhole) as (state & Hstate & _).
  unfold run_evaluation. rewrite Hstate. simpl. eexists. split; reflexivity.
Qed.

(** X19: when the model file loads, its thresholds can be computed
    (no null entry) and are not crossed, the same holds of the
    secondary model if a path is given, the dataset can be read, and
    the output directory can be made, the summary file written and the
    two lines printed, then [main] returns: no row of any dataset makes
    the scoring fail, whatever the worker count and the completion
    order of the pool. Its calls are the reads followed by the four
    output calls, and a negative [--max-rows] is reported, and treated,
    as 0. *)
Theorem main_succeeds `{PyRuntime} (env : Env) (args : Args) (m : Model)
    (human ai : float) (batches : list (list Row)) :
  load_model (read_json env) (a_model args) = inr m ->
  effective_thresholds m (a_human_threshold args) (a_ai_threshold args)
    = inr (human, ai) ->
  (ai <=? human)%float = false ->
  (a_model_ja args <> ""%string ->
   exists ja human_ja ai_ja,
     load_model (read_json env) (a_model_ja args) = inr ja /\
     effective_thresholds ja (a_human_threshold_ja args) (a_ai_threshold_ja args)
       = inr (human_ja, ai_ja) /\
     (ai_ja <=? human_ja)%float = false) ->
  read_parquet env (a_input args) = Some batches ->
  mkdir_ok env (a_output args) = true ->
  write_ok env (a_output args) = true ->
  print_ok env 0 = true ->
  print_ok env 1 = true ->
  exists summary,
    main env args = (input_calls args ++ output_calls args summary, inr summary) /\
    s_max_rows summary = Z.max 0 (a_max_rows args).
Proof.
  intros Hm Heff Hcross Hja Hdata Hmkdir Hwrite Hprint0 Hprint1.
  destruct (load_model_ok _ _ _ Hm) as (_ & _ & _ & Hok & _).
  unfold main, load_model_io, read_dataset, input_calls, output_calls, io_call.
  rewrite Hm, Hdata, Hmkdir, Hwrite, Hprint0, Hprint1.
  destruct (String.eqb_spec (a_model_ja args) "") as [Hnone|Hsome].
  - cbn -[effective_thresholds]. rewrite Heff. cbn. rewrite Hcross. cbn.
    destruct (run_evaluation_total m None human ai human ai
                (Z.max 0 (a_max_rows args)) (Z.max 1 (a_workers args))
                (pool_schedule env) batches Hok)
      as (summary & -> & Hmax); [discriminate|].
    cbn. exists summary. split; [reflexivity | exact Hmax].
  - destruct (Hja Hsome) as (ja & human_ja & ai_ja & Hload & Heff_ja & Hcross_ja).
    destruct (load_model_ok _ _ _ Hload) as (_ & _ & _ & Hok_ja & _).
    rewrite Hload. cbn -[effective_thresholds]. rewrite Heff.
    cbn -[effective_thresholds]. rewrite Hcross, Heff_ja. cbn. rewrite Hcross_ja. cbn.
    destruct (run_evaluation_total m (Some ja) human ai human_ja ai_ja
                (Z.max 0 (a_max_rows args)) (Z.max 1 (a_workers args))
                (pool_schedule env) batches Hok)
      as (summary & -> & Hmax).
    { intros ja' Heq. injection Heq as <-. exact Hok_ja. }
    cbn. exists summary. split; [reflexivity | exact Hmax].
Qed.

Lemma main_succeeds_witness :
  exists summary,
    @main example_runtime tiny_env default_args =
      (input_calls default_args ++ output_calls default_args summary, inr summary) /\
    s_max_rows summary = Z.max 0 (a_max_rows default_args).
Proof.
  apply (@main_succeeds example_runtime tiny_env default_args tiny_model
           DEFAULT_HUMAN_THRESHOLD DEFAULT_AI_THRESHOLD sample_batches).
  - reflexivity.
  - reflexivity.
  - reflexivity.
  - intros Hne. exfalso. apply Hne. reflexivity.
  - reflexivity.
  - reflexivity.
  - reflexivity.
  - reflexivity.
  - reflexivity.
Defined.

(** ** The shape of a normalized text *)

Lemma tidy_shape flag s :
  tidy flag s = true ->
  Forall (fun c => re_hspace c = true -> c = 32) s /\
  (forall i : nat, s !! i = Some 32 -> s !! S i <> Some 32) /\
  (flag = true -> s !! 0%nat <> Some 32).
Proof.
  revert flag. induction s as [|c s IH]; intros flag Ht.
  - split; [constructor|]. split; [intros i Hi; discriminate Hi | intros _; discriminate].
  - simpl in Ht. destruct (re_hspace c) eqn:Hc.
    + apply andb_prop in Ht as [Ht Hs]. apply andb_prop in Ht as [Hsp Hflag].
      apply Z.eqb_eq in Hsp. subst c. destruct flag; [discriminate Hflag|].
      destruct (IH true Hs) as (Hall & Hadj & Hfirst).
      split; [constructor; [reflexivity | exact Hall]|].
      split; [|discriminate].
      intros [|i] Hi; [exact (Hfirst eq_refl) | exact (Hadj i Hi)].
    + destruct (IH false Ht) as (Hall & Hadj & _).
      assert (Hne : c <> 32) by (intros ->; discriminate Hc).
      split; [constructor; [congruence | exact Hall]|].
      split.
      * intros [|i] Hi; [injection Hi as ->; contradiction | exact (Hadj i Hi)].
      * intros _ Hi. injection Hi as ->. contradiction.
Qed.

Lemma length_str_lstrip s : (length (str_lstrip s) <= length s)%nat.
Proof.
  induction s as [|c s IH]; [reflexivity|].
  simpl. destruct (py_isspace c); simpl; lia.
Qed.

Lemma str_lstrip_fixed_head s c :
  str_lstrip s = s -> head s = Some c -> py_isspace c = false.
Proof.
  destruct s as [|d s]; [discriminate|]. simpl. intros Hfix Hc. injection Hc as ->.
  destruct (py_isspace c); [|reflexivity].
  pose proof (length_str_lstrip s) as Hlen. rewrite Hfix in Hlen. simpl in Hlen. lia.
Qed.

Lemma str_rstrip_fixed_last s c :
  str_rstrip s = s -> last s = Some c -> py_isspace c = false.
Proof.
  induction s as [|d s IH]; [discriminate|].
  cbn [str_rstrip]. destruct (str_rstrip s) as [|k kept] eqn:Hs.
  - destruct (py_isspace d) eqn:Hd; [discriminate|].
    intros Hfix. injection Hfix as <-. simpl. intros Hc. injection Hc as <-. exact Hd.
  - intros Hfix. injection Hfix as <-. intros Hc.
    apply IH; [reflexivity|]. exact Hc.
Qed.

(** X20: whatever the input, a normalized text has no tab, form feed,
    vertical tab or non-breaking space, no two spaces in a row, and no
    whitespace at its start or its end. *)
Theorem normalize_text_shape `{PyRuntime} (value : option pystr) :
  LowerLaws str_lower ->
  let normalized := normalize_text value in
  Forall (fun c => c <> 9 /\ c <> 11 /\ c <> 12 /\ c <> 160) normalized /\
  (forall i : nat, normalized !! i = Some 32 -> normalized !! S i <> Some 32) /\
  (forall c, head normalized = Some c -> py_isspace c = false) /\
  (forall c, last normalized = Some c -> py_isspace c = false).
Proof.
  intros laws normalized.
  assert (Hfix : scrub normalized = normalized).
  { unfold normalized. rewrite normalize_text_scrub.
    rewrite (lower_scrub _ laws), scrub_idem. reflexivity. }
  assert (Hnb : Forall (fun c => c <> 160) normalized).
  { rewrite <- Hfix. unfold scrub, str_strip.
    apply Forall_str_rstrip, Forall_str_lstrip, Forall_re_sub_hspace;
      [discriminate | apply replace_nbsp_none]. }
  assert (Htidy : tidy false normalized = true).
  { rewrite <- Hfix. unfold scrub, str_strip.
    apply tidy_str_rstrip. eapply tidy_str_lstrip. apply tidy_re_sub_hspace. }
  destruct (tidy_shape _ _ Htidy) as (Hall & Hadj & _).
  assert (Hstrip : str_lstrip normalized = normalized /\ str_rstrip normalized = normalized).
  { rewrite <- Hfix. unfold scrub. apply str_strip_fixed. }
  split; [|split; [exact Hadj | split]].
  - rewrite Forall_forall in Hall, Hnb |- *. intros c Hc.
    specialize (Hall c Hc). specialize (Hnb c Hc).
    repeat split; try exact Hnb; intros ->; discriminate (Hall eq_refl).
  - intros c. apply str_lstrip_fixed_head, Hstrip.
  - intros c. apply str_rstrip_fixed_last, Hstrip.
Qed.

Lemma normalize_text_shape_witness :
  let normalized := @normalize_text example_runtime (Some (lit "  Ab   cD ")) in
  Forall (fun c => c <> 9 /\ c <> 11 /\ c <> 12 /\ c <> 160) normalized /\
  (forall i : nat, normalized !! i = Some 32 -> normalized !! S i <> Some 32) /\
  (forall c, head normalized = Some c -> py_isspace c = false) /\
  (forall c, last normalized = Some c -> py_isspace c = false).
Proof.
  apply (@normalize_text_shape example_runtime (Some (lit "  Ab   cD "))).
  exact ascii_lower_laws.
Defined.

(** ** The logistic score *)

(** X21: for a logistic model with [dim > 0] and [dim] weights,
    [compute_score] returns 0.5 when the normalized text is shorter
    than a trigram; otherwise the bucket loop succeeds over the
    [limit - 2] windows of the first [limit = min(len, max(200,
    max_chars))] characters, and the score is the sigmoid of the bias
    plus, for each bucket of the dict in insertion order, its weight
    times its share [count / (limit - 2)] of the windows. *)
Theorem compute_score_logistic `{PyRuntime} (model : Model) (bias : float)
    (weights : list float) (text : pystr) :
  m_params model = Logistic bias weights ->
  0 < m_dim model ->
  len weights = m_dim model ->
  let normalized := normalize_text (Some text) in
  let limit := Z.min (len normalized) (Z.max 200 (m_max_chars model)) in
  (len normalized < 3 -> compute_score text model = Some 0.5%float) /\
  (3 <= len normalized ->
   exists counts,
     bucket_counts normalized (m_dim model) (limit - 2) = Some counts /\
     compute_score text model =
       Some (sigmoid
               (fold_left
                  (fun logit (kv : Z * Z) =>
                     (logit + delta_at weights kv.1
                              * (float_of_int kv.2 / float_of_int (limit - 2)))%float)
                  counts bias))).
Proof.
  intros Hparams Hdim Hlen normalized limit. unfold compute_score.
  replace (Z.max 1 (m_dim model)) with (m_dim model) by lia.
  fold normalized. fold limit. rewrite Hparams. split.
  - intros Hshort. rewrite (proj2 (Z.ltb_lt _ _) Hshort). reflexivity.
  - intros Hlong. rewrite (proj2 (Z.ltb_ge _ _) Hlong).
    replace (Z.max 1 (limit - 2)) with (limit - 2) by (unfold limit; lia).
    unfold bucket_counts.
    destruct (for_each_invariant_total
                (Forall (fun kv : Z * Z => 0 <= kv.1 < m_dim model))
                (fun counts i =>
                   idx ← hash_trigram normalized i (m_dim model);
                   Some (bucket_incr counts idx))
                (py_range (limit - 2)) []) as (counts & Hloop & Hkeys);
      [|constructor|].
    + intros counts i Hi Hc. apply elem_of_py_range in Hi.
      destruct (hash_trigram_window normalized i (m_dim model)) as [-> Hb];
        [unfold limit in Hi; lia ..|].
      simpl. eexists. split; [reflexivity|].
      apply (bucket_incr_keys (fun k => 0 <= k < m_dim model)); assumption.
    + exists counts. split; [exact Hloop|]. rewrite Hloop. simpl.
      rewrite (for_each_total _
                 (fun logit (kv : Z * Z) =>
                    (logit + delta_at weights kv.1
                             * (float_of_int kv.2 / float_of_int (limit - 2)))%float)).
      * reflexivity.
      * intros logit [idx count] Hin.
        rewrite Forall_forall in Hkeys. specialize (Hkeys _ Hin). simpl in Hkeys.
        rewrite py_getitem_nonneg by lia. unfold delta_at. simpl.
        destruct (lookup_lt_is_Some_2 weights (Z.to_nat idx)) as [w ->]; [lia|].
        reflexivity.
Qed.

Lemma compute_score_logistic_witness :
  let normalized := @normalize_text example_runtime (Some (lit "abcd")) in
  let limit := Z.min (len normalized) (Z.max 200 (m_max_chars tiny_logistic)) in
  (len normalized < 3 ->
   @compute_score example_runtime (lit "abcd") tiny_logistic = Some 0.5%float) /\
  (3 <= len normalized ->
   exists counts,
     bucket_counts normalized (m_dim tiny_logistic) (limit - 2) = Some counts /\
     @compute_score example_runtime (lit "abcd") tiny_logistic =
       Some (@sigmoid example_runtime
               (fold_left
                  (fun logit (kv : Z * Z) =>
                     (logit + delta_at [(-38)%float; 0%float] kv.1
                              * (float_of_int kv.2 / float_of_int (limit - 2)))%float)
                  counts 0%float))).
Proof.
  exact (@compute_score_logistic example_runtime tiny_logistic 0
           [(-38)%float; 0%float] (lit "abcd") eq_refl eq_refl eq_refl).
Defined.

(** ** Crossed thresholds *)

(** X22: with thresholds that [main] rejects ([ai_threshold <=
    human_threshold]) the band between them is empty: [predict_judge]
    never answers Unknown, whatever the score. *)
Theorem predict_judge_crossed (score human_threshold ai_threshold : float) :
  (ai_threshold <=? human_threshold)%float = true ->
  predict_judge score human_threshold ai_threshold <> "Unknown"%string.
Proof.
  intros Hcross. unfold predict_judge.
  destruct (score <? human_threshold)%float eqn:E1; [discriminate|].
  destruct (score <? ai_threshold)%float eqn:E2; [|discriminate].
  pose proof (FloatOrder.ltb_leb_trans _ _ _ E2 Hcross). congruence.
Qed.

Lemma predict_judge_crossed_witness :
  predict_judge 0.5 DEFAULT_AI_THRESHOLD DEFAULT_HUMAN_THRESHOLD <> "Unknown"%string.
Proof.
  apply (predict_judge_crossed 0.5 DEFAULT_AI_THRESHOLD DEFAULT_HUMAN_THRESHOLD).
  reflexivity.
Defined.

(** ** The summary does not depend on how the run is executed *)

(** X23: two runs over the same rows with the same models and
    thresholds report the same integer entries, whatever the batch
    boundaries, the worker counts and the completion orders of the two
    pools: processed and skipped rows, the rows per language, the
    confusion matrix, and the ground-truth and prediction counts. *)
Theorem summary_independent_of_execution `{PyRuntime} (model : Model)
    (model_ja : option Model)
    (human_threshold ai_threshold human_threshold_ja ai_threshold_ja : float)
    (max_rows workers workers' : Z) (sched sched' : Schedule)
    (batches batches' : list (list Row)) :
  model_ok model ->
  (forall ja, model_ja = Some ja -> model_ok ja) ->
  concat batches' = concat batches ->
  exists summary summary',
    run_evaluation sched batches model model_ja human_threshold ai_threshold
      human_threshold_ja ai_threshold_ja max_rows workers = Some summary /\
    run_evaluation sched' batches' model model_ja human_threshold ai_threshold
      human_threshold_ja ai_threshold_ja max_rows workers' = Some summary' /\
    s_processed_rows summary' = s_processed_rows summary /\
    s_skipped_rows summary' = s_skipped_rows summary /\
    s_jp_rows summary' = s_jp_rows summary /\
    s_non_jp_rows summary' = s_non_jp_rows summary /\
    s_confusion_matrix summary' = s_confusion_matrix summary /\
    (forall label, label ∈ ["AI"; "Human"]%string ->
       counter_get (s_ground_truth_counts summary') label =
       counter_get (s_ground_truth_counts summary) label) /\
    (forall label, label ∈ ["AI"; "Human"; "Unknown"]%string ->
       counter_get (s_prediction_counts summary') label =
       counter_get (s_prediction_counts summary) label).
Proof.
  intros Hok Hja Hsame.
  destruct (select_valid_rows (concat batches) max_rows 0) as [[[v a] s] stop] eqn:Hsel.
  destruct (evaluate_total model model_ja human_threshold ai_threshold
              (Some human_threshold_ja) (Some ai_threshold_ja) v Hok Hja)
    as (whole & Hwhole & _).
  destruct (evaluation_state_counters model model_ja human_threshold ai_threshold
              human_threshold_ja ai_threshold_ja max_rows sched batches workers
              _ _ _ _ whole Hsel Hwhole) as (state & Hstate & Hc & Hs).
  rewrite <- Hsame in Hsel.
  destruct (evaluation_state_counters model model_ja human_threshold ai_threshold
              human_threshold_ja ai_threshold_ja max_rows sched' batches' workers'
              _ _ _ _ whole Hsel Hwhole) as (state' & Hstate' & Hc' & Hs').
  unfold run_evaluation. rewrite Hstate, Hstate'. simpl.
  eexists _, _. split; [reflexivity|]. split; [reflexivity|].
  rewrite <- Hc in Hc'. unfold counters, state_view in Hc'. simpl in Hc'.
  injection Hc' as E1 E2 E3 E4 E5 E6 E7 E8 E9 E10 E11 E12 E13 E14 E15 E16 E17 E18 E19.
  cbn [summary_of s_processed_rows s_skipped_rows s_jp_rows s_non_jp_rows
       s_confusion_matrix s_ground_truth_counts s_prediction_counts].
  split; [exact E1|]. split; [congruence|]. split; [exact E16|]. split; [exact E18|].
  split; [congruence|]. split.
  - intros label Hl. repeat (apply elem_of_cons in Hl as [->|Hl]; [assumption|]).
    apply elem_of_nil in Hl. contradiction.
  - intros label Hl. repeat (apply elem_of_cons in Hl as [->|Hl]; [assumption|]).
    apply elem_of_nil in Hl. contradiction.
Qed.

Lemma summary_independent_of_execution_witness :
  exists summary summary',
    @run_evaluation example_runtime oldest_first sample_batches tiny_model None
      DEFAULT_HUMAN_THRESHOLD DEFAULT_AI_THRESHOLD
      DEFAULT_HUMAN_THRESHOLD DEFAULT_AI_THRESHOLD 0 1 = Some summary /\
    @run_evaluation example_runtime oldest_first [concat sample_batches] tiny_model None
      DEFAULT_HUMAN_THRESHOLD DEFAULT_AI_THRESHOLD
      DEFAULT_HUMAN_THRESHOLD DEFAULT_AI_THRESHOLD 0 4 = Some summary' /\
    s_processed_rows summary' = s_processed_rows summary /\
    s_skipped_rows summary' = s_skipped_rows summary /\
    s_jp_rows summary' = s_jp_rows summary /\
    s_non_jp_rows summary' = s_non_jp_rows summary /\
    s_confusion_matrix summary' = s_confusion_matrix summary /\
    (forall label, label ∈ ["AI"; "Human"]%string ->
       counter_get (s_ground_truth_counts summary') label =
       counter_get (s_ground_truth_counts summary) label) /\
    (forall label, label ∈ ["AI"; "Human"; "Unknown"]%string ->
       counter_get (s_prediction_counts summary') label =
       counter_get (s_prediction_counts summary) label).
Proof.
  apply (@summary_independent_of_execution example_runtime tiny_model None
           DEFAULT_HUMAN_THRESHOLD DEFAULT_AI_THRESHOLD
           DEFAULT_HUMAN_THRESHOLD DEFAULT_AI_THRESHOLD 0 1 4
           oldest_first oldest_first sample_batches [concat sample_batches]).
  - exact tiny_model_ok.
  - intros ja Hja. discriminate Hja.
  - reflexivity.
Defined.
